(** * BulbdialClock: the firmware of the Bulbdial clock kit, embedded in Rocq

    The sketch [BulbdialClock.ino] exists in two revisions: the
    interrupt-driven one (display multiplexed from the Timer1 interrupt) and
    the older busy-loop one (display multiplexed inside [loop]).  The
    interrupt-driven revision is embedded in full as far as the control
    logic goes: settings store, real-time-clock read-out, button handling,
    hold detection, the once-per-second tick, the ring positions, the fades
    and the six dwell values.  Of the busy-loop revision the functions that
    differ in substance are embedded in [Module BusyLoop].

    All C globals live in one store indexed by the variable's name.  What
    the sketch reads from outside comes in as an input of [setup] and
    [loop]: the millisecond counter, the button port, the answer of the
    real-time clock and the serial receive buffer.  What it prints on the
    serial line is left out. *)

From Stdlib Require Import ZArith List Bool Lia.
Import ListNotations.
Local Open Scope Z_scope.

(** ** Machine integers (avr-gcc on the ATmega328)

    [byte] is [uint8_t]; [int] has 16 bits; [long] has 32 bits; [char] is
    signed.  Signed overflow is taken to wrap, as the generated AVR code
    does. *)

Definition byte (x : Z) : Z := x mod 256.
Definition char (x : Z) : Z := (x + 128) mod 256 - 128.
Definition uint16 (x : Z) : Z := x mod 65536.
Definition int16 (x : Z) : Z := (x + 32768) mod 65536 - 32768.
Definition uint32 (x : Z) : Z := x mod 4294967296.
Definition int32 (x : Z) : Z := (x + 2147483648) mod 4294967296 - 2147483648.

(** C truth value of an integer. *)
Definition truthy (x : Z) : bool := negb (x =? 0).

(** ** The global variables *)

Inductive Var : Set :=
  | timeNow
  | HrDisp | MinDisp | SecDisp | SecNext | MinNext | HrNext
  | HourBright | MinBright | SecBright | MainBright
  | millisThen | millisNow | prevtime
  | TimeSinceButton | LastSavedBrightness | DisplayOn
  | PINDLast
  | CCW | ExtRTC | UpdateRTC | SleepMode | FadeMode
  | VCRmode | FactoryResetDisable
  | SettingTime | AlignMode | OptionMode | AlignValue | AlignRate
  | AlignLoopCount | StartingOption
  | HoldTimeSet | HoldOption | HoldAlign
  | MomentaryOverridePlus | MomentaryOverrideMinus | MomentaryOverrideZ
  | HrFade1 | HrFade2 | MinFade1 | MinFade2 | SecFade1 | SecFade2
  | D0 | D1 | D2 | D3 | D4 | D5.

Scheme Equality for Var.

(** The machine state: the globals, the EEPROM cells with the log of the
    [EEPROM.write] calls issued so far, the bytes sent to the real-time
    clock over the two-wire bus, and the indices at which the [FadeConv]
    table has been read (all three logs latest first). *)

Record State : Type := mkState {
  vars :> Var -> Z;
  eeprom : Z -> Z;
  eewrites : list (Z * Z);
  wire : list Z;
  lookups : list Z
}.

Definition upd (x : Var) (v : Z) (s : State) : State :=
  mkState (fun y => if Var_beq x y then v else s y)
          (eeprom s) (eewrites s) (wire s) (lookups s).

Notation "s <| x := v |>" := (upd x v s)
  (at level 1, x at level 0, v at level 200, left associativity,
   format "s  <| x  :=  v |>").

(** [EEPROM.read] returns a byte, [EEPROM.write] stores one. *)
Definition EEPROM_read (loc : Z) (s : State) : Z := byte (eeprom s loc).

Definition EEPROM_write (loc val : Z) (s : State) : State :=
  mkState (vars s)
          (fun a => if a =? loc then byte val else eeprom s a)
          ((loc, byte val) :: eewrites s) (wire s) (lookups s).

Definition Wire_write (b : Z) (s : State) : State :=
  mkState (vars s) (eeprom s) (eewrites s) (byte b :: wire s) (lookups s).

(** ** Configuration constants *)

Definition MainBrightDefault : Z := 8.
Definition RedBrightDefault : Z := 63.
Definition GreenBrightDefault : Z := 63.
Definition BlueBrightDefault : Z := 63.
Definition CCWDefault : Z := 0.
Definition FadeModeDefault : Z := 1.
Definition FadeModes : Z := 4.
Definition buttonmask : Z := 224.
Definition fadeMax : Z := 63.
Definition StartOptTimeLimit : Z := 30.

(** ** Settings store *)

Definition ApplyDefaults (s : State) : State :=
  let s := s <| MainBright := MainBrightDefault |> in
  let s := s <| HourBright := RedBrightDefault |> in
  let s := s <| MinBright := GreenBrightDefault |> in
  let s := s <| SecBright := BlueBrightDefault |> in
  let s := s <| CCW := CCWDefault |> in
  s <| FadeMode := FadeModeDefault |>.

(** [detectBad] is the local flag of [EEReadSettings]; it is returned with
    the state by the helper so that each read reads like the source. *)
Definition EEReadSettings (s : State) : State :=
  let detectBad := 0 in
  let value := EEPROM_read 0 s in
  let '(detectBad, s) :=
    if 8 <? value then (1, s) else (detectBad, s <| MainBright := value |>) in
  let s := if value =? 0 then s <| MainBright := 1 |> else s in
  let value := EEPROM_read 1 s in
  let '(detectBad, s) :=
    if 63 <? value then (1, s) else (detectBad, s <| HourBright := value |>) in
  let value := EEPROM_read 2 s in
  let '(detectBad, s) :=
    if 63 <? value then (1, s) else (detectBad, s <| MinBright := value |>) in
  let value := EEPROM_read 3 s in
  let '(detectBad, s) :=
    if 63 <? value then (1, s) else (detectBad, s <| SecBright := value |>) in
  let value := EEPROM_read 4 s in
  let '(detectBad, s) :=
    if 1 <? value then (1, s) else (detectBad, s <| CCW := value |>) in
  let value := EEPROM_read 5 s in
  let '(detectBad, s) :=
    if value =? 255 then (1, s) else (detectBad, s <| FadeMode := value |>) in
  let s := if truthy detectBad then ApplyDefaults s else s in
  s <| LastSavedBrightness := s MainBright |>.

Definition EEUpdate (loc val : Z) (s : State) : State :=
  let c := EEPROM_read loc s in
  if negb (c =? val) then EEPROM_write loc val s else s.

(** [Blink] switches the multiplexer off, waits, and switches it on again. *)
Definition Blink (s : State) : State :=
  let s := s <| DisplayOn := 0 |> in
  s <| DisplayOn := 1 |>.

Definition EESaveSettings (s : State) : State :=
  let s := EEUpdate 0 (s MainBright) s in
  let s := EEUpdate 1 (s HourBright) s in
  let s := EEUpdate 2 (s MinBright) s in
  let s := EEUpdate 3 (s SecBright) s in
  let s := EEUpdate 4 (s CCW) s in
  let s := EEUpdate 5 (s FadeMode) s in
  let s := s <| LastSavedBrightness := s MainBright |> in
  Blink s.

(** ** Ring positions *)

(** Hours, minutes and seconds as [NormalTimeDisplay] and [NormalFades]
    decode them: [unsigned int t = timeNow], then repeated subtraction of
    products computed in [int]. *)
Definition HrNow_of (s : State) : Z :=
  let t := uint16 (s timeNow) in
  byte (Z.quot t 3600).

Definition MinNow_of (s : State) : Z :=
  let t := uint16 (s timeNow) in
  let HrNow := byte (Z.quot t 3600) in
  let t := uint16 (t - int16 (HrNow * 3600)) in
  byte (Z.quot t 60).

Definition SecNow_of (s : State) : Z :=
  let t := uint16 (s timeNow) in
  let HrNow := byte (Z.quot t 3600) in
  let t := uint16 (t - int16 (HrNow * 3600)) in
  let MinNow := byte (Z.quot t 60) in
  byte (uint16 (t - int16 (MinNow * 60))).

Definition NormalTimeDisplay (s : State) : State :=
  let HrNow := HrNow_of s in
  let MinNow := MinNow_of s in
  let SecNow := SecNow_of s in
  let s := s <| SecDisp := byte (Z.quot SecNow 2 + 15) |> in
  let s := if 29 <? s SecDisp then s <| SecDisp := byte (s SecDisp - 30) |> else s in
  let s := s <| SecNext := byte (s SecDisp + 1) |> in
  let s := if 29 <? s SecNext then s <| SecNext := 0 |> else s in
  let s := s <| MinDisp := byte (Z.quot MinNow 2 + 15) |> in
  let s := if 29 <? s MinDisp then s <| MinDisp := byte (s MinDisp - 30) |> else s in
  let s := s <| MinNext := byte (s MinDisp + 1) |> in
  let s := if 29 <? s MinNext then s <| MinNext := 0 |> else s in
  let s := s <| HrDisp := byte (HrNow + 6) |> in
  let s :=
    if s FadeMode =? 2 then
      if (s SettingTime =? 0) && (30 <? MinNow)
      then s <| HrDisp := byte (s HrDisp + 1) |>
      else s
    else s in
  let s := if 11 <? s HrDisp then s <| HrDisp := byte (s HrDisp - 12) |> else s in
  let s := s <| HrNext := byte (s HrDisp + 1) |> in
  if 11 <? s HrNext then s <| HrNext := 0 |> else s.

Definition IncrAlignVal (s : State) : State :=
  let s := s <| AlignValue := byte (s AlignValue + 1) |> in
  if s AlignMode <? 5 then
    if 29 <? s AlignValue then s <| AlignValue := 0 |> else s
  else
    if 11 <? s AlignValue then s <| AlignValue := 0 |> else s.

Definition DecrAlignVal (s : State) : State :=
  if 0 <? s AlignValue then s <| AlignValue := byte (s AlignValue - 1) |>
  else if s AlignMode <? 5 then s <| AlignValue := 29 |>
  else s <| AlignValue := 11 |>.

Definition AlignDisplay (s : State) : State :=
  let s :=
    if truthy (Z.land (s AlignMode) 1) then
      let AlignRateAbs :=
        if 0 <=? s AlignRate then byte (s AlignRate + 1)
        else byte (- s AlignRate) in
      let s := s <| AlignLoopCount := byte (s AlignLoopCount + 1) |> in
      let ScaleRate :=
        if 2 <? AlignRateAbs then 10
        else if AlignRateAbs =? 2 then 50
        else 250 in
      if ScaleRate <? s AlignLoopCount then
        let s := s <| AlignLoopCount := 0 |> in
        if 0 <=? s AlignRate then IncrAlignVal s else DecrAlignVal s
      else s
    else s in
  let s := s <| SecDisp := byte (s AlignValue + 15) |> in
  let s := if 29 <? s SecDisp then s <| SecDisp := byte (s SecDisp - 30) |> else s in
  let s := s <| MinDisp := s SecDisp |> in
  let s := s <| HrDisp := byte (s AlignValue + 6) |> in
  if 11 <? s HrDisp then s <| HrDisp := byte (s HrDisp - 12) |> else s.

Definition OptionDisplay (s : State) : State :=
  let s :=
    if s StartingOption <? StartOptTimeLimit then
      let s := s <| AlignLoopCount := byte (s AlignLoopCount + 1) |> in
      if 3 <? s AlignLoopCount then
        let s := s <| AlignLoopCount := 0 |> in
        let s := s <| StartingOption := byte (s StartingOption + 1) |> in
        let s :=
          if s OptionMode =? 1 then
            let s := s <| HrDisp := byte (s HrDisp + 1) |> in
            if 11 <? s HrDisp then s <| HrDisp := 0 |> else s
          else s in
        let s :=
          if s OptionMode =? 2 then
            let s := s <| MinDisp := byte (s MinDisp + 1) |> in
            if 29 <? s MinDisp then s <| MinDisp := 0 |> else s
          else s in
        let s :=
          if s OptionMode =? 3 then
            let s := s <| SecDisp := byte (s SecDisp + 1) |> in
            if 29 <? s SecDisp then s <| SecDisp := 0 |> else s
          else s in
        if 3 <? s OptionMode then s <| StartingOption := StartOptTimeLimit |>
        else s
      else s
    else s in
  if StartOptTimeLimit <=? s StartingOption then
    if s OptionMode =? 4 then
      let s := s <| MinDisp := byte (s MinDisp + 1) |> in
      let s := if 29 <? s MinDisp then s <| MinDisp := 0 |> else s in
      s <| SecDisp := s MinDisp |>
    else NormalTimeDisplay s
  else s.

(** ** Fades *)

(** The s-shaped logarithmic curve of the interrupt-driven revision. *)
Definition FadeConv : list Z :=
  [0; 0; 1; 1; 1; 2; 2; 2; 3; 3; 3; 3; 4; 4; 4; 5; 5; 5; 6; 6; 6; 7; 7; 7; 8;
   8; 8; 9; 9; 9; 9; 10; 10; 10; 11; 11; 11; 12; 12; 12; 13; 13; 13; 14; 14;
   14; 14; 15; 15; 15; 16; 16; 16; 17; 17; 17; 18; 18; 18; 19; 19; 19; 20; 20;
   20; 20; 21; 21; 21; 22; 22; 22; 23; 23; 23; 24; 24; 24; 25; 25; 25; 26; 26;
   26; 26; 27; 27; 27; 28; 28; 28; 29; 29; 29; 30; 30; 30; 31; 31; 31; 32; 32;
   32; 32; 33; 33; 33; 34; 34; 34; 35; 35; 35; 36; 36; 36; 37; 37; 37; 37; 38;
   38; 38; 39; 39; 39; 40; 40; 40; 41; 41; 41; 42; 42; 42; 43; 43; 43; 43; 44;
   44; 44; 45; 45; 45; 46; 46; 46; 47; 47; 47; 48; 48; 48; 49; 49; 49; 49; 50;
   50; 50; 51; 51; 51; 52; 52; 52; 53; 53; 53; 54; 54; 54; 54; 55; 55; 55; 56;
   56; 56; 57; 57; 57; 58; 58; 58; 59; 59; 59; 60; 60; 60; 60; 61; 61; 61; 62;
   62; 62; 63; 63].

(** Reading a table at index [i]: the index is logged; a read outside the
    table (undefined in C) yields 0 here. *)
Definition table_read (table : list Z) (i : Z) (s : State) : Z * State :=
  (nth (Z.to_nat i) table 0,
   mkState (vars s) (eeprom s) (eewrites s) (wire s) (i :: lookups s)).

Definition NormalFades (s : State) : State :=
  let HrNow := HrNow_of s in
  let MinNow := MinNow_of s in
  let SecNow := SecNow_of s in
  let msNow := uint32 (s millisNow - s millisThen) in
  let s :=
    if s FadeMode =? 0 then s
    else if (s FadeMode =? 1) || (s FadeMode =? 2) then
      let s :=
        if truthy (Z.land SecNow 1)
        then s <| SecFade2 := byte (Z.quot (uint32 (msNow * 63)) 1000) |>
        else s in
      let s :=
        if truthy (Z.land MinNow 1) then
          if (SecNow =? 59) || truthy (s SettingTime)
          then s <| MinFade2 := s SecFade2 |>
          else s
        else s in
      if ((MinNow =? 59) && (s FadeMode =? 1))
         || ((MinNow =? 30) && (s FadeMode =? 2)) then
        if SecNow =? 59 then s <| HrFade2 := s SecFade2 |> else s
      else s
    else if s FadeMode =? 3 then
      let msNow :=
        if truthy (Z.land SecNow 1) then uint32 (msNow + 1000) else msNow in
      let s := s <| SecFade2 := byte (Z.quot (uint32 (msNow * 63)) 2000) |> in
      let SecNow :=
        if truthy (Z.land MinNow 1) then byte (SecNow + 60) else SecNow in
      let s := s <| MinFade2 := byte (Z.quot (int16 (SecNow * 63)) 120) |> in
      s <| HrFade2 := byte (Z.quot (int16 (MinNow * 63)) 60) |>
    else if s FadeMode =? 4 then
      let msNow :=
        if truthy (Z.land SecNow 1) then uint32 (msNow + 1000) else msNow in
      let '(v, s) := table_read FadeConv (Z.quot msNow 10) s in
      let s := s <| SecFade2 := v |> in
      let SecNow :=
        if truthy (Z.land MinNow 1) then byte (SecNow + 60) else SecNow in
      let '(v, s) := table_read FadeConv (Z.quot (int16 (SecNow * 5)) 3) s in
      let s := s <| MinFade2 := v |> in
      let '(v, s) := table_read FadeConv (Z.quot (int16 (MinNow * 10)) 3) s in
      s <| HrFade2 := v |>
    else s in
  let s := s <| SecFade1 := byte (63 - s SecFade2) |> in
  let s := s <| MinFade1 := byte (63 - s MinFade2) |> in
  s <| HrFade1 := byte (63 - s HrFade2) |>.

(** ** Real-time clock *)

Definition RTCsetTime (timeIn : Z) (s : State) : State :=
  let timeIn := uint32 timeIn in
  let hourIn := byte (Z.quot timeIn 3600) in
  let minuteIn := byte (Z.rem (Z.quot timeIn 60) 60) in
  let secondIn := byte (Z.rem timeIn 60) in
  let s := Wire_write 0 s in
  let ts := byte (Z.quot secondIn 10) in
  let os := byte (Z.rem secondIn 10) in
  let ss := byte (Z.shiftl ts 4 + os) in
  let s := Wire_write ss s in
  let tm := byte (Z.quot minuteIn 10) in
  let om := byte (Z.rem minuteIn 10) in
  let sm := byte (Z.lor (Z.shiftl tm 4) om) in
  let s := Wire_write sm s in
  let th := byte (Z.quot hourIn 10) in
  let oh := byte (Z.rem hourIn 10) in
  let sh := byte (Z.lor (Z.shiftl th 4) oh) in
  Wire_write sh s.

(** Binary-coded decimal to decimal, as [RTCgetTime] does it with the given
    mask for the tens digit. *)
Definition bcd (mask reg : Z) : Z :=
  int16 (int16 (Z.shiftr (Z.land reg mask) 4 * 10) + Z.land reg 15).

(** The 12-hour time in seconds that [RTCgetTime] derives from the three
    registers: the sum is computed in [int] and stored in an
    [unsigned int]. *)
Definition timeRTC_of (seconds minutes hours : Z) : Z :=
  let seconds := bcd 240 seconds in
  let minutes := bcd 240 minutes in
  let hours := bcd 48 hours in
  let timeRTC :=
    uint16 (int16 (int16 (int16 (3600 * hours) + int16 (60 * minutes))
                   + seconds)) in
  if 43200 <? timeRTC then uint16 (timeRTC - 43200) else timeRTC.

(** Arduino's [abs] macro at type [long]. *)
Definition labs (x : Z) : Z := if 0 <? x then x else int32 (- x).

(** [answer] is what the bus delivers: [None] when no device answers,
    otherwise the seconds, minutes and hours registers.  The result is the
    returned [status] and the new state. *)
Definition RTCgetTime (answer : option (Z * Z * Z)) (s : State) : Z * State :=
  let s := Wire_write 0 s in
  let updatetime := 0 in
  match answer with
  | None => (0, s)
  | Some (seconds, minutes, hours) =>
    let status := 1 in
    let timeRTC := timeRTC_of seconds minutes hours in
    let minutes := bcd 240 minutes in
    let updatetime :=
      if truthy minutes then
        if 2 <? labs (int32 (timeRTC - s timeNow)) then 1 else updatetime
      else updatetime in
    let updatetime := if truthy (s UpdateRTC) then 1 else updatetime in
    let s :=
      if truthy updatetime
      then s <| timeNow := timeRTC |> <| UpdateRTC := 0 |>
      else s in
    (status, s)
  end.

(** ** Buttons

    The buttons sit on bits 5 ("+"), 6 ("-") and 7 ("Z") of port D and read
    0 while pressed.  The three blocks of [CheckButtons] that handle a
    release edge are named here after their button. *)

Definition PlusReleased (s : State) : State :=
  if truthy (s MomentaryOverridePlus) then s <| MomentaryOverridePlus := 0 |>
  else if truthy (s SleepMode) then s <| SleepMode := 0 |>
  else if truthy (s AlignMode) then
    if truthy (Z.land (s AlignMode) 1) then
      if s AlignRate <? 2 then s <| AlignRate := char (s AlignRate + 1) |>
      else s
    else IncrAlignVal s
  else if truthy (s OptionMode) then
    let s :=
      if s OptionMode =? 1 then
        if s HourBright <? 62 then s <| HourBright := byte (s HourBright + 2) |>
        else s
      else s in
    let s :=
      if s OptionMode =? 2 then
        if s MinBright <? 62 then s <| MinBright := byte (s MinBright + 2) |>
        else s
      else s in
    let s :=
      if s OptionMode =? 3 then
        if s SecBright <? 62 then s <| SecBright := byte (s SecBright + 2) |>
        else s
      else s in
    let s := if s OptionMode =? 4 then s <| CCW := 0 |> else s in
    if s OptionMode =? 5 then
      if s FadeMode <? FadeModes then s <| FadeMode := byte (s FadeMode + 1) |>
      else s
    else s
  else if truthy (s SettingTime) then
    let s :=
      if s SettingTime =? 1 then s <| timeNow := int32 (s timeNow + 3600) |>
      else s in
    let s :=
      if s SettingTime =? 2 then s <| timeNow := int32 (s timeNow + 60) |>
      else s in
    let s :=
      if 2 <? s SettingTime
      then s <| timeNow := int32 (s timeNow + 1) |> <| SettingTime := 3 |>
      else s in
    if 43200 <? s timeNow then s <| timeNow := int32 (s timeNow - 43200) |>
    else s
  else
    let s := s <| MainBright := byte (s MainBright + 1) |> in
    if 8 <? s MainBright then s <| MainBright := 8 |> else s.

Definition MinusReleased (s : State) : State :=
  let s := s <| VCRmode := 0 |> in
  let s := s <| TimeSinceButton := 0 |> in
  if truthy (s MomentaryOverrideMinus) then s <| MomentaryOverrideMinus := 0 |>
  else if truthy (s SleepMode) then s <| SleepMode := 0 |>
  else if truthy (s AlignMode) then
    if truthy (Z.land (s AlignMode) 1) then
      if -3 <? s AlignRate then s <| AlignRate := char (s AlignRate - 1) |>
      else s
    else DecrAlignVal s
  else if truthy (s OptionMode) then
    let s :=
      if s OptionMode =? 1 then
        if 1 <? s HourBright then s <| HourBright := byte (s HourBright - 2) |>
        else s
      else s in
    let s :=
      if s OptionMode =? 2 then
        if 1 <? s MinBright then s <| MinBright := byte (s MinBright - 2) |>
        else s
      else s in
    let s :=
      if s OptionMode =? 3 then
        if 1 <? s SecBright then s <| SecBright := byte (s SecBright - 2) |>
        else s
      else s in
    let s := if s OptionMode =? 4 then s <| CCW := 1 |> else s in
    if s OptionMode =? 5 then
      if 0 <? s FadeMode then s <| FadeMode := byte (s FadeMode - 1) |>
      else s
    else s
  else if truthy (s SettingTime) then
    let s :=
      if s SettingTime =? 1 then s <| timeNow := int32 (s timeNow - 3600) |>
      else s in
    let s :=
      if s SettingTime =? 2 then s <| timeNow := int32 (s timeNow - 60) |>
      else s in
    let s :=
      if 2 <? s SettingTime
      then s <| timeNow := int32 (s timeNow - 1) |> <| SettingTime := 4 |>
      else s in
    if s timeNow <? 0 then s <| timeNow := int32 (s timeNow + 43200) |>
    else s
  else
    if 1 <? s MainBright then s <| MainBright := byte (s MainBright - 1) |>
    else s <| MainBright := 1 |>.

Definition ZReleased (s : State) : State :=
  let s := s <| VCRmode := 0 |> in
  let s := s <| TimeSinceButton := 0 |> in
  if truthy (s MomentaryOverrideZ) then s <| MomentaryOverrideZ := 0 |>
  else if truthy (s AlignMode) then
    let s := s <| AlignMode := byte (s AlignMode + 1) |> in
    let s := if 6 <? s AlignMode then s <| AlignMode := 1 |> else s in
    let s := s <| AlignValue := 0 |> in
    s <| AlignRate := 2 |>
  else if truthy (s OptionMode) then
    let s := s <| OptionMode := byte (s OptionMode + 1) |> in
    let s := s <| StartingOption := 0 |> in
    let s :=
      if 3 <? s OptionMode then s <| StartingOption := StartOptTimeLimit |>
      else s in
    if 5 <? s OptionMode then s <| OptionMode := 1 |> else s
  else if truthy (s SettingTime) then
    let s := s <| SettingTime := byte (s SettingTime + 1) |> in
    if 3 <? s SettingTime then s <| SettingTime := 1 |> else s
  else
    if s SleepMode =? 0 then s <| SleepMode := 1 |>
    else s <| SleepMode := 0 |>.

(** A button whose bit is [bit] was down at the last sample and is up now. *)
Definition released (bit PINDcopy : Z) (s : State) : bool :=
  truthy (Z.land PINDcopy bit) && (Z.land (s PINDLast) bit =? 0).

(** [PIND] is the value read from the port. *)
Definition CheckButtons (PIND : Z) (s : State) : State :=
  let PINDcopy := byte (Z.land PIND buttonmask) in
  let s :=
    if negb (PINDcopy =? s PINDLast) then
      let s := s <| VCRmode := 0 |> in
      let s := s <| TimeSinceButton := 0 |> in
      let s := if released 32 PINDcopy s then PlusReleased s else s in
      let s := if released 64 PINDcopy s then MinusReleased s else s in
      if released 128 PINDcopy s then ZReleased s else s
    else s in
  s <| PINDLast := PINDcopy |>.

(** ** Hold detection, once per second

    [CheckHeld] reads the port up to four times; [PIND0] .. [PIND3] are the
    values of those reads in order. *)

Definition CheckHeld (PIND0 PIND1 PIND2 PIND3 : Z) (s : State) : State :=
  let s :=
    if Z.land PIND0 buttonmask =? buttonmask then
      let s := s <| HoldTimeSet := 0 |> in
      let s := s <| HoldOption := 0 |> in
      let s := s <| HoldAlign := 0 |> in
      let s := s <| FactoryResetDisable := 1 |> in
      let s :=
        if s TimeSinceButton <? 250
        then s <| TimeSinceButton := byte (s TimeSinceButton + 1) |>
        else s in
      if s TimeSinceButton =? 10 then
        if negb (s LastSavedBrightness =? s MainBright) then EESaveSettings s
        else s
      else s
    else
      let s :=
        if Z.land PIND1 buttonmask =? 128 then
          let s := s <| HoldAlign := byte (s HoldAlign + 1) |> in
          let s := s <| HoldOption := 0 |> in
          s <| HoldTimeSet := 0 |>
        else s in
      let s :=
        if Z.land PIND2 buttonmask =? 64 then
          let s := s <| HoldOption := byte (s HoldOption + 1) |> in
          let s := s <| HoldTimeSet := 0 |> in
          s <| HoldAlign := 0 |>
        else s in
      if Z.land PIND3 buttonmask =? 96 then
        let s := s <| HoldTimeSet := byte (s HoldTimeSet + 1) |> in
        let s := s <| HoldOption := 0 |> in
        s <| HoldAlign := 0 |>
      else s in
  let s :=
    if s HoldAlign =? 3 then
      let s := s <| MomentaryOverridePlus := 1 |> in
      let s := s <| MomentaryOverrideMinus := 1 |> in
      let s := s <| OptionMode := 0 |> in
      let s := s <| SettingTime := 0 |> in
      if s FactoryResetDisable =? 0 then
        let s := ApplyDefaults s in
        EESaveSettings s
      else
        if truthy (s AlignMode) then s <| AlignMode := 0 |>
        else
          let s := s <| AlignMode := 1 |> in
          let s := s <| AlignValue := 0 |> in
          s <| AlignRate := 2 |>
    else s in
  let s :=
    if s HoldOption =? 3 then
      let s := s <| MomentaryOverridePlus := 1 |> in
      let s := s <| MomentaryOverrideZ := 1 |> in
      let s := s <| AlignMode := 0 |> in
      let s := s <| SettingTime := 0 |> in
      if truthy (s OptionMode) then
        let s := s <| OptionMode := 0 |> in
        EESaveSettings s
      else
        let s := s <| OptionMode := 1 |> in
        s <| StartingOption := 0 |>
    else s in
  if s HoldTimeSet =? 3 then
    let s := s <| MomentaryOverrideZ := 1 |> in
    let s :=
      if truthy (int16 (s AlignMode + s OptionMode + s SettingTime)) then
        let s :=
          if truthy (s SettingTime) && truthy (s ExtRTC) then
            let s := RTCsetTime (s timeNow) s in
            Blink s
          else s in
        let s := if truthy (s OptionMode) then EESaveSettings s else s in
        s <| SettingTime := 0 |>
      else s <| SettingTime := 1 |> in
    let s := s <| AlignMode := 0 |> in
    s <| OptionMode := 0 |>
  else s.

(** ** The main loop *)

(** The clock ticks (the body of [if (SettingTime < 4)] in [loop]).  The
    result also says whether the branch was taken, in which case [loop]
    sets its local [RefreshTime]. *)
Definition tick (s : State) : bool * State :=
  if s SettingTime <? 4 then
    let s := s <| timeNow := int32 (s timeNow + 1) |> in
    let s :=
      if 43200 <? s timeNow then s <| timeNow := int32 (s timeNow - 43200) |>
      else s in
    (true, s)
  else (false, s).

(** One dwell value of the interrupt-driven revision.  The source reads
    [HourBright*HrFade1*tempbright >> 7 + 1]; in C the sum binds tighter
    than the shift. *)
Definition dwell (bright fade tempbright : Z) : Z :=
  byte (Z.shiftr (int16 (int16 (bright * fade) * tempbright)) (7 + 1)).

(** The fade weights that [loop] sets up before computing the dwells. *)
Definition loop_fades (s : State) : State :=
  let s := s <| SecFade1 := 63 |> in
  let s := s <| SecFade2 := 0 |> in
  let s := s <| MinFade1 := 63 |> in
  let s := s <| MinFade2 := 0 |> in
  let s := s <| HrFade1 := 63 |> in
  let s := s <| HrFade2 := 0 |> in
  if truthy (s SettingTime) then
    let s := s <| HrFade1 := 5 |> in
    let s := s <| MinFade1 := 5 |> in
    let s := s <| SecFade1 := 5 |> in
    let s := if s SettingTime =? 1 then s <| HrFade1 := fadeMax |> else s in
    let s :=
      if s SettingTime =? 2 then
        let s := s <| MinFade1 := fadeMax |> in
        if truthy (Z.land (Z.quot (s timeNow) 60) 1)
        then s <| MinFade2 := fadeMax |>
        else s
      else s in
    if 2 <? s SettingTime then
      let s := s <| SecFade1 := fadeMax |> in
      if truthy (Z.land (s timeNow) 1) then s <| SecFade2 := fadeMax |> else s
    else s
  else if truthy (int16 (s AlignMode + s OptionMode)) then
    let s := s <| HrFade1 := 0 |> in
    let s := s <| MinFade1 := 0 |> in
    let s := s <| SecFade1 := 0 |> in
    if truthy (s AlignMode) then
      if s AlignMode <? 3 then s <| SecFade1 := fadeMax |>
      else if 4 <? s AlignMode then s <| HrFade1 := fadeMax |>
      else s <| MinFade1 := fadeMax |>
    else
      if s StartingOption <? StartOptTimeLimit then
        let s := if s OptionMode =? 1 then s <| HrFade1 := fadeMax |> else s in
        let s := if s OptionMode =? 2 then s <| MinFade1 := fadeMax |> else s in
        let s := if s OptionMode =? 3 then s <| SecFade1 := fadeMax |> else s in
        if s OptionMode =? 4 then
          let s := s <| SecFade1 := fadeMax |> in
          s <| MinFade1 := fadeMax |>
        else s
      else
        let s := s <| HrFade1 := fadeMax |> in
        let s := s <| MinFade1 := fadeMax |> in
        let s := s <| SecFade1 := fadeMax |> in
        if s OptionMode =? 4 then s <| HrFade1 := 0 |>
        else NormalFades s
  else NormalFades s.

(** The effective global brightness [tempbright] of [loop]. *)
Definition tempbright_of (s : State) : Z :=
  let tempbright := s MainBright in
  let tempbright := if truthy (s SleepMode) then 0 else tempbright in
  if truthy (s VCRmode) then
    if truthy (Z.land (s timeNow) 1) then 0 else tempbright
  else tempbright.

Definition loop_dwells (s : State) : State :=
  let tempbright := tempbright_of s in
  let s := s <| D0 := dwell (s HourBright) (s HrFade1) tempbright |> in
  let s := s <| D1 := dwell (s HourBright) (s HrFade2) tempbright |> in
  let s := s <| D2 := dwell (s MinBright) (s MinFade1) tempbright |> in
  let s := s <| D3 := dwell (s MinBright) (s MinFade2) tempbright |> in
  let s := s <| D4 := dwell (s SecBright) (s SecFade1) tempbright |> in
  s <| D5 := dwell (s SecBright) (s SecFade2) tempbright |>.

(** ** Serial time sync *)

Definition TIME_MSG_LEN : Z := 11.
Definition TIME_HEADER : Z := 255.

(** [Serial.read] on the receive buffer: the first byte, or -1 when the
    buffer is empty. *)
Definition Serial_read (buf : list Z) : Z * list Z :=
  match buf with
  | [] => (-1, [])
  | b :: rest => (byte b, rest)
  end.

(** The [for] loop of [getPCtime] with [n] characters to go: digits are
    accumulated in [time_t] (32 bits, unsigned), other characters are
    passed over. *)
Fixpoint read_digits (n : nat) (pctime : Z) (buf : list Z) : Z * list Z :=
  match n with
  | O => (pctime, buf)
  | S k =>
      let '(b, buf) := Serial_read buf in
      let c := char b in
      let pctime :=
        if (48 <=? c) && (c <=? 57) then uint32 (10 * pctime + (c - 48))
        else pctime in
      read_digits k pctime buf
  end.

(** [getPCtime] on the receive buffer: the time handed to [setTime] when a
    message was found ([true] is returned), and the buffer that is left. *)
Fixpoint getPCtime (buf : list Z) : option Z * list Z :=
  match buf with
  | [] => (None, buf)
  | b :: rest =>
      if TIME_MSG_LEN <=? Z.of_nat (length buf) then
        if byte b =? TIME_HEADER then
          let '(pctime, rest) := read_digits 10 0 rest in
          (Some pctime, rest)
        else getPCtime rest
      else (None, buf)
  end.

(** *** The Time library

    [getPCtime] hands the time it has read to [setTime] of the Time library,
    which is not part of the sketch.  Until a second has gone by, the
    library's [now()] is then this time [t], its [timeStatus()] is
    [timeSet], and [hour()], [minute()] and [second()] are the fields of
    [t] (a count of seconds, 24-hour days), each returned as an [int]. *)

Definition hour (t : Z) : Z := (t / 3600) mod 24.
Definition minute (t : Z) : Z := (t / 60) mod 60.
Definition second (t : Z) : Z := t mod 60.

(** The serial time sync that ends an iteration of [loop]; [Serial] is the
    receive buffer as [getPCtime] finds it.  The sum
    [hour()*3600 + minute()*60 + second()] is computed in [int] and then
    stored in the [long] [timeNow]. *)
Definition loop_sync (Serial : list Z) (s : State) : State :=
  match fst (getPCtime Serial) with
  | Some now =>
      let s :=
        s <| timeNow := int16 (int16 (int16 (hour now * 3600)
                                      + int16 (minute now * 60))
                               + second now) |> in
      let s :=
        if 43200 <? s timeNow then s <| timeNow := int32 (s timeNow - 43200) |>
        else s in
      if negb (s prevtime =? now) then
        let s := if truthy (s ExtRTC) then RTCsetTime (s timeNow) s else s in
        s <| prevtime := now |>
      else s
  | None => s
  end.

(** What one iteration of [loop] reads from outside: the millisecond
    counter, the port as [CheckButtons] samples it, the port as [CheckHeld]
    reads it (used only when a second has gone by), and the serial receive
    buffer as [getPCtime] finds it. *)
Record Input : Type := mkInput {
  in_millis : Z;
  in_PIND : Z;
  in_held : Z * Z * Z * Z;
  in_serial : list Z
}.

(** The part of [loop] that runs once a second has gone by. *)
Definition loop_second (i : Input) (RefreshTime : Z) (s : State) : Z * State :=
  if 1000 <=? uint32 (s millisNow - s millisThen) then
    let s := s <| millisThen := uint32 (s millisThen + 1000) |> in
    let '(p0, p1, p2, p3) := in_held i in
    let s := CheckHeld p0 p1 p2 p3 s in
    let '(ticked, s) := tick s in
    (if ticked then 1 else RefreshTime, s)
  else (RefreshTime, s).

Definition loop_refresh (RefreshTime : Z) (s : State) : State :=
  if truthy RefreshTime then
    if truthy (s AlignMode) then AlignDisplay s
    else if truthy (s OptionMode) then OptionDisplay s
    else NormalTimeDisplay s
  else s.

Definition loop (i : Input) (s : State) : State :=
  let RefreshTime := byte (s AlignMode + s SettingTime + s OptionMode) in
  let s := s <| millisNow := uint32 (in_millis i) |> in
  let s := CheckButtons (in_PIND i) s in
  let '(RefreshTime, s) := loop_second i RefreshTime s in
  let s := loop_refresh RefreshTime s in
  let s := loop_fades s in
  let s := loop_dwells s in
  loop_sync (in_serial i) s.

(** ** Power-on *)

(** The globals as the C runtime leaves them, over a given EEPROM. *)
Definition power_on (cells : Z -> Z) : State :=
  mkState (fun x => match x with DisplayOn => 1 | _ => 0 end) cells [] [] [].

(** [setup], given the millisecond counter, the port and the answer of the
    real-time clock. *)
Definition setup (millis PIND : Z) (answer : option (Z * Z * Z))
    (s : State) : State :=
  let s := s <| timeNow := 0 |> in
  let s := s <| millisNow := uint32 millis |> in
  let s := s <| SecDisp := 0 |> in
  let s := s <| MinDisp := 0 |> in
  let s := EEReadSettings s in
  let s := s <| VCRmode := 1 |> in
  let s := s <| FactoryResetDisable := 0 |> in
  let s := s <| TimeSinceButton := 0 |> in
  let s := s <| PINDLast := byte (Z.land PIND buttonmask) |> in
  let s := s <| HoldTimeSet := 0 |> in
  let s := s <| HoldOption := 0 |> in
  let s := s <| HoldAlign := 0 |> in
  let s := s <| MomentaryOverridePlus := 0 |> in
  let s := s <| MomentaryOverrideMinus := 0 |> in
  let s := s <| MomentaryOverrideZ := 0 |> in
  let s := s <| SleepMode := 0 |> in
  let s := s <| SettingTime := 0 |> in
  let s := s <| AlignMode := 0 |> in
  let s := s <| OptionMode := 0 |> in
  let s := s <| AlignValue := 0 |> in
  let s := s <| AlignRate := 2 |> in
  let s := s <| AlignLoopCount := 0 |> in
  let s := s <| StartingOption := 0 |> in
  let s := s <| ExtRTC := 0 |> in
  let s := s <| UpdateRTC := 1 |> in
  let '(status, s) := RTCgetTime answer s in
  let s := s <| ExtRTC := status |> in
  if truthy (s ExtRTC) then s <| VCRmode := 0 |> else s.

(** The states the clock can be in: after [setup] from any EEPROM content,
    and after any number of [loop] iterations on any inputs. *)
Inductive reachable : State -> Prop :=
  | reachable_setup cells millis PIND answer :
      reachable (setup millis PIND answer (power_on cells))
  | reachable_loop i s : reachable s -> reachable (loop i s).

(** Running [loop] over a list of inputs. *)
Fixpoint run (inputs : list Input) (s : State) : State :=
  match inputs with
  | [] => s
  | i :: rest => run rest (loop i s)
  end.

(** ** The busy-loop revision

    The older revision keeps the same globals.  Its [NormalTimeDisplay] and
    [NormalFades] decode [timeNow] with [long] division, it has its own
    [FadeConv] table (gamma 1.3), and its dwell values [d0] .. [d5] are
    shifted by 7. *)

Module BusyLoop.

Definition tempfade : Z := 63.

Definition FadeConv : list Z :=
  [0; 0; 0; 0; 0; 1; 1; 1; 1; 1; 1; 1; 2; 2; 2; 2; 2; 3; 3; 3; 3; 3; 4; 4; 4;
   4; 4; 5; 5; 5; 5; 6; 6; 6; 6; 7; 7; 7; 7; 8; 8; 8; 8; 9; 9; 9; 9; 10; 10;
   10; 10; 11; 11; 11; 11; 12; 12; 12; 13; 13; 13; 13; 14; 14; 14; 15; 15; 15;
   15; 16; 16; 16; 17; 17; 17; 18; 18; 18; 19; 19; 19; 19; 20; 20; 20; 21; 21;
   21; 22; 22; 22; 23; 23; 23; 24; 24; 24; 25; 25; 25; 26; 26; 26; 27; 27; 27;
   28; 28; 28; 29; 29; 29; 30; 30; 30; 31; 31; 31; 32; 32; 32; 33; 33; 33; 34;
   34; 35; 35; 35; 36; 36; 36; 37; 37; 37; 38; 38; 39; 39; 39; 40; 40; 40; 41;
   41; 41; 42; 42; 43; 43; 43; 44; 44; 44; 45; 45; 46; 46; 46; 47; 47; 48; 48;
   48; 49; 49; 49; 50; 50; 51; 51; 51; 52; 52; 53; 53; 53; 54; 54; 55; 55; 55;
   56; 56; 57; 57; 57; 58; 58; 59; 59; 59; 60; 60; 61; 61; 61; 62; 62; 63;
   63].

Definition HrNow_of (s : State) : Z := byte (Z.quot (s timeNow) 3600).
Definition MinNow_of (s : State) : Z :=
  byte (Z.rem (Z.quot (s timeNow) 60) 60).
Definition SecNow_of (s : State) : Z := byte (Z.rem (s timeNow) 60).

Definition NormalTimeDisplay (s : State) : State :=
  let HrNow := HrNow_of s in
  let MinNow := MinNow_of s in
  let SecNow := SecNow_of s in
  let s := s <| SecDisp := byte (SecNow + 30) |> in
  let s := if 59 <? s SecDisp then s <| SecDisp := byte (s SecDisp - 60) |> else s in
  let s := s <| SecDisp := byte (Z.shiftr (s SecDisp) 1) |> in
  let s := s <| SecNext := byte (s SecDisp + 1) |> in
  let s := if 29 <? s SecNext then s <| SecNext := 0 |> else s in
  let s := s <| MinDisp := byte (MinNow + 30) |> in
  let s := if 59 <? s MinDisp then s <| MinDisp := byte (s MinDisp - 60) |> else s in
  let s := s <| MinDisp := byte (Z.shiftr (s MinDisp) 1) |> in
  let s := s <| MinNext := byte (s MinDisp + 1) |> in
  let s := if 29 <? s MinNext then s <| MinNext := byte (s MinNext - 30) |> else s in
  let s := s <| HrDisp := byte (HrNow + 6) |> in
  let s :=
    if s FadeMode =? 2 then
      if (s SettingTime =? 0) && (30 <? MinNow)
      then s <| HrDisp := byte (s HrDisp + 1) |>
      else s
    else s in
  let s := if 11 <? s HrDisp then s <| HrDisp := byte (s HrDisp - 12) |> else s in
  let s := s <| HrNext := byte (s HrDisp + 1) |> in
  if 11 <? s HrNext then s <| HrNext := 0 |> else s.

Definition NormalFades (s : State) : State :=
  let msNow := uint32 (s millisNow - s millisThen) in
  let HrNow := HrNow_of s in
  let MinNow := MinNow_of s in
  let SecNow := SecNow_of s in
  if s FadeMode =? 0 then
    let s := s <| HrFade1 := tempfade |> in
    let s := s <| MinFade1 := tempfade |> in
    s <| SecFade1 := tempfade |>
  else if (s FadeMode =? 1) || (s FadeMode =? 2) then
    let s :=
      if truthy (Z.land SecNow 1) then
        let s := s <| SecFade2 := byte (Z.quot (uint32 (63 * msNow)) 1000) |> in
        s <| SecFade1 := byte (63 - s SecFade2) |>
      else s in
    let s :=
      if truthy (Z.land MinNow 1) then
        if (SecNow =? 59) || truthy (s SettingTime) then
          let s := s <| MinFade2 := s SecFade2 |> in
          s <| MinFade1 := s SecFade1 |>
        else s
      else s in
    if ((s FadeMode =? 1) && (MinNow =? 59))
       || ((s FadeMode =? 2) && (MinNow =? 30)) then
      if SecNow =? 59 then
        let s := s <| HrFade2 := s SecFade2 |> in
        s <| HrFade1 := s SecFade1 |>
      else s
    else s
  else if s FadeMode =? 3 then
    let msNow :=
      if truthy (Z.land SecNow 1) then uint32 (msNow + 1000) else msNow in
    let s := s <| SecFade2 := byte (Z.quot (uint32 (msNow * 63)) 2000) |> in
    let s := s <| SecFade1 := byte (63 - s SecFade2) |> in
    let SecNow :=
      if truthy (Z.land MinNow 1) then byte (SecNow + 60) else SecNow in
    let s := s <| MinFade2 := byte (Z.quot (int16 (SecNow * 63)) 120) |> in
    let s := s <| MinFade1 := byte (63 - s MinFade2) |> in
    let s := s <| HrFade2 := byte (Z.quot (int16 (MinNow * 63)) 60) |> in
    s <| HrFade1 := byte (63 - s HrFade2) |>
  else if s FadeMode =? 4 then
    let msNow :=
      if truthy (Z.land SecNow 1) then uint32 (msNow + 1000) else msNow in
    let '(v, s) := table_read FadeConv (Z.quot msNow 10) s in
    let s := s <| SecFade2 := v |> in
    let s := s <| SecFade1 := byte (63 - s SecFade2) |> in
    let SecNow :=
      if truthy (Z.land MinNow 1) then byte (SecNow + 60) else SecNow in
    let '(v, s) := table_read FadeConv (Z.quot (int16 (SecNow * 5)) 3) s in
    let s := s <| MinFade2 := v |> in
    let s := s <| MinFade1 := byte (63 - s MinFade2) |> in
    let '(v, s) := table_read FadeConv (Z.quot (int16 (MinNow * 10)) 3) s in
    let s := s <| HrFade2 := v |> in
    s <| HrFade1 := byte (63 - s HrFade2) |>
  else s.

(** One dwell value ([d0] .. [d5]) of this revision. *)
Definition dwell (bright fade tempbright : Z) : Z :=
  byte (Z.shiftr (int16 (int16 (bright * fade) * tempbright)) 7).

(** The six dwell values, in the order [d0] .. [d5]. *)
Definition loop_dwells (s : State) : list Z :=
  let tempbright := tempbright_of s in
  [dwell (s HourBright) (s HrFade1) tempbright;
   dwell (s HourBright) (s HrFade2) tempbright;
   dwell (s MinBright) (s MinFade1) tempbright;
   dwell (s MinBright) (s MinFade2) tempbright;
   dwell (s SecBright) (s SecFade1) tempbright;
   dwell (s SecBright) (s SecFade2) tempbright].

End BusyLoop.

(** The six ring positions that [NormalTimeDisplay] leaves in the globals. *)
Definition positions (s : State) : Z * Z * Z * Z * Z * Z :=
  (s HrDisp, s HrNext, s MinDisp, s MinNext, s SecDisp, s SecNext).

(** ** Vocabulary of the properties *)

(** Sets of variables, for the frame conditions: [mem y l] tells whether
    [y] occurs in [l]. *)
Fixpoint mem (y : Var) (l : list Var) : bool :=
  match l with
  | [] => false
  | x :: r => Var_beq x y || mem y r
  end.

(** What the display side of [loop] may write. *)
Definition display_vars : list Var :=
  [HrDisp; MinDisp; SecDisp; SecNext; MinNext; HrNext;
   HrFade1; HrFade2; MinFade1; MinFade2; SecFade1; SecFade2;
   D0; D1; D2; D3; D4; D5; AlignValue; AlignLoopCount; StartingOption].

(** The six persisted settings. *)
Definition settings_vars : list Var :=
  [MainBright; HourBright; MinBright; SecBright; CCW; FadeMode].

(** What [CheckHeld] may write. *)
Definition held_vars : list Var :=
  [HoldTimeSet; HoldOption; HoldAlign; FactoryResetDisable; TimeSinceButton;
   MomentaryOverridePlus; MomentaryOverrideMinus; MomentaryOverrideZ;
   SettingTime; AlignMode; OptionMode; AlignValue; AlignRate; StartingOption;
   MainBright; HourBright; MinBright; SecBright; CCW; FadeMode;
   LastSavedBrightness; DisplayOn].

(** What [CheckButtons] may write. *)
Definition button_vars : list Var :=
  [VCRmode; TimeSinceButton; PINDLast;
   MomentaryOverridePlus; MomentaryOverrideMinus; MomentaryOverrideZ;
   SleepMode; timeNow; SettingTime; AlignMode; OptionMode;
   AlignValue; AlignRate; StartingOption;
   MainBright; HourBright; MinBright; SecBright; CCW; FadeMode].

(** [keeps y r s]: variable [y] holds [r] in [s]. *)
Definition keeps (y : Var) (r : Z) (s : State) : Prop := s y = r.

(** At most one of alignment, option and time-setting mode is active. *)
Definition modes_exclusive (s : State) : Prop :=
  (s AlignMode = 0 /\ s OptionMode = 0) \/
  (s AlignMode = 0 /\ s SettingTime = 0) \/
  (s OptionMode = 0 /\ s SettingTime = 0).

(** The invariant of the control state. *)
Definition Inv (s : State) : Prop :=
  -32768 <= s timeNow <= 43200 /\
  0 <= s SettingTime <= 4 /\ 0 <= s AlignMode <= 6 /\ 0 <= s OptionMode <= 5 /\
  modes_exclusive s.

Definition inv_vars : list Var := [timeNow; SettingTime; AlignMode; OptionMode].

(** An index lies inside a table. *)
Definition in_table (table : list Z) (i : Z) : Prop :=
  0 <= i < Z.of_nat (length table).

(** The elapsed milliseconds [msNow] that [NormalFades] computes. *)
Definition msNow_of (s : State) : Z := uint32 (s millisNow - s millisThen).

(** The six settings in a state, in the order of their EEPROM cells. *)
Definition settings (s : State) : list Z :=
  [s MainBright; s HourBright; s MinBright; s SecBright; s CCW; s FadeMode].

(** The six stored bytes. *)
Definition stored (s : State) : list Z :=
  [EEPROM_read 0 s; EEPROM_read 1 s; EEPROM_read 2 s; EEPROM_read 3 s;
   EEPROM_read 4 s; EEPROM_read 5 s].

Definition factory_defaults : list Z :=
  [MainBrightDefault; RedBrightDefault; GreenBrightDefault; BlueBrightDefault;
   CCWDefault; FadeModeDefault].

(** The valid ranges of the six settings as the specification lists them. *)
Definition in_valid_range (l : list Z) : Prop :=
  match l with
  | [mb; hb; nb; sb; ccw; fm] =>
      1 <= mb <= 8 /\ 0 <= hb <= 63 /\ 0 <= nb <= 63 /\ 0 <= sb <= 63 /\
      0 <= ccw <= 1 /\ 0 <= fm <= 4
  | _ => False
  end.

(** The test that [EEReadSettings] applies to the stored bytes: it sets
    [detectBad] exactly when this holds. *)
Definition rejected (l : list Z) : Prop :=
  match l with
  | [mb; hb; nb; sb; ccw; fm] =>
      8 < mb \/ 63 < hb \/ 63 < nb \/ 63 < sb \/ 1 < ccw \/ fm = 255
  | _ => True
  end.

(** The load contract as the specification words it: whenever a stored
    field is outside its valid range, every setting is replaced by its
    factory default. *)
Definition load_contract (s : State) : Prop :=
  ~ in_valid_range (stored s) -> settings (EEReadSettings s) = factory_defaults.

(** Saving right after loading issues no write. *)
Definition save_after_load_silent (s : State) : Prop :=
  eewrites (EESaveSettings (EEReadSettings s)) = eewrites s.

(** A cell content: the six given bytes at addresses 0 to 5, erased cells
    (255) elsewhere. *)
Definition cells_of (l : list Z) (a : Z) : Z :=
  if (0 <=? a) && (a <? 6) then nth (Z.to_nat a) l 255 else 255.

(** ** Hold scenarios *)

(** The iteration of [loop] in which a second goes by while the port
    reads [PIND] steadily. *)
Definition second_with (PIND : Z) (s : State) : Input :=
  mkInput (s millisThen + 1000) PIND (PIND, PIND, PIND, PIND) [].

(** A hold transition fired in the [CheckHeld] call that led to [s]: one of
    the three counters stands at 3.  (The three blocks of [CheckHeld] that
    fire are guarded by exactly these tests and do not write the
    counters.) *)
Definition fired (s : State) : bool :=
  (s HoldAlign =? 3) || (s HoldOption =? 3) || (s HoldTimeSet =? 3).

(** [n] consecutive seconds with the port at [PIND]: the number of seconds
    in which a hold transition fired, and the final state. *)
Fixpoint hold (PIND : Z) (n : nat) (s : State) : nat * State :=
  match n with
  | O => (O, s)
  | S k =>
      let s := loop (second_with PIND s) s in
      let '(c, s') := hold PIND k s in
      ((if fired s then S c else c), s')
  end.

(** An erased EEPROM. *)
Definition erased : Z -> Z := fun _ => 255.

(** The state one idle second after power-on with an erased EEPROM and no
    real-time clock. *)
Definition idle_state : State :=
  let s := setup 0 224 None (power_on erased) in
  loop (second_with 224 s) s.

(** Power-on with the real-time clock at 11:59:59 (registers in BCD). *)
Definition before_noon : State :=
  setup 0 224 (Some (89, 89, 17)) (power_on erased).

(** Ten milliseconds after power-on, no button touched: the first pass
    through [loop]. *)
Definition first_pass : State :=
  loop (mkInput 10 224 (224, 224, 224, 224) []) (setup 0 224 None (power_on erased)).

(** A short press of "Z" puts the clock to sleep; "Z" is then held for
    three seconds and released. *)
Definition sleep_then_hold_Z : list Input :=
  [mkInput 10 96 (96, 96, 96, 96) [];
   mkInput 20 224 (224, 224, 224, 224) [];
   mkInput 30 96 (96, 96, 96, 96) [];
   mkInput 1000 96 (96, 96, 96, 96) [];
   mkInput 2000 96 (96, 96, 96, 96) [];
   mkInput 3000 96 (96, 96, 96, 96) [];
   mkInput 3010 224 (224, 224, 224, 224) []].

Definition asleep_setting : State :=
  run sleep_then_hold_Z (setup 0 224 None (power_on erased)).

(** The mode invariant as the specification states it: at most one of the
    three modes is active, and sleep excludes all three. *)
Definition modes_contract (s : State) : Prop :=
  modes_exclusive s /\
  (s SleepMode <> 0 ->
   s AlignMode = 0 /\ s OptionMode = 0 /\ s SettingTime = 0).

(** A state is a function of the variables it reads, for a property that
    reads only the variables of [l]. *)
Definition reads_only (l : list Var) (P : State -> Prop) : Prop :=
  forall s s' : State,
    (forall y, mem y l = true -> s' y = s y) -> P s -> P s'.

(** Relative to an earlier state [s0]: the clock is asleep only if no mode
    was active in [s0], and every mode active in [s0] is still active. *)
Definition sleep_trace (s0 s : State) : Prop :=
  (s SleepMode <> 0 ->
   s0 AlignMode = 0 /\ s0 OptionMode = 0 /\ s0 SettingTime = 0) /\
  (s0 AlignMode <> 0 -> s AlignMode <> 0) /\
  (s0 OptionMode <> 0 -> s OptionMode <> 0) /\
  (s0 SettingTime <> 0 -> s SettingTime <> 0).

Definition mode_vars : list Var :=
  [SleepMode; SettingTime; AlignMode; OptionMode].

(** Relative to an earlier state [s0]: the clock is awake, and the last
    sample of the port is the one of [s0]. *)
Definition awake_since (s0 s : State) : Prop :=
  s SleepMode = 0 /\ s PINDLast = s0 PINDLast.

(** ** Further scenarios *)

(** Power-on with an erased EEPROM and no real-time clock. *)
Definition cold_start : State := setup 0 224 None (power_on erased).

(** [n] ticks of the clock in a row. *)
Fixpoint ticks (n : nat) (s : State) : State :=
  match n with
  | O => s
  | S k => ticks k (snd (tick s))
  end.

(** Continuous-logarithmic fading, 999 ms into the odd second 11:59:59. *)
Definition late_fade : State :=
  idle_state <| FadeMode := 4 |> <| millisNow := 1999 |> <| timeNow := 43199 |>.



(** The log of lookups is [L]. *)
Definition lookups_are (L : list Z) (s : State) : Prop := lookups s = L.





(** The dwell formula as the specification gives it. *)
Definition spec_dwell (bright fade tempbright : Z) : Z :=
  bright * fade * tempbright / 128.

(** What a hold scenario leaves behind: the number of transitions fired,
    the counter of the "+" and "-" combination, and the alignment mode. *)
Definition hold_report (r : nat * State) : nat * Z * Z :=
  (fst r, snd r HoldAlign, snd r AlignMode).

(** ** The LED lines

    The LEDs are charlieplexed over ten lines.  For each position of a ring
    the tables give the line to take high and the line to take low. *)

Definition SecHi : list Z :=
  [2; 3; 4; 5; 6; 1; 3; 4; 5; 6; 1; 2; 4; 5; 6; 1; 2; 3; 5; 6; 1; 2; 3; 4; 6;
   1; 2; 3; 4; 5].
Definition SecLo : list Z :=
  [1; 1; 1; 1; 1; 2; 2; 2; 2; 2; 3; 3; 3; 3; 3; 4; 4; 4; 4; 4; 5; 5; 5; 5; 5;
   6; 6; 6; 6; 6].

Definition MinHi : list Z :=
  [1; 7; 1; 8; 1; 9; 2; 7; 2; 8; 2; 9; 3; 7; 3; 8; 3; 9; 4; 7; 4; 8; 4; 9; 5;
   7; 5; 8; 5; 9].
Definition MinLo : list Z :=
  [7; 1; 8; 1; 9; 1; 7; 2; 8; 2; 9; 2; 7; 3; 8; 3; 9; 3; 7; 4; 8; 4; 9; 4; 7;
   5; 8; 5; 9; 5].

Definition HrHi : list Z := [10; 1; 2; 10; 10; 6; 3; 10; 10; 4; 5; 10].
Definition HrLo : list Z := [1; 10; 10; 2; 6; 10; 10; 3; 4; 10; 10; 5].

(** A read of a line table: [None] outside the table, where C leaves the
    read undefined. *)
Definition line_read (table : list Z) (i : Z) : option Z :=
  if i <? 0 then None else nth_error table (Z.to_nat i).

(** The six LEDs to light, [LH1] .. [LS2], as [loop] derives them from the
    ring positions when it refreshes the display. *)
Record Leds : Type := mkLeds {
  LH1 : Z; LH2 : Z; LM1 : Z; LM2 : Z; LS1 : Z; LS2 : Z
}.

Definition loop_leds (s : State) : Leds :=
  let LH1 := s HrDisp in
  let LH2 := s HrNext in
  let LM1 := s MinDisp in
  let LM2 := s MinNext in
  let LS1 := s SecDisp in
  let LS2 := s SecNext in
  if truthy (s CCW) then
    let LH1 := if truthy (s HrDisp) then byte (12 - s HrDisp) else LH1 in
    let LH2 := if truthy (s HrNext) then byte (12 - s HrNext) else LH2 in
    let LM1 := if truthy (s MinDisp) then byte (30 - s MinDisp) else LM1 in
    let LM2 := if truthy (s MinNext) then byte (30 - s MinNext) else LM2 in
    let LS1 := if truthy (s SecDisp) then byte (30 - s SecDisp) else LS1 in
    let LS2 := if truthy (s SecNext) then byte (30 - s SecNext) else LS2 in
    mkLeds LH1 LH2 LM1 LM2 LS1 LS2
  else mkLeds LH1 LH2 LM1 LM2 LS1 LS2.

(** The display multiplexer, run from the Timer1 interrupt. *)
Module Mpx.

(** The line registers [H0] .. [H5] and [L0] .. [L5] that [loop] hands to
    the interrupt handler. *)
Record LineRegs : Type := mkLineRegs {
  H0 : Z; H1 : Z; H2 : Z; H3 : Z; H4 : Z; H5 : Z;
  L0 : Z; L1 : Z; L2 : Z; L3 : Z; L4 : Z; L5 : Z
}.

(** The twelve table reads of [loop]; [None] when one of them falls outside
    its table. *)
Definition loop_lines (l : Leds) : option LineRegs :=
  match line_read HrLo (LH1 l), line_read HrHi (LH1 l),
        line_read HrLo (LH2 l), line_read HrHi (LH2 l),
        line_read MinLo (LM1 l), line_read MinHi (LM1 l),
        line_read MinLo (LM2 l), line_read MinHi (LM2 l),
        line_read SecLo (LS1 l), line_read SecHi (LS1 l),
        line_read SecLo (LS2 l), line_read SecHi (LS2 l) with
  | Some l0, Some h0, Some l1, Some h1, Some l2, Some h2,
    Some l3, Some h3, Some l4, Some h4, Some l5, Some h5 =>
      Some (mkLineRegs h0 h1 h2 h3 h4 h5 l0 l1 l2 l3 l4 l5)
  | _, _, _, _, _, _, _, _, _, _, _, _ => None
  end.

(** The data-direction and output registers of ports B, C and D. *)
Record Ports : Type := mkPorts {
  DDRB : Z; PORTB : Z; DDRC : Z; PORTC : Z; DDRD : Z; PORTD : Z
}.

Definition with_B (ddr port : Z) (p : Ports) : Ports :=
  mkPorts ddr port (DDRC p) (PORTC p) (DDRD p) (PORTD p).
Definition with_C (ddr port : Z) (p : Ports) : Ports :=
  mkPorts (DDRB p) (PORTB p) ddr port (DDRD p) (PORTD p).
Definition with_D (ddr port : Z) (p : Ports) : Ports :=
  mkPorts (DDRB p) (PORTB p) (DDRC p) (PORTC p) ddr port.

Definition LEDsBInv : Z := 248.
Definition LEDsCInv : Z := 240.
Definition LEDsDInv : Z := 227.

Definition TakeHigh (LEDline : Z) (p : Ports) : Ports :=
  if LEDline =? 1 then with_B (Z.lor (DDRB p) 4) (Z.lor (PORTB p) 4) p
  else if LEDline =? 2 then with_C (Z.lor (DDRC p) 1) (Z.lor (PORTC p) 1) p
  else if LEDline =? 3 then with_C (Z.lor (DDRC p) 2) (Z.lor (PORTC p) 2) p
  else if LEDline =? 4 then with_C (Z.lor (DDRC p) 4) (Z.lor (PORTC p) 4) p
  else if LEDline =? 5 then with_C (Z.lor (DDRC p) 8) (Z.lor (PORTC p) 8) p
  else if LEDline =? 6 then with_D (Z.lor (DDRD p) 16) (Z.lor (PORTD p) 16) p
  else if LEDline =? 7 then with_D (Z.lor (DDRD p) 4) (Z.lor (PORTD p) 4) p
  else if LEDline =? 8 then with_B (Z.lor (DDRB p) 1) (Z.lor (PORTB p) 1) p
  else if LEDline =? 9 then with_D (Z.lor (DDRD p) 8) (Z.lor (PORTD p) 8) p
  else if LEDline =? 10 then with_B (Z.lor (DDRB p) 2) (Z.lor (PORTB p) 2) p
  else p.

Definition TakeLow (LEDline : Z) (p : Ports) : Ports :=
  if LEDline =? 1 then with_B (Z.lor (DDRB p) 4) (Z.land (PORTB p) 251) p
  else if LEDline =? 2 then with_C (Z.lor (DDRC p) 1) (Z.land (PORTC p) 254) p
  else if LEDline =? 3 then with_C (Z.lor (DDRC p) 2) (Z.land (PORTC p) 253) p
  else if LEDline =? 4 then with_C (Z.lor (DDRC p) 4) (Z.land (PORTC p) 251) p
  else if LEDline =? 5 then with_C (Z.lor (DDRC p) 8) (Z.land (PORTC p) 247) p
  else if LEDline =? 6 then with_D (Z.lor (DDRD p) 16) (Z.land (PORTD p) 239) p
  else if LEDline =? 7 then with_D (Z.lor (DDRD p) 4) (Z.land (PORTD p) 251) p
  else if LEDline =? 8 then with_B (Z.lor (DDRB p) 1) (Z.land (PORTB p) 254) p
  else if LEDline =? 9 then with_D (Z.lor (DDRD p) 8) (Z.land (PORTD p) 247) p
  else if LEDline =? 10 then with_B (Z.lor (DDRB p) 2) (Z.land (PORTB p) 253) p
  else p.

Definition AllLEDsOff (p : Ports) : Ports :=
  let p := with_B (Z.land (DDRB p) LEDsBInv) (PORTB p) p in
  let p := with_B (DDRB p) (Z.land (PORTB p) LEDsBInv) p in
  let p := with_C (Z.land (DDRC p) LEDsCInv) (PORTC p) p in
  let p := with_C (DDRC p) (Z.land (PORTC p) LEDsCInv) p in
  let p := with_D (Z.land (DDRD p) LEDsDInv) (PORTD p) p in
  with_D (DDRD p) (Z.land (PORTD p) LEDsDInv) p.

(** The state of the multiplexer: the ports and its two counters. *)
Record Mux : Type := mkMux {
  ports : Ports;
  mpx_count : Z;
  mpx_select : Z
}.

Definition select_max : Z := 8.

Definition NextLED (r : LineRegs) (m : Mux) : Mux :=
  let p := AllLEDsOff (ports m) in
  let mpx_count := 0 in
  let mpx_select := byte (mpx_select m + 1) in
  let mpx_select := if select_max <? mpx_select then 0 else mpx_select in
  let p :=
    if mpx_select =? 0 then TakeLow (L0 r) (TakeHigh (H0 r) p)
    else if mpx_select =? 1 then TakeLow (L1 r) (TakeHigh (H1 r) p)
    else if mpx_select =? 2 then TakeLow (L2 r) (TakeHigh (H2 r) p)
    else if mpx_select =? 3 then TakeLow (L3 r) (TakeHigh (H3 r) p)
    else if mpx_select =? 4 then TakeLow (L4 r) (TakeHigh (H4 r) p)
    else if mpx_select =? 5 then TakeLow (L5 r) (TakeHigh (H5 r) p)
    else p in
  mkMux p mpx_count mpx_select.

(** The dark time of slots 6 to 8, computed in [int]. *)
Definition dark_time (s : State) : Z := int16 ((8 - s MainBright) * 20).

(** [DisplayMPX] reads the dwell values and the main brightness that
    [loop] maintains. *)
Definition DisplayMPX (s : State) (r : LineRegs) (m : Mux) : Mux :=
  let m := mkMux (ports m) (byte (mpx_count m + 1)) (mpx_select m) in
  if mpx_select m =? 0 then
    if s D0 <? mpx_count m then NextLED r m else m
  else if mpx_select m =? 1 then
    if s D1 <? mpx_count m then NextLED r m else m
  else if mpx_select m =? 2 then
    if s D2 <? mpx_count m then NextLED r m else m
  else if mpx_select m =? 3 then
    if s D3 <? mpx_count m then NextLED r m else m
  else if mpx_select m =? 4 then
    if s D4 <? mpx_count m then NextLED r m else m
  else if mpx_select m =? 5 then
    if s D5 <? mpx_count m then NextLED r m else m
  else if mpx_select m =? 6 then
    if dark_time s <? mpx_count m then NextLED r m else m
  else if mpx_select m =? 7 then
    if dark_time s <? mpx_count m then NextLED r m else m
  else if mpx_select m =? 8 then
    if dark_time s <? mpx_count m then NextLED r m else m
  else m.

(** The handler of the Timer1 compare interrupt. *)
Definition TIMER1_COMPA_vect (s : State) (r : LineRegs) (m : Mux) : Mux :=
  if truthy (s DisplayOn) then DisplayMPX s r m else m.

(** [n] interrupts in a row, with [loop] not running in between. *)
Fixpoint interrupts (n : nat) (s : State) (r : LineRegs) (m : Mux) : Mux :=
  match n with
  | O => m
  | S k => interrupts k s r (TIMER1_COMPA_vect s r m)
  end.

(** The dwell value of a slot and the line registers of a slot. *)
Definition slot_dwell (s : State) (k : Z) : Z :=
  if k =? 0 then s D0 else if k =? 1 then s D1 else if k =? 2 then s D2
  else if k =? 3 then s D3 else if k =? 4 then s D4 else if k =? 5 then s D5
  else dark_time s.

Definition slot_lines (r : LineRegs) (k : Z) : Z * Z :=
  if k =? 0 then (H0 r, L0 r) else if k =? 1 then (H1 r, L1 r)
  else if k =? 2 then (H2 r, L2 r) else if k =? 3 then (H3 r, L3 r)
  else if k =? 4 then (H4 r, L4 r) else (H5 r, L5 r).

(** The pin of an LED line: its bit in the registers of its port. *)
Inductive Port : Set := B | C | D.

Definition pin (line : Z) : option (Port * Z) :=
  if line =? 1 then Some (B, 2) else if line =? 2 then Some (C, 0)
  else if line =? 3 then Some (C, 1) else if line =? 4 then Some (C, 2)
  else if line =? 5 then Some (C, 3) else if line =? 6 then Some (D, 4)
  else if line =? 7 then Some (D, 2) else if line =? 8 then Some (B, 0)
  else if line =? 9 then Some (D, 3) else if line =? 10 then Some (B, 1)
  else None.

Definition ddr (q : Port) (p : Ports) : Z :=
  match q with B => DDRB p | C => DDRC p | D => DDRD p end.
Definition port (q : Port) (p : Ports) : Z :=
  match q with B => PORTB p | C => PORTC p | D => PORTD p end.

(** How a line is driven. *)
Inductive Level : Set := High | Low | Floating.

Definition level (p : Ports) (line : Z) : option Level :=
  match pin line with
  | None => None
  | Some (q, b) =>
      Some (if Z.testbit (ddr q p) b
            then if Z.testbit (port q p) b then High else Low
            else Floating)
  end.

(** The bits of a port that are not LED lines. *)
Definition other_bits (p : Ports) : list Z :=
  [Z.land (DDRB p) LEDsBInv; Z.land (PORTB p) LEDsBInv;
   Z.land (DDRC p) LEDsCInv; Z.land (PORTC p) LEDsCInv;
   Z.land (DDRD p) LEDsDInv; Z.land (PORTD p) LEDsDInv].

End Mpx.

(** ** The message of the sync script *)

(** The message that [sync.sh] sends for the time [t]: the header byte and
    the decimal digits of [t], which are ten for the times of these
    centuries. *)
Fixpoint decimal (k : nat) (n : Z) : list Z :=
  match k with
  | O => []
  | S j => decimal j (n / 10) ++ [48 + n mod 10]
  end.

Definition sync_message (t : Z) : list Z := 255 :: decimal 10 t.

(** ** Further vocabulary *)

(** The three registers last written to the clock chip: seconds, minutes
    and hours (the log of the bus has the latest byte first). *)
Definition sent_registers (s : State) : option (Z * Z * Z) :=
  match wire s with
  | sh :: sm :: ss :: _ => Some (ss, sm, sh)
  | _ => None
  end.

(** The ranges in which the six settings stay. *)
Definition settings_ok (s : State) : Prop :=
  1 <= s MainBright <= 8 /\
  0 <= s HourBright <= 63 /\ 0 <= s MinBright <= 63 /\
  0 <= s SecBright <= 63 /\
  0 <= s CCW <= 1 /\ 0 <= s FadeMode <= 254.

(** The settings are bytes. *)
Definition settings_bytes (s : State) : Prop :=
  Forall (fun v => 0 <= v < 256) (settings s).

(** The size of the ring that an alignment mode moves: 30 LEDs for the
    seconds and minutes, 12 for the hours. *)
Definition align_ring (s : State) : Z := if s AlignMode <? 5 then 30 else 12.

(** ** The clock face *)

(** Where the shadow of a hand falls on a ring of 30 LEDs, for a value on
    the scale of 60: half the value, offset by half a turn. *)
Definition shadow30 (x : Z) : Z := (x / 2 + 15) mod 30.

(** With [FadeMode] 2 the hour hand moves on once 30 minutes are over,
    unless the time is being set. *)
Definition hour_advance (s : State) : Z :=
  if (s FadeMode =? 2) && (s SettingTime =? 0) && (30 <? (s timeNow / 60) mod 60)
  then 1 else 0.

(** The six positions of the normal time display, in the order of
    [positions]. *)
Definition face (s : State) : Z * Z * Z * Z * Z * Z :=
  let h := (s timeNow / 3600 + 6 + hour_advance s) mod 12 in
  let m := shadow30 ((s timeNow / 60) mod 60) in
  let c := shadow30 (s timeNow mod 60) in
  (h, (h + 1) mod 12, m, (m + 1) mod 30, c, (c + 1) mod 30).

(** The positions lie on their rings. *)
Definition ring_ok (s : State) : Prop :=
  0 <= s HrDisp < 12 /\ 0 <= s HrNext < 12 /\
  0 <= s MinDisp < 30 /\ 0 <= s MinNext < 30 /\
  0 <= s SecDisp < 30 /\ 0 <= s SecNext < 30.

(** A pair of lines that lights an LED: two different lines out of the
    ten. *)
Definition valid_pair (h l : Z) : Prop :=
  1 <= h <= 10 /\ 1 <= l <= 10 /\ h <> l.

Definition valid_pairb (h l : Z) : bool :=
  (1 <=? h) && (h <=? 10) && (1 <=? l) && (l <=? 10) && negb (h =? l).

Definition lines_ok (r : Mpx.LineRegs) : Prop :=
  valid_pair (Mpx.H0 r) (Mpx.L0 r) /\ valid_pair (Mpx.H1 r) (Mpx.L1 r) /\
  valid_pair (Mpx.H2 r) (Mpx.L2 r) /\ valid_pair (Mpx.H3 r) (Mpx.L3 r) /\
  valid_pair (Mpx.H4 r) (Mpx.L4 r) /\ valid_pair (Mpx.H5 r) (Mpx.L5 r).

(** The fade weights of the second LED of each ring are within range. *)
Definition fades_ok (s : State) : Prop :=
  0 <= s SecFade2 <= 63 /\ 0 <= s MinFade2 <= 63 /\ 0 <= s HrFade2 <= 63.

(** The two LEDs of each ring share the full weight. *)
Definition fades_complementary (s : State) : Prop :=
  s SecFade1 + s SecFade2 = 63 /\ s MinFade1 + s MinFade2 = 63 /\
  s HrFade1 + s HrFade2 = 63.

(** ** Invariants of the display state *)

(** The alignment value lies on the ring being aligned. *)
Definition align_ok (s : State) : Prop := 0 <= s AlignValue < align_ring s.

(** The positions of the seconds and minutes rings and the second hour
    position lie on their rings; the first hour position stays below
    24. *)
Definition positions_ok (s : State) : Prop :=
  0 <= s SecDisp < 30 /\ 0 <= s SecNext < 30 /\
  0 <= s MinDisp < 30 /\ 0 <= s MinNext < 30 /\
  0 <= s HrNext < 12 /\ 0 <= s HrDisp < 24.

Definition display_inv (s : State) : Prop := align_ok s /\ positions_ok s.

Definition position_vars : list Var :=
  [HrDisp; MinDisp; SecDisp; SecNext; MinNext; HrNext].

Definition fade_vars : list Var :=
  [HrFade1; HrFade2; MinFade1; MinFade2; SecFade1; SecFade2].

Definition dwell_vars : list Var := [D0; D1; D2; D3; D4; D5].

(** What [loop] writes outside the calls to [CheckButtons], [CheckHeld]
    and the three display functions; [timeNow] and [prevtime] are written
    by the serial time sync as well. *)
Definition loop_vars : list Var :=
  millisNow :: millisThen :: timeNow :: prevtime :: fade_vars ++ dwell_vars.

(** ** An alignment scenario *)

(** A button is pressed and let go within a few milliseconds: [PIND] is
    the port with the button down. *)
Definition click (PIND : Z) (s : State) : State :=
  let s := loop (mkInput (s millisNow + 1) PIND (PIND, PIND, PIND, PIND) []) s in
  loop (mkInput (s millisNow + 1) 224 (224, 224, 224, 224) []) s.

Fixpoint clicks (n : nat) (PIND : Z) (s : State) : State :=
  match n with
  | O => s
  | S k => click PIND (clicks k PIND s)
  end.

(** "+" and "-" are held for three seconds, which enters the alignment
    mode. *)
Definition align_entered : State := snd (hold 128 3 idle_state).

(** The two buttons are let go. *)
Definition align_released : State :=
  loop (mkInput (align_entered millisNow + 1) 224 (224, 224, 224, 224) [])
       align_entered.

(** One click of "Z" steps to the manual alignment of the seconds ring;
    eighteen clicks of "+" move the alignment value to 18. *)
Definition aligning : State := clicks 18 192 (click 96 align_released).

(** ** Dark display *)

(** The display is blanked: the clock sleeps, or it blinks because the
    time has not been set ([VCRmode]) and the second is odd. *)
Definition blanked (s : State) : Prop :=
  s SleepMode <> 0 \/ (s VCRmode <> 0 /\ Z.land (s timeNow) 1 <> 0).

(** No button goes up between the last sample of the port and [PINDcopy]. *)
Definition no_release (PIND : Z) (s : State) : Prop :=
  released 32 (byte (Z.land PIND buttonmask)) s = false /\
  released 64 (byte (Z.land PIND buttonmask)) s = false /\
  released 128 (byte (Z.land PIND buttonmask)) s = false.

(** Relative to a state [s0]: the factory reset is disabled and the
    settings are those of [s0]. *)
Definition settings_kept (s0 st : State) : Prop :=
  st FactoryResetDisable <> 0 /\ settings st = settings s0.

(** ** Slots of the multiplexer *)

(** A multiplexer state at the start of slot [k], or [c] interrupts into
    it. *)
Definition in_slot (k c : Z) (m : Mpx.Mux) : Prop :=
  Mpx.mpx_select m = k /\ Mpx.mpx_count m = c.

(** The time of a slot, as a number of interrupts. *)
Definition slot_time (s : State) (k : Z) : nat :=
  Z.to_nat (Mpx.slot_dwell s k + 1).

(** * Proofs *)

(** ** Machine integers *)

Lemma byte_small x : 0 <= x < 256 -> byte x = x.
Proof. intros. unfold byte. apply Z.mod_small. assumption. Qed.

Lemma char_small x : -128 <= x < 128 -> char x = x.
Proof. intros. unfold char. rewrite Z.mod_small; lia. Qed.

Lemma uint16_small x : 0 <= x < 65536 -> uint16 x = x.
Proof. intros. unfold uint16. apply Z.mod_small. assumption. Qed.

Lemma int16_small x : -32768 <= x < 32768 -> int16 x = x.
Proof. intros. unfold int16. rewrite Z.mod_small; lia. Qed.

Lemma uint32_small x : 0 <= x < 4294967296 -> uint32 x = x.
Proof. intros. unfold uint32. apply Z.mod_small. assumption. Qed.

Lemma int32_small x : -2147483648 <= x < 2147483648 -> int32 x = x.
Proof. intros. unfold int32. rewrite Z.mod_small; lia. Qed.

Lemma byte_range x : 0 <= byte x < 256.
Proof. unfold byte. apply Z.mod_pos_bound. lia. Qed.

Lemma uint16_range x : 0 <= uint16 x < 65536.
Proof. unfold uint16. apply Z.mod_pos_bound. lia. Qed.

Lemma uint32_range x : 0 <= uint32 x < 4294967296.
Proof. unfold uint32. apply Z.mod_pos_bound. lia. Qed.

Lemma int16_range x : -32768 <= int16 x < 32768.
Proof.
  unfold int16. pose proof (Z.mod_pos_bound (x + 32768) 65536). lia.
Qed.

(** Removes the wrap-around of every machine operation whose argument is
    in range. *)
Ltac wraps :=
  repeat match goal with
  | |- context [int32 ?x] => rewrite (int32_small x) in * by lia
  | |- context [int16 ?x] => rewrite (int16_small x) in * by lia
  | |- context [uint16 ?x] => rewrite (uint16_small x) in * by lia
  | |- context [uint32 ?x] => rewrite (uint32_small x) in * by lia
  | |- context [byte ?x] => rewrite (byte_small x) in * by lia
  | |- context [char ?x] => rewrite (char_small x) in * by lia
  | H : context [int32 ?x] |- _ => rewrite (int32_small x) in * by lia
  | H : context [int16 ?x] |- _ => rewrite (int16_small x) in * by lia
  | H : context [uint16 ?x] |- _ => rewrite (uint16_small x) in * by lia
  | H : context [uint32 ?x] |- _ => rewrite (uint32_small x) in * by lia
  | H : context [byte ?x] |- _ => rewrite (byte_small x) in * by lia
  | H : context [char ?x] |- _ => rewrite (char_small x) in * by lia
  end.

(** Boolean tests in the hypotheses become propositions. *)
Ltac b2p :=
  unfold truthy in *;
  repeat match goal with
  | H : negb _ = true |- _ => apply negb_true_iff in H
  | H : negb _ = false |- _ => apply negb_false_iff in H
  | H : (_ && _) = true |- _ => apply andb_true_iff in H; destruct H
  | H : (_ && _) = false |- _ => apply andb_false_iff in H; destruct H
  | H : (_ || _) = true |- _ => apply orb_true_iff in H; destruct H
  | H : (_ || _) = false |- _ => apply orb_false_iff in H; destruct H
  | H : (_ =? _) = true |- _ => apply Z.eqb_eq in H
  | H : (_ =? _) = false |- _ => apply Z.eqb_neq in H
  | H : (_ <? _) = true |- _ => apply Z.ltb_lt in H
  | H : (_ <? _) = false |- _ => apply Z.ltb_ge in H
  | H : (_ <=? _) = true |- _ => apply Z.leb_le in H
  | H : (_ <=? _) = false |- _ => apply Z.leb_gt in H
  end.

(** ** Symbolic execution of the store *)

Lemma get_if (c : bool) (a b : State) (y : Var) :
  vars (if c then a else b) y = if c then vars a y else vars b y.
Proof. destruct c; reflexivity. Qed.

Lemma if_same {A} (c : bool) (e : A) : (if c then e else e) = e.
Proof. destruct c; reflexivity. Qed.

Lemma hoare_seq (P Q : State -> Prop) (a : State) (f : State -> State) :
  Q a -> (forall x, Q x -> P (f x)) -> P (let x := a in f x).
Proof. intros Ha Hf. exact (Hf a Ha). Qed.

Lemma hoare_let {A} (P : State -> Prop) (a : A) (f : A -> State) :
  (forall x, x = a -> P (f x)) -> P (let x := a in f x).
Proof. intros H. exact (H a eq_refl). Qed.

(** [frames_rw] reads a variable through a call with the frame equations
    proved further down; it is redefined as they become available. *)
Ltac frames_rw := idtac.

Ltac norm :=
  repeat (progress
    (rewrite ?get_if;
     cbn [vars eeprom eewrites wire lookups upd Var_beq fst snd];
     frames_rw;
     rewrite ?if_same)).

(** Splits on the innermost test of the goal. *)
Ltac split_if :=
  match goal with
  | |- context [if ?c then _ else _] =>
      lazymatch c with
      | context [if _ then _ else _] => fail
      | _ => let H := fresh "C" in destruct c eqn:H
      end
  end.

(** Path by path: every [let] is unfolded and every test decided. *)
Ltac paths leaf := cbv zeta; norm; repeat (split_if; norm); leaf.

(** Statement by statement, with [P] as the assertion between statements:
    plain assignments are substituted, a conditional statement is cut at
    [P], and a block whose intermediate states break [P] is redone path by
    path. *)
Ltac hoare leaf :=
  lazymatch goal with
  | |- ?P (let x := ?a in @?f x) =>
      lazymatch type of a with
      | State =>
          lazymatch a with
          | context [if _ then _ else _] =>
              first
              [ solve [ apply (hoare_seq P P a f);
                        [ hoare leaf
                        | let x' := fresh "s" in let H := fresh "I" in
                          intros x' H; cbv beta; hoare leaf ] ]
              | solve [ paths leaf ] ]
          | _ =>
              let x' := fresh "s" in let H := fresh "E" in
              apply (hoare_let P a f); intros x' H; subst x'; cbv beta;
              hoare leaf
          end
      | _ =>
          let x' := fresh "v" in let H := fresh "E" in
          apply (hoare_let P a f); intros x' H; cbv beta; hoare leaf
      end
  | |- ?P (if ?c then _ else _) =>
      let H := fresh "C" in destruct c eqn:H; hoare leaf
  | |- ?P (match ?c with pair _ _ => _ end) =>
      lazymatch c with
      | pair _ _ => cbv iota beta; hoare leaf
      | _ => solve [ leaf ]
      end
  | |- _ => solve [ leaf ]
  end.

(** ** Frame conditions *)

Lemma keeps_upd y r x v (s : State) :
  Var_beq x y = false -> keeps y r s -> keeps y r (s <| x := v |>).
Proof. unfold keeps. cbn [vars upd]. intros ->. auto. Qed.

Lemma keeps_mk y r (s : State) e w b l :
  keeps y r s -> keeps y r (mkState (vars s) e w b l).
Proof. auto. Qed.

Lemma EEUpdate_vars loc val s : vars (EEUpdate loc val s) = vars s.
Proof. unfold EEUpdate. destruct (negb _); reflexivity. Qed.

Lemma EEUpdate_keeps y r loc val s :
  keeps y r s -> keeps y r (EEUpdate loc val s).
Proof. unfold keeps. rewrite EEUpdate_vars. auto. Qed.

Lemma RTCsetTime_vars t s : vars (RTCsetTime t s) = vars s.
Proof. reflexivity. Qed.

Lemma RTCsetTime_keeps y r t s : keeps y r s -> keeps y r (RTCsetTime t s).
Proof. auto. Qed.

Ltac split_mem H :=
  cbv beta iota delta
    [mem display_vars settings_vars held_vars button_vars inv_vars] in H;
  repeat match type of H with
  | (_ || _) = false =>
      let H1 := fresh "N" in
      apply orb_false_iff in H; destruct H as [H1 H]
  end.

(** A side condition [mem y l = false] from the split facts. *)
Ltac mem_side :=
  cbv beta iota delta
    [mem display_vars settings_vars held_vars button_vars inv_vars];
  repeat match goal with
  | H : Var_beq ?x ?y = false |- context [Var_beq ?x ?y] => rewrite H
  end;
  reflexivity.

(** [keeps_call] applies the frame lemma of a called function; it is
    extended as the lemmas are proved. *)
Ltac keeps_call := idtac; fail.

Ltac keeps_leaf :=
  repeat lazymatch goal with
  | |- keeps _ _ (upd _ _ _) => apply keeps_upd; [ assumption | ]
  | |- keeps _ _ (mkState _ _ _ _ _) => apply keeps_mk
  | |- keeps _ _ (EEUpdate _ _ _) => apply EEUpdate_keeps
  | |- keeps _ _ (RTCsetTime _ _) => apply RTCsetTime_keeps
  | |- keeps _ _ _ => first [ assumption | keeps_call; [ mem_side | ] ]
  end.

Ltac frame F :=
  let Hy := fresh "Hy" in let K := fresh "K" in
  intros Hy K; split_mem Hy; cbv beta delta [F];
  hoare keeps_leaf.

Lemma IncrAlignVal_keeps y r s :
  mem y [AlignValue] = false -> keeps y r s -> keeps y r (IncrAlignVal s).
Proof. frame IncrAlignVal. Qed.

Lemma DecrAlignVal_keeps y r s :
  mem y [AlignValue] = false -> keeps y r s -> keeps y r (DecrAlignVal s).
Proof. frame DecrAlignVal. Qed.

Lemma NormalTimeDisplay_keeps y r s :
  mem y display_vars = false -> keeps y r s -> keeps y r (NormalTimeDisplay s).
Proof. frame NormalTimeDisplay. Qed.

Lemma ApplyDefaults_keeps y r s :
  mem y settings_vars = false -> keeps y r s -> keeps y r (ApplyDefaults s).
Proof. frame ApplyDefaults. Qed.

Lemma Blink_keeps y r s :
  mem y [DisplayOn] = false -> keeps y r s -> keeps y r (Blink s).
Proof. frame Blink. Qed.

Lemma NormalFades_keeps y r s :
  mem y display_vars = false -> keeps y r s -> keeps y r (NormalFades s).
Proof.
  intros Hy K; split_mem Hy; cbv beta delta [NormalFades table_read].
  hoare keeps_leaf.
Qed.

Ltac keeps_call ::=
  idtac;
  lazymatch goal with
  | |- keeps _ _ (IncrAlignVal _) => apply IncrAlignVal_keeps
  | |- keeps _ _ (DecrAlignVal _) => apply DecrAlignVal_keeps
  | |- keeps _ _ (NormalTimeDisplay _) => apply NormalTimeDisplay_keeps
  | |- keeps _ _ (ApplyDefaults _) => apply ApplyDefaults_keeps
  | |- keeps _ _ (Blink _) => apply Blink_keeps
  | |- keeps _ _ (NormalFades _) => apply NormalFades_keeps
  end.

Lemma AlignDisplay_keeps y r s :
  mem y display_vars = false -> keeps y r s -> keeps y r (AlignDisplay s).
Proof. frame AlignDisplay. Qed.

Lemma OptionDisplay_keeps y r s :
  mem y display_vars = false -> keeps y r s -> keeps y r (OptionDisplay s).
Proof. frame OptionDisplay. Qed.

Lemma loop_fades_keeps y r s :
  mem y display_vars = false -> keeps y r s -> keeps y r (loop_fades s).
Proof. frame loop_fades. Qed.

Lemma loop_dwells_keeps y r s :
  mem y display_vars = false -> keeps y r s -> keeps y r (loop_dwells s).
Proof. frame loop_dwells. Qed.

Lemma EESaveSettings_keeps y r s :
  mem y [LastSavedBrightness; DisplayOn] = false ->
  keeps y r s -> keeps y r (EESaveSettings s).
Proof. frame EESaveSettings. Qed.

Lemma PlusReleased_keeps y r s :
  mem y button_vars = false -> keeps y r s -> keeps y r (PlusReleased s).
Proof. frame PlusReleased. Qed.

Lemma MinusReleased_keeps y r s :
  mem y button_vars = false -> keeps y r s -> keeps y r (MinusReleased s).
Proof. frame MinusReleased. Qed.

Lemma ZReleased_keeps y r s :
  mem y button_vars = false -> keeps y r s -> keeps y r (ZReleased s).
Proof. frame ZReleased. Qed.

Ltac keeps_call ::=
  idtac;
  lazymatch goal with
  | |- keeps _ _ (IncrAlignVal _) => apply IncrAlignVal_keeps
  | |- keeps _ _ (DecrAlignVal _) => apply DecrAlignVal_keeps
  | |- keeps _ _ (NormalTimeDisplay _) => apply NormalTimeDisplay_keeps
  | |- keeps _ _ (ApplyDefaults _) => apply ApplyDefaults_keeps
  | |- keeps _ _ (Blink _) => apply Blink_keeps
  | |- keeps _ _ (NormalFades _) => apply NormalFades_keeps
  | |- keeps _ _ (AlignDisplay _) => apply AlignDisplay_keeps
  | |- keeps _ _ (OptionDisplay _) => apply OptionDisplay_keeps
  | |- keeps _ _ (EESaveSettings _) => apply EESaveSettings_keeps
  | |- keeps _ _ (PlusReleased _) => apply PlusReleased_keeps
  | |- keeps _ _ (MinusReleased _) => apply MinusReleased_keeps
  | |- keeps _ _ (ZReleased _) => apply ZReleased_keeps
  end.

Lemma loop_refresh_keeps y r R s :
  mem y display_vars = false -> keeps y r s -> keeps y r (loop_refresh R s).
Proof. frame loop_refresh. Qed.

Lemma CheckHeld_keeps y r p0 p1 p2 p3 s :
  mem y held_vars = false -> keeps y r s -> keeps y r (CheckHeld p0 p1 p2 p3 s).
Proof. frame CheckHeld. Qed.

Lemma loop_sync_keeps y r b s :
  mem y [timeNow; prevtime] = false -> keeps y r s -> keeps y r (loop_sync b s).
Proof.
  intros Hy K; split_mem Hy. unfold loop_sync.
  destruct (fst (getPCtime b)) as [now|]; [|assumption].
  paths keeps_leaf.
Qed.

Lemma CheckButtons_keeps y r p s :
  mem y button_vars = false -> keeps y r s -> keeps y r (CheckButtons p s).
Proof. frame CheckButtons. Qed.

Lemma EEReadSettings_keeps y r s :
  mem y (LastSavedBrightness :: settings_vars) = false ->
  keeps y r s -> keeps y r (EEReadSettings s).
Proof.
  intros Hy K; split_mem Hy; cbv beta delta [EEReadSettings].
  cbv zeta.
  repeat match goal with
  | |- context [if ?c then (_, _) else (_, _)] => destruct c
  end; cbv iota beta;
  repeat match goal with
  | |- context [if ?c then _ else _] => destruct c
  end;
  unfold ApplyDefaults; keeps_leaf.
Qed.

Lemma tick_keeps y r s :
  mem y [timeNow] = false -> keeps y r s -> keeps y r (snd (tick s)).
Proof.
  intros Hy K; split_mem Hy. unfold tick.
  destruct (s SettingTime <? 4); cbn [snd]; [|assumption].
  cbv zeta. destruct (43200 <? _); keeps_leaf.
Qed.

(** The frame conditions as equations. *)
Lemma frame_eq (f : State -> State) (l : list Var) :
  (forall y r s, mem y l = false -> keeps y r s -> keeps y r (f s)) ->
  forall s y, mem y l = false -> f s y = s y.
Proof. intros H s y Hy. exact (H y (s y) s Hy eq_refl). Qed.

(** ** The invariant of the control state *)

Lemma disjoint_mem (L l : list Var) y :
  forallb (fun y => negb (mem y l)) L = true ->
  mem y L = true -> mem y l = false.
Proof.
  induction L as [|x L IH]; intros D Hy; [discriminate Hy|].
  cbn [forallb] in D. apply andb_true_iff in D. destruct D as [Dx D].
  cbn [mem] in Hy. apply orb_true_iff in Hy. destruct Hy as [Hy | Hy].
  - apply internal_Var_dec_bl in Hy. subst y.
    apply negb_true_iff in Dx. exact Dx.
  - apply IH; assumption.
Qed.

(** A function that keeps every variable outside [l] preserves a property
    that reads only variables of [L], when [L] and [l] are disjoint. *)
Lemma reads_only_keeps (L : list Var) (P : State -> Prop)
    (f : State -> State) (l : list Var) :
  reads_only L P ->
  (forall y r s, mem y l = false -> keeps y r s -> keeps y r (f s)) ->
  forallb (fun y => negb (mem y l)) L = true ->
  forall s, P s -> P (f s).
Proof.
  intros RO H D s. apply RO. intros y Hy.
  apply (frame_eq f l H). apply (disjoint_mem L); assumption.
Qed.

Lemma Inv_reads_only : reads_only inv_vars Inv.
Proof.
  intros s s' H. unfold Inv, modes_exclusive.
  rewrite (H timeNow), (H SettingTime), (H AlignMode), (H OptionMode)
    by reflexivity.
  auto.
Qed.

Lemma Inv_keeps (f : State -> State) (l : list Var) :
  (forall y r s, mem y l = false -> keeps y r s -> keeps y r (f s)) ->
  forallb (fun y => negb (mem y l)) inv_vars = true ->
  forall s, Inv s -> Inv (f s).
Proof. apply reads_only_keeps, Inv_reads_only. Qed.

Ltac inv_arith :=
  unfold Inv, modes_exclusive in *; norm;
  cbn [vars upd Var_beq] in *; b2p; wraps; lia.

Ltac inv_call := idtac; fail.

Ltac inv_leaf :=
  idtac;
  lazymatch goal with
  | |- Inv (upd _ _ _) => inv_arith
  | |- Inv _ => first [ assumption | inv_call; inv_leaf ]
  end.

Lemma IncrAlignVal_Inv s : Inv s -> Inv (IncrAlignVal s).
Proof. apply (Inv_keeps _ _ IncrAlignVal_keeps). reflexivity. Qed.

Lemma DecrAlignVal_Inv s : Inv s -> Inv (DecrAlignVal s).
Proof. apply (Inv_keeps _ _ DecrAlignVal_keeps). reflexivity. Qed.

Lemma ApplyDefaults_Inv s : Inv s -> Inv (ApplyDefaults s).
Proof. apply (Inv_keeps _ _ ApplyDefaults_keeps). reflexivity. Qed.

Lemma EESaveSettings_Inv s : Inv s -> Inv (EESaveSettings s).
Proof. apply (Inv_keeps _ _ EESaveSettings_keeps). reflexivity. Qed.

Lemma Blink_Inv s : Inv s -> Inv (Blink s).
Proof. apply (Inv_keeps _ _ Blink_keeps). reflexivity. Qed.

Lemma RTCsetTime_Inv t s : Inv s -> Inv (RTCsetTime t s).
Proof. auto. Qed.

Lemma loop_refresh_Inv R s : Inv s -> Inv (loop_refresh R s).
Proof.
  apply (Inv_keeps (loop_refresh R) display_vars).
  - intros. apply loop_refresh_keeps; assumption.
  - reflexivity.
Qed.

Lemma loop_fades_Inv s : Inv s -> Inv (loop_fades s).
Proof. apply (Inv_keeps _ _ loop_fades_keeps). reflexivity. Qed.

Lemma loop_dwells_Inv s : Inv s -> Inv (loop_dwells s).
Proof. apply (Inv_keeps _ _ loop_dwells_keeps). reflexivity. Qed.

Ltac inv_call ::=
  idtac;
  lazymatch goal with
  | |- Inv (IncrAlignVal _) => apply IncrAlignVal_Inv
  | |- Inv (DecrAlignVal _) => apply DecrAlignVal_Inv
  | |- Inv (ApplyDefaults _) => apply ApplyDefaults_Inv
  | |- Inv (EESaveSettings _) => apply EESaveSettings_Inv
  | |- Inv (Blink _) => apply Blink_Inv
  | |- Inv (RTCsetTime _ _) => apply RTCsetTime_Inv
  end.

Lemma PlusReleased_Inv s : Inv s -> Inv (PlusReleased s).
Proof. intros I. cbv beta delta [PlusReleased]. hoare inv_leaf. Qed.

Lemma MinusReleased_Inv s : Inv s -> Inv (MinusReleased s).
Proof. intros I. cbv beta delta [MinusReleased]. hoare inv_leaf. Qed.

Lemma ZReleased_Inv s : Inv s -> Inv (ZReleased s).
Proof. intros I. cbv beta delta [ZReleased]. hoare inv_leaf. Qed.

Ltac inv_call ::=
  idtac;
  lazymatch goal with
  | |- Inv (IncrAlignVal _) => apply IncrAlignVal_Inv
  | |- Inv (DecrAlignVal _) => apply DecrAlignVal_Inv
  | |- Inv (ApplyDefaults _) => apply ApplyDefaults_Inv
  | |- Inv (EESaveSettings _) => apply EESaveSettings_Inv
  | |- Inv (Blink _) => apply Blink_Inv
  | |- Inv (RTCsetTime _ _) => apply RTCsetTime_Inv
  | |- Inv (PlusReleased _) => apply PlusReleased_Inv
  | |- Inv (MinusReleased _) => apply MinusReleased_Inv
  | |- Inv (ZReleased _) => apply ZReleased_Inv
  end.

Lemma CheckButtons_Inv p s : Inv s -> Inv (CheckButtons p s).
Proof. intros I. cbv beta delta [CheckButtons]. hoare inv_leaf. Qed.

Lemma CheckHeld_Inv p0 p1 p2 p3 s : Inv s -> Inv (CheckHeld p0 p1 p2 p3 s).
Proof. intros I. cbv beta delta [CheckHeld]. hoare inv_leaf. Qed.

(** The time that a serial sync leaves is a 16-bit sum. *)
Lemma loop_sync_Inv b s : Inv s -> Inv (loop_sync b s).
Proof.
  intros I. unfold loop_sync.
  destruct (fst (getPCtime b)) as [now|]; [|assumption].
  match goal with |- context [upd timeNow (int16 ?e)] =>
    pose proof (int16_range e) as Ht; generalize dependent (int16 e) end.
  intros t Ht. cbv zeta.
  assert (I1 : Inv (s <| timeNow := t |>)) by inv_arith.
  set (s1 := s <| timeNow := t |>) in *.
  match goal with |- context [upd prevtime _ (if _ then _ else ?x)] =>
    assert (I2 : Inv x);
    [ destruct (43200 <? s1 timeNow) eqn:C; [ inv_arith | exact I1 ]
    | set (s2 := x) in * ]
  end.
  destruct (negb _); [|exact I2].
  assert (I3 : Inv (if truthy (s2 ExtRTC) then RTCsetTime (s2 timeNow) s2
                    else s2))
    by (destruct (truthy _); [ apply RTCsetTime_Inv | ]; exact I2).
  revert I3. apply Inv_reads_only. intros y Hy. cbn [vars upd].
  destruct y; try discriminate Hy; reflexivity.
Qed.

Lemma tick_Inv s : Inv s -> Inv (snd (tick s)).
Proof.
  intros I. unfold tick. destruct (s SettingTime <? 4) eqn:C; cbn [snd].
  - paths inv_arith.
  - assumption.
Qed.

(** Frame equations, for reading a variable through a call. *)
Lemma IncrAlignVal_frame (s : State) y :
  mem y [AlignValue] = false -> IncrAlignVal s y = s y.
Proof. exact (frame_eq _ _ IncrAlignVal_keeps s y). Qed.

Lemma DecrAlignVal_frame (s : State) y :
  mem y [AlignValue] = false -> DecrAlignVal s y = s y.
Proof. exact (frame_eq _ _ DecrAlignVal_keeps s y). Qed.

Lemma ApplyDefaults_frame (s : State) y :
  mem y settings_vars = false -> ApplyDefaults s y = s y.
Proof. exact (frame_eq _ _ ApplyDefaults_keeps s y). Qed.

Lemma Blink_frame (s : State) y :
  mem y [DisplayOn] = false -> Blink s y = s y.
Proof. exact (frame_eq _ _ Blink_keeps s y). Qed.

Lemma EEReadSettings_frame (s : State) y :
  mem y (LastSavedBrightness :: settings_vars) = false -> EEReadSettings s y = s y.
Proof. exact (frame_eq _ _ EEReadSettings_keeps s y). Qed.

Lemma EESaveSettings_frame (s : State) y :
  mem y [LastSavedBrightness; DisplayOn] = false -> EESaveSettings s y = s y.
Proof. exact (frame_eq _ _ EESaveSettings_keeps s y). Qed.

Lemma NormalTimeDisplay_frame (s : State) y :
  mem y display_vars = false -> NormalTimeDisplay s y = s y.
Proof. exact (frame_eq _ _ NormalTimeDisplay_keeps s y). Qed.

Lemma NormalFades_frame (s : State) y :
  mem y display_vars = false -> NormalFades s y = s y.
Proof. exact (frame_eq _ _ NormalFades_keeps s y). Qed.

Lemma AlignDisplay_frame (s : State) y :
  mem y display_vars = false -> AlignDisplay s y = s y.
Proof. exact (frame_eq _ _ AlignDisplay_keeps s y). Qed.

Lemma OptionDisplay_frame (s : State) y :
  mem y display_vars = false -> OptionDisplay s y = s y.
Proof. exact (frame_eq _ _ OptionDisplay_keeps s y). Qed.

Lemma loop_fades_frame (s : State) y :
  mem y display_vars = false -> loop_fades s y = s y.
Proof. exact (frame_eq _ _ loop_fades_keeps s y). Qed.

Lemma loop_dwells_frame (s : State) y :
  mem y display_vars = false -> loop_dwells s y = s y.
Proof. exact (frame_eq _ _ loop_dwells_keeps s y). Qed.


Lemma loop_refresh_frame R s y :
  mem y display_vars = false -> loop_refresh R s y = s y.
Proof. intros. apply loop_refresh_keeps; [assumption | reflexivity]. Qed.

Lemma CheckButtons_frame p s y :
  mem y button_vars = false -> CheckButtons p s y = s y.
Proof. intros. apply CheckButtons_keeps; [assumption | reflexivity]. Qed.

Lemma CheckHeld_frame p0 p1 p2 p3 s y :
  mem y held_vars = false -> CheckHeld p0 p1 p2 p3 s y = s y.
Proof. intros. apply CheckHeld_keeps; [assumption | reflexivity]. Qed.

Lemma tick_frame s y : mem y [timeNow] = false -> snd (tick s) y = s y.
Proof. intros. apply tick_keeps; [assumption | reflexivity]. Qed.

Lemma loop_sync_frame b s y :
  mem y [timeNow; prevtime] = false -> loop_sync b s y = s y.
Proof. intros. apply loop_sync_keeps; [assumption | reflexivity]. Qed.

Ltac frames_rw ::=
  repeat match goal with
  | |- context [vars (EEUpdate ?l ?v ?s)] => rewrite (EEUpdate_vars l v s)
  | |- context [vars (RTCsetTime ?t ?s)] => rewrite (RTCsetTime_vars t s)
  | |- context [vars (IncrAlignVal ?s) ?y] =>
      rewrite (IncrAlignVal_frame s y) by reflexivity
  | |- context [vars (DecrAlignVal ?s) ?y] =>
      rewrite (DecrAlignVal_frame s y) by reflexivity
  | |- context [vars (ApplyDefaults ?s) ?y] =>
      rewrite (ApplyDefaults_frame s y) by reflexivity
  | |- context [vars (Blink ?s) ?y] =>
      rewrite (Blink_frame s y) by reflexivity
  | |- context [vars (EEReadSettings ?s) ?y] =>
      rewrite (EEReadSettings_frame s y) by reflexivity
  | |- context [vars (EESaveSettings ?s) ?y] =>
      rewrite (EESaveSettings_frame s y) by reflexivity
  | |- context [vars (NormalTimeDisplay ?s) ?y] =>
      rewrite (NormalTimeDisplay_frame s y) by reflexivity
  | |- context [vars (NormalFades ?s) ?y] =>
      rewrite (NormalFades_frame s y) by reflexivity
  | |- context [vars (AlignDisplay ?s) ?y] =>
      rewrite (AlignDisplay_frame s y) by reflexivity
  | |- context [vars (OptionDisplay ?s) ?y] =>
      rewrite (OptionDisplay_frame s y) by reflexivity
  | |- context [vars (loop_fades ?s) ?y] =>
      rewrite (loop_fades_frame s y) by reflexivity
  | |- context [vars (loop_dwells ?s) ?y] =>
      rewrite (loop_dwells_frame s y) by reflexivity
  | |- context [vars (loop_refresh ?R ?s) ?y] =>
      rewrite (loop_refresh_frame R s y) by reflexivity
  | |- context [vars (CheckButtons ?p ?s) ?y] =>
      rewrite (CheckButtons_frame p s y) by reflexivity
  | |- context [vars (CheckHeld ?p0 ?p1 ?p2 ?p3 ?s) ?y] =>
      rewrite (CheckHeld_frame p0 p1 p2 p3 s y) by reflexivity
  | |- context [vars (snd (tick ?s)) ?y] =>
      rewrite (tick_frame s y) by reflexivity
  | |- context [vars (loop_sync ?b ?s) ?y] =>
      rewrite (loop_sync_frame b s y) by reflexivity
  end.

Lemma loop_second_Inv i R s : Inv s -> Inv (snd (loop_second i R s)).
Proof.
  intros I. unfold loop_second.
  destruct (1000 <=? _); [|assumption].
  destruct (in_held i) as [[[p0 p1] p2] p3].
  cbv zeta.
  match goal with |- context [tick ?x] =>
    pose proof (tick_Inv x) as T; destruct (tick x) as [b s'] end.
  cbn [snd] in *. apply T. apply CheckHeld_Inv. inv_arith.
Qed.

Lemma loop_Inv i s : Inv s -> Inv (loop i s).
Proof.
  intros I. unfold loop. cbv zeta.
  match goal with |- context [loop_second ?i ?R ?x] =>
    pose proof (loop_second_Inv i R x) as T;
    destruct (loop_second i R x) as [R' s'] end.
  cbn [snd] in T.
  apply loop_sync_Inv, loop_dwells_Inv, loop_fades_Inv, loop_refresh_Inv, T,
    CheckButtons_Inv.
  inv_arith.
Qed.

Lemma timeRTC_of_range a b c : 0 <= timeRTC_of a b c <= 43200.
Proof.
  unfold timeRTC_of. cbv zeta.
  match goal with |- context [43200 <? uint16 ?y] =>
    pose proof (uint16_range y); destruct (43200 <? uint16 y) eqn:C end.
  - b2p. rewrite uint16_small; lia.
  - b2p. lia.
Qed.

Lemma RTCgetTime_Inv answer s : Inv s -> Inv (snd (RTCgetTime answer s)).
Proof.
  intros I. unfold RTCgetTime. cbv zeta.
  destruct answer as [[[a b] c]|]; cbn [snd]; [|exact I].
  pose proof (timeRTC_of_range a b c).
  repeat match goal with
  | |- context [if ?c then _ else _] => destruct c
  end; cbn [snd]; try exact I; unfold Inv, modes_exclusive in *;
    cbn [vars upd Var_beq Wire_write]; lia.
Qed.

Lemma setup_Inv millis PIND answer s : Inv (setup millis PIND answer s).
Proof.
  unfold setup. cbv zeta.
  match goal with |- context [RTCgetTime ?a ?x] =>
    pose proof (RTCgetTime_Inv a x) as T;
    destruct (RTCgetTime a x) as [st s'] end.
  cbn [snd] in T.
  assert (I : Inv s').
  { apply T. unfold Inv, modes_exclusive. norm. lia. }
  destruct (truthy _); inv_arith.
Qed.

(** Every reachable state satisfies the invariant: in particular at most
    one of the three modes is active, and [timeNow] does not exceed 43200.
    It can be negative, after a serial sync whose 16-bit sum has
    overflowed. *)
Lemma reachable_Inv s : reachable s -> Inv s.
Proof.
  induction 1 as [cells millis PIND answer | i s _ IH].
  - apply setup_Inv.
  - apply loop_Inv, IH.
Qed.

(** ** Decoding the time *)

(** Linear arithmetic with division and remainder by constants. *)
Ltac dlia := Z.to_euclidean_division_equations; lia.

(** Removes the wrap-around of the innermost machine operations, with
    division in the side conditions. *)
Ltac dwraps :=
  repeat match goal with
  | |- context [int32 ?x] => rewrite (int32_small x) by dlia
  | |- context [int16 ?x] => rewrite (int16_small x) by dlia
  | |- context [uint16 ?x] => rewrite (uint16_small x) by dlia
  | |- context [uint32 ?x] => rewrite (uint32_small x) by dlia
  | |- context [byte ?x] => rewrite (byte_small x) by dlia
  | |- context [Z.quot ?a ?b] => rewrite (Z.quot_div_nonneg a b) by dlia
  | |- context [Z.rem ?a ?b] => rewrite (Z.rem_mod_nonneg a b) by dlia
  end.

(** Subtracting an [int] from an [unsigned int]: the wrap-around of the
    [int] is absorbed by that of the result. *)
Lemma uint16_sub_int16 a x : uint16 (a - int16 x) = uint16 (a - x).
Proof. unfold uint16, int16. dlia. Qed.

Section Decode.

Variable s : State.
Hypothesis Ht : 0 <= s timeNow <= 43200.

Lemma HrNow_of_eq : HrNow_of s = s timeNow / 3600.
Proof. unfold HrNow_of. cbv zeta. dwraps. dlia. Qed.

Lemma MinNow_of_eq : MinNow_of s = (s timeNow / 60) mod 60.
Proof.
  unfold MinNow_of. cbv zeta. rewrite uint16_sub_int16. dwraps. dlia.
Qed.

Lemma SecNow_of_eq : SecNow_of s = s timeNow mod 60.
Proof.
  unfold SecNow_of. cbv zeta. rewrite !uint16_sub_int16. dwraps. dlia.
Qed.

Lemma BusyLoop_HrNow_of_eq : BusyLoop.HrNow_of s = s timeNow / 3600.
Proof. unfold BusyLoop.HrNow_of. dwraps. dlia. Qed.

Lemma BusyLoop_MinNow_of_eq : BusyLoop.MinNow_of s = (s timeNow / 60) mod 60.
Proof. unfold BusyLoop.MinNow_of. dwraps. dlia. Qed.

Lemma BusyLoop_SecNow_of_eq : BusyLoop.SecNow_of s = s timeNow mod 60.
Proof. unfold BusyLoop.SecNow_of. dwraps. dlia. Qed.

End Decode.

(** The decoding works in [unsigned int]: whatever [timeNow] holds, the
    hours come out below 19 and the minutes and seconds below 60. *)
Lemma HrNow_of_range (s : State) : 0 <= HrNow_of s <= 18.
Proof.
  unfold HrNow_of. cbv zeta. pose proof (uint16_range (s timeNow)) as H.
  revert H. generalize (uint16 (s timeNow)). intros t H. dwraps. dlia.
Qed.

Lemma MinNow_of_range (s : State) : 0 <= MinNow_of s < 60.
Proof.
  unfold MinNow_of. cbv zeta. pose proof (uint16_range (s timeNow)) as H.
  revert H. generalize (uint16 (s timeNow)). intros t H.
  rewrite uint16_sub_int16. dwraps. dlia.
Qed.

Lemma SecNow_of_range (s : State) : 0 <= SecNow_of s < 60.
Proof.
  unfold SecNow_of. cbv zeta. pose proof (uint16_range (s timeNow)) as H.
  revert H. generalize (uint16 (s timeNow)). intros t H.
  rewrite !uint16_sub_int16. dwraps. dlia.
Qed.

(** ** The two revisions of [NormalTimeDisplay] *)

(** The position on a 30-LED ring, as either revision computes it from a
    value [x] of the 60-unit scale. *)
Lemma ring30_agree x :
  0 <= x < 60 ->
  (if 29 <? byte (Z.quot x 2 + 15) then byte (byte (Z.quot x 2 + 15) - 30)
   else byte (Z.quot x 2 + 15)) =
  byte (Z.shiftr (if 59 <? byte (x + 30) then byte (byte (x + 30) - 60)
                  else byte (x + 30)) 1).
Proof.
  intros Hx. rewrite Z.shiftr_div_pow2 by lia. change (2 ^ 1) with 2.
  rewrite (byte_small (Z.quot x 2 + 15)) by dlia.
  rewrite (byte_small (x + 30)) by lia.
  destruct (29 <? _) eqn:C1; destruct (59 <? _) eqn:C2; b2p;
    try (exfalso; dlia); dwraps; dlia.
Qed.

Lemma ring30_next d :
  0 <= d < 30 ->
  (if 29 <? byte (d + 1) then byte (byte (d + 1) - 30) else byte (d + 1)) =
  (if 29 <? byte (d + 1) then 0 else byte (d + 1)).
Proof.
  intros Hd. rewrite (byte_small (d + 1)) by lia.
  destruct (29 <? _) eqn:C; b2p; [|reflexivity].
  rewrite byte_small; lia.
Qed.

Lemma ring30_range x :
  0 <= x < 60 ->
  0 <= (if 29 <? byte (Z.quot x 2 + 15) then byte (byte (Z.quot x 2 + 15) - 30)
        else byte (Z.quot x 2 + 15)) < 30.
Proof.
  intros Hx. rewrite (byte_small (Z.quot x 2 + 15)) by dlia.
  destruct (29 <? _) eqn:C; b2p; dwraps; dlia.
Qed.

(** Demand-driven evaluation of a goal [P (let ... in ...)]: every [let]
    becomes an equation in the context; the equations are then
    substituted back from the last one, normalising after each. *)
Ltac intro_lets P :=
  repeat lazymatch goal with
  | |- P (let x := ?a in @?f x) =>
      let x' := fresh "s" in
      let H := fresh "E" x' in
      apply (hoare_let P a f); intros x' H; cbv beta
  end.

Ltac back_subst :=
  repeat match goal with
  | E : ?x = _ |- _ => is_var x; subst x; norm
  end.

(** C10.  The two revisions of [NormalTimeDisplay] agree: from the same
    [timeNow] in [[0, 43200)], the same [FadeMode] and the same
    [SettingTime], the interrupt-driven revision (halve, add 15, wrap at
    30) and the busy-loop revision (add 30, wrap at 60, halve) leave the
    same six ring positions. *)
Theorem NormalTimeDisplay_revisions_agree (s1 s2 : State) :
  0 <= s1 timeNow < 43200 ->
  s2 timeNow = s1 timeNow ->
  s2 FadeMode = s1 FadeMode ->
  s2 SettingTime = s1 SettingTime ->
  positions (NormalTimeDisplay s1) = positions (BusyLoop.NormalTimeDisplay s2).
Proof.
  intros Ht Et Ef Es.
  assert (Ht1 : 0 <= s1 timeNow <= 43200) by lia.
  assert (Ht2 : 0 <= s2 timeNow <= 43200) by lia.
  set (P1 := fun st : State =>
               positions st = positions (BusyLoop.NormalTimeDisplay s2)).
  change (P1 (NormalTimeDisplay s1)).
  cbv beta delta [NormalTimeDisplay]. intro_lets P1.
  subst P1. cbv beta. symmetry.
  match goal with |- _ = ?r =>
    set (P2 := fun st : State => positions st = r) end.
  change (P2 (BusyLoop.NormalTimeDisplay s2)).
  cbv beta delta [BusyLoop.NormalTimeDisplay]. intro_lets P2.
  subst P2. cbv beta. unfold positions. norm. back_subst.
  rewrite (HrNow_of_eq s1 Ht1), (MinNow_of_eq s1 Ht1), (SecNow_of_eq s1 Ht1).
  rewrite (BusyLoop_HrNow_of_eq s2 Ht2), (BusyLoop_MinNow_of_eq s2 Ht2),
    (BusyLoop_SecNow_of_eq s2 Ht2).
  rewrite Et, Ef, Es.
  assert (Hm : 0 <= (s1 timeNow / 60) mod 60 < 60)
    by (apply Z.mod_pos_bound; lia).
  assert (Hs : 0 <= s1 timeNow mod 60 < 60) by (apply Z.mod_pos_bound; lia).
  rewrite <- !(ring30_agree _ Hm), <- !(ring30_agree _ Hs).
  rewrite (ring30_next _ (ring30_range _ Hm)).
  reflexivity.
Qed.

Lemma NormalTimeDisplay_revisions_agree_witness :
  positions (NormalTimeDisplay idle_state) =
  positions (BusyLoop.NormalTimeDisplay idle_state).
Proof.
  apply NormalTimeDisplay_revisions_agree;
    [ replace (idle_state timeNow) with 1 by (vm_compute; reflexivity); lia
    | reflexivity | reflexivity | reflexivity ].
Defined.

(** ** Table lookups of [NormalFades] *)

Lemma in_table_FadeConv i : in_table FadeConv i <-> 0 <= i < 201.
Proof. unfold in_table. reflexivity. Qed.

Lemma in_table_BusyLoop_FadeConv i :
  in_table BusyLoop.FadeConv i <-> 0 <= i < 201.
Proof. unfold in_table. reflexivity. Qed.

Lemma msNow_of_range (s : State) :
  msNow_of s < 1000 -> 0 <= uint32 (s millisNow - s millisThen) < 1000.
Proof.
  intros H. pose proof (uint32_range (s millisNow - s millisThen)).
  unfold msNow_of in H. lia.
Qed.

Lemma minute_range t : 0 <= (t / 60) mod 60 < 60.
Proof. apply Z.mod_pos_bound. lia. Qed.

Lemma second_range t : 0 <= t mod 60 < 60.
Proof. apply Z.mod_pos_bound. lia. Qed.

Section Lookups.

Variable s : State.
Hypothesis Ht : 0 <= s timeNow <= 43200.
Hypothesis Hms : msNow_of s < 1000.

(** What remains at the leaves: the indices logged on top of the old
    log. *)
Ltac lookups_leaf inb :=
  cbn [lookups upd];
  repeat match goal with
  | |- Forall _ (_ :: _) => apply Forall_cons
  end;
  try assumption;
  subst; rewrite inb;
  rewrite ?(MinNow_of_eq s Ht), ?(SecNow_of_eq s Ht),
    ?(BusyLoop_MinNow_of_eq s Ht), ?(BusyLoop_SecNow_of_eq s Ht);
  repeat match goal with
  | |- context [if ?c then _ else _] => destruct c
  end;
  dwraps; dlia.

Lemma NormalFades_lookups :
  Forall (in_table FadeConv) (lookups s) ->
  Forall (in_table FadeConv) (lookups (NormalFades s)).
Proof.
  intros H0.
  pose proof (msNow_of_range s Hms) as Hms0.
  pose proof (minute_range (s timeNow)) as HM.
  pose proof (second_range (s timeNow)) as HS.
  change ((fun st => Forall (in_table FadeConv) (lookups st)) (NormalFades s)).
  set (P := fun st => Forall (in_table FadeConv) (lookups st)).
  cbv beta delta [NormalFades table_read].
  hoare ltac:(subst P; cbv beta in *; lookups_leaf in_table_FadeConv).
Qed.

Lemma BusyLoop_NormalFades_lookups :
  Forall (in_table BusyLoop.FadeConv) (lookups s) ->
  Forall (in_table BusyLoop.FadeConv) (lookups (BusyLoop.NormalFades s)).
Proof.
  intros H0.
  pose proof (msNow_of_range s Hms) as Hms0.
  pose proof (minute_range (s timeNow)) as HM.
  pose proof (second_range (s timeNow)) as HS.
  set (P := fun st => Forall (in_table BusyLoop.FadeConv) (lookups st)).
  change (P (BusyLoop.NormalFades s)).
  cbv beta delta [BusyLoop.NormalFades table_read].
  hoare ltac:(subst P; cbv beta in *; lookups_leaf in_table_BusyLoop_FadeConv).
Qed.

End Lookups.


(** ** The real-time clock *)

(** A property of all numbers below a bound, decided by enumeration. *)
Lemma forall_below (P : Z -> bool) (n : nat) :
  forallb P (map Z.of_nat (seq 0 n)) = true ->
  forall m, 0 <= m < Z.of_nat n -> P m = true.
Proof.
  intros H m Hm. rewrite forallb_forall in H. apply H.
  rewrite in_map_iff. exists (Z.to_nat m). split; [lia|].
  apply in_seq. lia.
Qed.

(** The decoded minutes are zero exactly when the minutes register is. *)
Lemma bcd_minutes_zero m : 0 <= m < 256 -> (bcd 240 m =? 0) = (m =? 0).
Proof.
  intros Hm.
  apply Bool.eqb_prop.
  apply (forall_below (fun m => Bool.eqb (bcd 240 m =? 0) (m =? 0)) 256);
    [ vm_compute; reflexivity | lia ].
Qed.

Lemma labs_abs x : -2147483648 < x < 2147483648 -> labs x = Z.abs x.
Proof.
  intros Hx. unfold labs. destruct (0 <? x) eqn:C; b2p.
  - lia.
  - rewrite int32_small by lia. lia.
Qed.

(** After a successful read the first-read flag is clear. *)
Lemma RTCgetTime_clears_UpdateRTC (s : State) (answer : Z * Z * Z) :
  snd (RTCgetTime (Some answer) s) UpdateRTC = 0.
Proof.
  destruct answer as [[seconds minutes] hours].
  unfold RTCgetTime. cbv zeta. cbn [snd Wire_write vars].
  destruct (truthy (s UpdateRTC)) eqn:U.
  - cbn [truthy Z.eqb negb snd vars upd Var_beq]. reflexivity.
  - unfold truthy in U. apply negb_false_iff, Z.eqb_eq in U.
    match goal with |- context [if truthy ?c then _ else _] =>
      destruct (truthy c) end; cbn [snd vars upd Var_beq];
      [ reflexivity | exact U ].
Qed.

(** What one successful read does to [timeNow]. *)
Lemma RTCgetTime_timeNow (s : State) (seconds minutes hours : Z) :
  -32768 <= s timeNow <= 43200 ->
  0 <= minutes < 256 ->
  snd (RTCgetTime (Some (seconds, minutes, hours)) s) timeNow =
    if truthy (s UpdateRTC)
       || (negb (minutes =? 0)
           && (2 <? Z.abs (timeRTC_of seconds minutes hours - s timeNow)))
    then timeRTC_of seconds minutes hours
    else s timeNow.
Proof.
  intros Ht Hm.
  pose proof (timeRTC_of_range seconds minutes hours) as Hr.
  unfold RTCgetTime. cbv zeta. cbn [snd Wire_write vars].
  unfold truthy. rewrite (bcd_minutes_zero minutes Hm).
  rewrite (int32_small (timeRTC_of seconds minutes hours - _)) by lia.
  rewrite labs_abs by lia.
  destruct (minutes =? 0); cbn [negb andb];
    destruct (s UpdateRTC =? 0); cbn [negb orb];
    try destruct (2 <? _); reflexivity.
Qed.

(** C8.  [RTCgetTime], when the clock chip answers, overwrites [timeNow]
    with the time derived from the chip exactly when this is the first
    read since power-on ([UpdateRTC] set), or the minutes register is not
    zero and the two times differ by more than 2 seconds.  With the
    minutes register at zero and [UpdateRTC] clear, [timeNow] is left
    alone whatever the discrepancy.  The read clears [UpdateRTC], so that
    only one read is a first read: a read that follows it, whatever the
    chip answers, overwrites [timeNow] only for minutes other than zero
    and a discrepancy of more than 2 seconds. *)
Theorem RTCgetTime_correction_policy (s : State) (seconds minutes hours : Z) :
  0 <= s timeNow <= 43200 ->
  0 <= minutes < 256 ->
  (snd (RTCgetTime (Some (seconds, minutes, hours)) s) timeNow =
     if truthy (s UpdateRTC)
        || (negb (minutes =? 0)
            && (2 <? Z.abs (timeRTC_of seconds minutes hours - s timeNow)))
     then timeRTC_of seconds minutes hours
     else s timeNow) /\
  snd (RTCgetTime (Some (seconds, minutes, hours)) s) UpdateRTC = 0 /\
  (forall seconds' minutes' hours',
     0 <= minutes' < 256 ->
     let s' := snd (RTCgetTime (Some (seconds, minutes, hours)) s) in
     snd (RTCgetTime (Some (seconds', minutes', hours')) s') timeNow =
       if negb (minutes' =? 0)
          && (2 <? Z.abs (timeRTC_of seconds' minutes' hours' - s' timeNow))
       then timeRTC_of seconds' minutes' hours'
       else s' timeNow).
Proof.
  intros Ht Hm.
  assert (E := RTCgetTime_timeNow s seconds minutes hours ltac:(lia) Hm).
  assert (U := RTCgetTime_clears_UpdateRTC s (seconds, minutes, hours)).
  split; [exact E|]. split; [exact U|].
  intros seconds' minutes' hours' Hm'. cbv zeta.
  rewrite RTCgetTime_timeNow; [ | | exact Hm' ].
  - rewrite U. reflexivity.
  - rewrite E. pose proof (timeRTC_of_range seconds minutes hours).
    destruct (_ || _); lia.
Qed.

Lemma RTCgetTime_correction_policy_witness :
  (* eight seconds off at 0:00:08 by the chip: accepted on the first read,
     skipped afterwards because the minutes register is zero *)
  snd (RTCgetTime (Some (8, 0, 0)) (idle_state <| UpdateRTC := 0 |>)) timeNow
    = 1 /\
  snd (RTCgetTime (Some (8, 0, 0)) (idle_state <| UpdateRTC := 1 |>)) timeNow
    = 8 /\
  snd (RTCgetTime (Some (8, 0, 0)) (idle_state <| UpdateRTC := 1 |>)) UpdateRTC
    = 0.
Proof.
  destruct (RTCgetTime_correction_policy (idle_state <| UpdateRTC := 0 |>)
              8 0 0) as [A _];
    [ vm_compute; split; discriminate | lia | ].
  destruct (RTCgetTime_correction_policy (idle_state <| UpdateRTC := 1 |>)
              8 0 0) as [B [C _]];
    [ vm_compute; split; discriminate | lia | ].
  rewrite A, B, C. repeat apply conj; vm_compute; reflexivity.
Defined.

(** ** The settings store *)

Lemma EEReadSettings_store s :
  eeprom (EEReadSettings s) = eeprom s /\
  eewrites (EEReadSettings s) = eewrites s.
Proof.
  unfold EEReadSettings. cbv zeta.
  repeat match goal with
  | |- context [if ?c then (_, _) else (_, _)] => destruct c
  end; cbv iota beta;
  repeat match goal with
  | |- context [if ?c then _ else _] => destruct c
  end; split; reflexivity.
Qed.

(** What [EEReadSettings] leaves in the six settings. *)
Lemma EEReadSettings_settings s :
  (rejected (stored s) -> settings (EEReadSettings s) = factory_defaults) /\
  (~ rejected (stored s) ->
   settings (EEReadSettings s) =
   (if EEPROM_read 0 s =? 0 then 1 else EEPROM_read 0 s) :: tl (stored s)).
Proof.
  unfold rejected, stored, settings, EEReadSettings. cbv zeta. cbn [tl].
  destruct (8 <? EEPROM_read 0 s) eqn:C0;
  destruct (EEPROM_read 0 s =? 0) eqn:Z0;
  destruct (63 <? EEPROM_read 1 s) eqn:C1;
  destruct (63 <? EEPROM_read 2 s) eqn:C2;
  destruct (63 <? EEPROM_read 3 s) eqn:C3;
  destruct (1 <? EEPROM_read 4 s) eqn:C4;
  destruct (EEPROM_read 5 s =? 255) eqn:C5;
  unfold ApplyDefaults, EEPROM_read in *; cbv zeta;
  repeat (progress
    (cbv iota beta; cbn [truthy Z.eqb negb vars upd Var_beq eeprom];
     rewrite ?C0, ?Z0, ?C1, ?C2, ?C3, ?C4, ?C5));
  b2p; (split; intros R; [ try reflexivity; exfalso; lia
                         | try reflexivity; exfalso; apply R; lia ]).
Qed.

(** C4, in the form the code satisfies.  [EEReadSettings] replaces all
    six settings by the factory defaults whenever the stored main
    brightness exceeds 8, a stored channel brightness exceeds 63, the
    stored rotation flag exceeds 1, or the stored fade byte is 255.  In
    every other case it loads the six stored bytes as they are, except
    that a stored main brightness of 0 is loaded as 1: that field alone is
    repaired. *)
Theorem EEReadSettings_substitutes_defaults (s : State) :
  (rejected (stored s) -> settings (EEReadSettings s) = factory_defaults) /\
  (~ rejected (stored s) ->
   settings (EEReadSettings s) =
   (if EEPROM_read 0 s =? 0 then 1 else EEPROM_read 0 s) :: tl (stored s)).
Proof. apply EEReadSettings_settings. Qed.

Lemma EEReadSettings_substitutes_defaults_witness :
  settings (EEReadSettings (power_on (cells_of [9; 10; 20; 30; 1; 2])))
    = [8; 63; 63; 63; 0; 1] /\
  settings (EEReadSettings (power_on (cells_of [0; 10; 20; 30; 1; 2])))
    = [1; 10; 20; 30; 1; 2].
Proof.
  split.
  - rewrite (proj1 (EEReadSettings_substitutes_defaults _));
      [ reflexivity | vm_compute; left; reflexivity ].
  - rewrite (proj2 (EEReadSettings_substitutes_defaults _));
      [ vm_compute; reflexivity
      | vm_compute; intros [H | [H | [H | [H | [H | H]]]]]; discriminate H ].
Defined.

(** C4 as the specification states it fails: a stored main brightness of
    0 is outside [[1, 8]], yet the other stored fields are kept. *)
Lemma load_contract_fails :
  ~ load_contract (power_on (cells_of [0; 10; 20; 30; 1; 2])).
Proof.
  unfold load_contract. intros H.
  assert (E : settings (EEReadSettings (power_on (cells_of [0; 10; 20; 30; 1; 2])))
              = factory_defaults).
  { apply H. unfold in_valid_range, stored.
    replace (EEPROM_read 0 _) with 0 by (vm_compute; reflexivity). lia. }
  vm_compute in E. discriminate E.
Qed.

(** ** Saving *)

Lemma EEUpdate_writes loc val s :
  eewrites (EEUpdate loc val s) =
  if EEPROM_read loc s =? val then eewrites s
  else (loc, byte val) :: eewrites s.
Proof. unfold EEUpdate. destruct (EEPROM_read loc s =? val); reflexivity. Qed.

Lemma EEUpdate_same loc val s :
  EEPROM_read loc s = val -> EEUpdate loc val s = s.
Proof. intros E. unfold EEUpdate. rewrite E, Z.eqb_refl. reflexivity. Qed.

Lemma EESaveSettings_silent s :
  stored s = settings s -> eewrites (EESaveSettings s) = eewrites s.
Proof.
  unfold stored, settings. intros E. injection E as E0 E1 E2 E3 E4 E5.
  unfold EESaveSettings. cbv zeta.
  rewrite (EEUpdate_same 0) by assumption.
  rewrite (EEUpdate_same 1) by assumption.
  rewrite (EEUpdate_same 2) by assumption.
  rewrite (EEUpdate_same 3) by assumption.
  rewrite (EEUpdate_same 4) by assumption.
  rewrite (EEUpdate_same 5) by assumption.
  reflexivity.
Qed.

Lemma stored_EEReadSettings s : stored (EEReadSettings s) = stored s.
Proof.
  unfold stored, EEPROM_read.
  rewrite (proj1 (EEReadSettings_store s)). reflexivity.
Qed.

(** C7, in the form the code satisfies.  [EEUpdate] issues a write
    exactly when the stored byte differs from the new value; and saving
    right after loading issues no write at all provided the load accepted
    the stored bytes as they were (none rejected, main brightness not
    0). *)
Theorem EESaveSettings_write_economy (s : State) :
  (forall loc val,
     eewrites (EEUpdate loc val s) =
     if EEPROM_read loc s =? val then eewrites s
     else (loc, byte val) :: eewrites s) /\
  (~ rejected (stored s) -> EEPROM_read 0 s <> 0 -> save_after_load_silent s).
Proof.
  split.
  - intros. apply EEUpdate_writes.
  - intros R N. unfold save_after_load_silent.
    rewrite EESaveSettings_silent.
    + apply (proj2 (EEReadSettings_store s)).
    + rewrite stored_EEReadSettings.
      rewrite (proj2 (EEReadSettings_settings s) R).
      apply Z.eqb_neq in N. rewrite N. reflexivity.
Qed.

Lemma EESaveSettings_write_economy_witness :
  save_after_load_silent (power_on (cells_of [3; 10; 20; 30; 1; 2])).
Proof.
  apply (proj2 (EESaveSettings_write_economy _)).
  - vm_compute. intros [H | [H | [H | [H | [H | H]]]]]; discriminate H.
  - vm_compute. discriminate.
Defined.

(** C7 as the specification states it fails: after loading an erased
    EEPROM the defaults differ from the stored bytes, and saving writes all
    six. *)
Lemma save_after_load_writes :
  ~ save_after_load_silent (power_on erased).
Proof. unfold save_after_load_silent. vm_compute. discriminate. Qed.

(** ** Sleep and the three modes *)

Lemma reachable_run inputs s : reachable s -> reachable (run inputs s).
Proof.
  revert s. induction inputs as [|i rest IH]; intros s R; [exact R|].
  cbn [run]. apply IH. apply reachable_loop. exact R.
Qed.

Section SleepTrace.

Variable s0 : State.

Lemma sleep_trace_reads_only : reads_only mode_vars (sleep_trace s0).
Proof.
  intros s s' H. unfold sleep_trace.
  rewrite (H SleepMode), (H SettingTime), (H AlignMode), (H OptionMode)
    by reflexivity.
  auto.
Qed.

Ltac base_of e :=
  lazymatch e with
  | upd _ _ ?s => base_of s
  | _ => e
  end.

(** Only the assertion about the state being updated is of use. *)
Ltac latest_only :=
  lazymatch goal with
  | |- sleep_trace _ ?e =>
      let st := base_of e in
      repeat match goal with
      | H : sleep_trace _ ?x |- _ =>
          tryif constr_eq x st then fail else clear H
      end
  end.

Ltac trace_arith :=
  latest_only;
  unfold sleep_trace, Inv, modes_exclusive in *; norm;
  cbn [vars upd Var_beq] in *; b2p; wraps; lia.

Ltac trace_leaf :=
  idtac;
  lazymatch goal with
  | |- sleep_trace s0 (IncrAlignVal _) =>
      apply (reads_only_keeps _ _ _ _ sleep_trace_reads_only
               IncrAlignVal_keeps); [ reflexivity | trace_leaf ]
  | |- sleep_trace s0 (DecrAlignVal _) =>
      apply (reads_only_keeps _ _ _ _ sleep_trace_reads_only
               DecrAlignVal_keeps); [ reflexivity | trace_leaf ]
  | |- sleep_trace s0 (upd _ _ _) => trace_arith
  | |- sleep_trace s0 _ => assumption
  end.

Lemma PlusReleased_trace s :
  sleep_trace s0 s -> sleep_trace s0 (PlusReleased s).
Proof. intros I. cbv beta delta [PlusReleased]. hoare trace_leaf. Qed.

Lemma MinusReleased_trace s :
  sleep_trace s0 s -> sleep_trace s0 (MinusReleased s).
Proof. intros I. cbv beta delta [MinusReleased]. hoare trace_leaf. Qed.

(** The "Z" button steps the active mode, which stays active while it is
    within its range. *)
Lemma ZReleased_trace s :
  Inv s -> sleep_trace s0 s -> sleep_trace s0 (ZReleased s).
Proof.
  intros I T. cbv beta delta [ZReleased]. paths trace_leaf.
Qed.

Lemma CheckButtons_trace p s :
  Inv s -> sleep_trace s0 s -> sleep_trace s0 (CheckButtons p s).
Proof.
  intros I0 T0.
  set (trace := fun st => Inv st /\ sleep_trace s0 st).
  assert (I : trace s) by (split; assumption).
  clear I0 T0. enough (trace (CheckButtons p s)) as [_ T] by exact T.
  assert (U : forall st x v, mem x (timeNow :: mode_vars) = false ->
                trace st -> trace (st <| x := v |>)).
  { intros st x v Hx [A B]. split.
    - revert A. apply Inv_reads_only. intros y Hy. cbn [vars upd].
      destruct (Var_beq x y) eqn:E; [|reflexivity].
      apply internal_Var_dec_bl in E. subst y.
      destruct x; discriminate.
    - revert B. apply sleep_trace_reads_only. intros y Hy. cbn [vars upd].
      destruct (Var_beq x y) eqn:E; [|reflexivity].
      apply internal_Var_dec_bl in E. subst y.
      destruct x; discriminate. }
  cbv beta delta [CheckButtons].
  hoare ltac:(idtac; repeat lazymatch goal with
              | |- trace (PlusReleased ?x) =>
                  enough (trace x) as [? ?] by
                    (split; [apply PlusReleased_Inv | apply PlusReleased_trace];
                     assumption)
              | |- trace (MinusReleased ?x) =>
                  enough (trace x) as [? ?] by
                    (split; [apply MinusReleased_Inv | apply MinusReleased_trace];
                     assumption)
              | |- trace (ZReleased ?x) =>
                  enough (trace x) as [? ?] by
                    (split; [apply ZReleased_Inv | apply ZReleased_trace];
                     assumption)
              | |- trace (upd _ _ _) => apply U; [reflexivity|]
              | |- trace _ => assumption
              end).
Qed.

End SleepTrace.

(** [loop] writes [SleepMode] only in [CheckButtons]. *)
Lemma loop_SleepMode i s :
  loop i s SleepMode =
  CheckButtons (in_PIND i) (s <| millisNow := uint32 (in_millis i) |>) SleepMode.
Proof.
  unfold loop. cbv zeta.
  match goal with |- context [loop_second ?i ?R ?x] =>
    assert (K : snd (loop_second i R x) SleepMode = x SleepMode);
    [ | destruct (loop_second i R x) as [R' s'] ]
  end.
  - unfold loop_second. destruct (1000 <=? _); [|reflexivity].
    destruct (in_held i) as [[[p0 p1] p2] p3]. cbv zeta.
    match goal with |- context [tick ?x] =>
      pose proof (tick_frame x SleepMode eq_refl) as T;
      destruct (tick x) as [b s'] end.
    cbn [snd] in *. rewrite T. norm. reflexivity.
  - cbn [snd] in K. norm. exact K.
Qed.

(** *** What puts the clock to sleep *)

Lemma released_reads bit c (s s' : State) :
  s' PINDLast = s PINDLast -> released bit c s' = released bit c s.
Proof. unfold released. intros ->. reflexivity. Qed.

Ltac awake_leaf :=
  idtac;
  lazymatch goal with
  | |- awake_since _ (IncrAlignVal _) =>
      unfold awake_since in *; norm; assumption
  | |- awake_since _ (DecrAlignVal _) =>
      unfold awake_since in *; norm; assumption
  | |- awake_since _ (upd _ _ _) =>
      unfold awake_since in *; norm; cbn [vars upd Var_beq] in *;
      first [ assumption | split; first [ reflexivity | tauto ] ]
  | |- awake_since _ _ => assumption
  end.

(** The releases of "+" and "-" do not put the clock to sleep, and leave
    the last sample of the port alone. *)
Lemma PlusReleased_awake s0 s :
  awake_since s0 s -> awake_since s0 (PlusReleased s).
Proof. intros I. cbv beta delta [PlusReleased]. hoare awake_leaf. Qed.

Lemma MinusReleased_awake s0 s :
  awake_since s0 s -> awake_since s0 (MinusReleased s).
Proof. intros I. cbv beta delta [MinusReleased]. hoare awake_leaf. Qed.

(** Without a release of "Z", [CheckButtons] leaves the clock awake. *)
Lemma CheckButtons_awake p (s : State) :
  s SleepMode = 0 ->
  released 128 (byte (Z.land p buttonmask)) s = false ->
  CheckButtons p s SleepMode = 0.
Proof.
  intros A R. unfold CheckButtons. cbv zeta. cbn [vars upd Var_beq].
  destruct (negb _); [|exact A].
  match goal with |- context [released 32 ?c ?x] =>
    assert (A1 : awake_since s x) by (split; [exact A | reflexivity]);
    set (s1 := x) in *
  end.
  match goal with |- context [released 64 ?c ?x] =>
    assert (A2 : awake_since s x)
      by (destruct (released 32 c s1);
          [ apply PlusReleased_awake | ]; exact A1);
    set (s2 := x) in *
  end.
  match goal with |- context [released 128 ?c ?x] =>
    assert (A3 : awake_since s x)
      by (destruct (released 64 c s2);
          [ apply MinusReleased_awake | ]; exact A2);
    set (s3 := x) in *
  end.
  destruct A3 as [A3 P3]. rewrite (released_reads 128 _ s s3 P3), R.
  exact A3.
Qed.

(** C5, in the form the code satisfies.  In every reachable state at most
    one of [AlignMode], [OptionMode] and [SettingTime] is nonzero; and an
    iteration of [loop] turns [SleepMode] on only by a release of "Z"
    (bit 128 of the port goes from down at the last sample to up), from a
    state in which all three are zero.  (Nothing turns [SleepMode] off
    when a hold then enters a mode.) *)
Theorem modes_exclusive_reachable (s : State) :
  reachable s ->
  modes_exclusive s /\
  (forall i, s SleepMode = 0 -> loop i s SleepMode <> 0 ->
             released 128 (byte (Z.land (in_PIND i) buttonmask)) s = true /\
             s AlignMode = 0 /\ s OptionMode = 0 /\ s SettingTime = 0).
Proof.
  intros R. split.
  - apply reachable_Inv in R. apply R.
  - intros i Z N. rewrite loop_SleepMode in N. split.
    + destruct (released 128 _ s) eqn:E; [reflexivity|]. exfalso. apply N.
      apply CheckButtons_awake; [ exact Z | ].
      rewrite <- E. apply released_reads. reflexivity.
    + assert (T : sleep_trace s (s <| millisNow := uint32 (in_millis i) |>)).
      { unfold sleep_trace. cbn [vars upd Var_beq]. tauto. }
      apply (CheckButtons_trace s (in_PIND i)) in T.
      * destruct T as [A _]. exact (A N).
      * apply reachable_Inv in R. revert R. apply Inv_reads_only.
        intros y Hy. destruct y; try discriminate Hy; reflexivity.
Qed.

Lemma modes_exclusive_reachable_witness :
  modes_exclusive idle_state /\
  (forall i, idle_state SleepMode = 0 -> loop i idle_state SleepMode <> 0 ->
             released 128 (byte (Z.land (in_PIND i) buttonmask)) idle_state
               = true /\
             idle_state AlignMode = 0 /\ idle_state OptionMode = 0 /\
             idle_state SettingTime = 0).
Proof.
  apply modes_exclusive_reachable.
  unfold idle_state. apply reachable_loop, reachable_setup.
Defined.

(** C5 as the specification states it fails: asleep, and in time-setting
    mode.  A short press of "Z" puts the clock to sleep, and holding "Z"
    for three seconds then enters time-setting mode with [SleepMode] still
    set. *)
Lemma sleep_with_time_setting :
  reachable asleep_setting /\ ~ modes_contract asleep_setting.
Proof.
  split.
  - apply reachable_run, reachable_setup.
  - intros [_ C].
    assert (N : asleep_setting SleepMode <> 0) by (vm_compute; discriminate).
    destruct (C N) as [_ [_ S]].
    vm_compute in S. discriminate S.
Qed.

(** ** The range of the clock time *)

(** What does hold of [timeNow] in every reachable state: the upper bound
    is included, and below there is only the bound of the 16-bit sum of
    the serial sync. *)
Lemma reachable_time_range (s : State) :
  reachable s -> -32768 <= s timeNow <= 43200.
Proof. intros R. apply reachable_Inv in R. apply R. Qed.

(** C1.  The tick does not keep [timeNow] below 43200: with the real-time
    clock read at 11:59:59 on power-on, [timeNow] is 43199, and the second
    that then goes by in [loop] leaves it at 43200, in a reachable state.
    The wrap in [loop] tests [timeNow > 43200]. *)
Theorem tick_reaches_43200 :
  reachable before_noon /\
  before_noon timeNow = 43199 /\
  reachable (loop (second_with 224 before_noon) before_noon) /\
  loop (second_with 224 before_noon) before_noon timeNow = 43200.
Proof.
  split; [ apply reachable_setup | ].
  split; [ vm_compute; reflexivity | ].
  split; [ apply reachable_loop, reachable_setup | ].
  vm_compute. reflexivity.
Qed.

(** The same slip in the "+" adjustment of the hour: from 11:00:00 it
    yields 43200. *)
Lemma PlusReleased_hour_reaches_43200 (s : State) :
  s MomentaryOverridePlus = 0 -> s SleepMode = 0 -> s AlignMode = 0 ->
  s OptionMode = 0 -> s SettingTime = 1 -> s timeNow = 39600 ->
  PlusReleased s timeNow = 43200.
Proof.
  intros M Z A O S T. unfold PlusReleased, truthy.
  rewrite M, Z, A, O, S. cbn [Z.eqb negb]. cbv zeta. norm.
  rewrite S, T. reflexivity.
Qed.

(** The tick keeps the time-setting sub-state. *)
Lemma tick_frame_SettingTime (s : State) : snd (tick s) SettingTime = s SettingTime.
Proof. apply tick_frame. reflexivity. Qed.

(** ** The tick *)

(** Below 11:59:59 the tick adds one second. *)
Lemma tick_advances (s : State) :
  s SettingTime < 4 -> 0 <= s timeNow < 43200 ->
  snd (tick s) timeNow = s timeNow + 1.
Proof.
  intros S T. unfold tick. apply Z.ltb_lt in S. rewrite S. cbv zeta. norm.
  rewrite int32_small by lia.
  destruct (43200 <? s timeNow + 1) eqn:C; b2p; norm; [lia | reflexivity].
Qed.

(** The wrap happens one second late, and leads to 1. *)
Lemma tick_wraps_late (s : State) :
  s SettingTime < 4 -> s timeNow = 43200 -> snd (tick s) timeNow = 1.
Proof.
  intros S T. unfold tick. apply Z.ltb_lt in S. rewrite S. cbv zeta. norm.
  rewrite T. reflexivity.
Qed.

(** While the seconds run backward the clock does not advance. *)
Lemma tick_suppressed (s : State) :
  s SettingTime = 4 -> tick s = (false, s).
Proof. intros S. unfold tick. rewrite S. reflexivity. Qed.

Lemma ticks_count n (s : State) :
  s SettingTime < 4 -> 0 <= s timeNow -> s timeNow + Z.of_nat n <= 43200 ->
  ticks n s timeNow = s timeNow + Z.of_nat n.
Proof.
  revert s. induction n as [|n IH]; intros s S T0 T1.
  - cbn [ticks]. lia.
  - cbn [ticks]. rewrite IH.
    + rewrite tick_advances by lia. lia.
    + rewrite tick_frame_SettingTime. exact S.
    + rewrite tick_advances by lia. lia.
    + rewrite tick_advances by lia. lia.
Qed.

(** 43200 ticks from midnight end at 43200, not at 0. *)
Lemma ticks_12_hours : ticks (Z.to_nat 43200) cold_start timeNow = 43200.
Proof.
  rewrite ticks_count.
  - vm_compute. reflexivity.
  - vm_compute. reflexivity.
  - vm_compute. discriminate.
  - vm_compute. discriminate.
Qed.

(** C2.  Outside the seconds-backward sub-state the tick from 11:59:59
    does not wrap to 0: it yields 43200, where advancing by one second
    modulo 43200 yields 0. *)
Theorem tick_does_not_wrap_at_noon :
  before_noon SettingTime = 0 /\
  before_noon timeNow = 43199 /\
  fst (tick before_noon) = true /\
  snd (tick before_noon) timeNow = 43200 /\
  (before_noon timeNow + 1) mod 43200 = 0.
Proof. repeat apply conj; vm_compute; reflexivity. Qed.

(** ** The dwell values *)

Lemma shiftr_div x n : 0 <= n -> Z.shiftr x n = x / 2 ^ n.
Proof. intros H. apply Z.shiftr_div_pow2. exact H. Qed.

(** C3.  With the brightness values in their ranges the interrupt-driven
    revision computes the product divided by 256, half of what the
    specification gives; the busy-loop revision divides by 128. *)
Theorem dwell_divides_by_256 (b f t : Z) :
  0 <= b <= 63 -> 0 <= f <= 63 -> 0 <= t <= 8 ->
  dwell b f t = b * f * t / 256 /\
  BusyLoop.dwell b f t = spec_dwell b f t.
Proof.
  intros Hb Hf Ht.
  assert (P1 : 0 <= b * f <= 3969) by nia.
  assert (P2 : 0 <= b * f * t <= 31752) by nia.
  unfold dwell, BusyLoop.dwell, spec_dwell.
  rewrite (int16_small (b * f)) by lia.
  rewrite (int16_small (b * f * t)) by lia.
  rewrite !shiftr_div by lia.
  change (2 ^ (7 + 1)) with 256. change (2 ^ 7) with 128.
  split; apply byte_small; dlia.
Qed.

Lemma dwell_divides_by_256_witness :
  dwell 63 63 8 = 124 /\ spec_dwell 63 63 8 = 248 /\
  BusyLoop.dwell 63 63 8 = 248.
Proof.
  destruct (dwell_divides_by_256 63 63 8) as [A B]; [lia | lia | lia |].
  rewrite A, B. repeat apply conj; vm_compute; reflexivity.
Defined.

(** On the first pass through [loop] after power-on every factor is at its
    maximum, and [D0] is 124. *)
Lemma first_pass_dwell :
  first_pass HourBright = 63 /\ first_pass HrFade1 = 63 /\
  tempbright_of first_pass = 8 /\ first_pass D0 = 124.
Proof. repeat apply conj; vm_compute; reflexivity. Qed.

(** Neither revision adds 1: a dwell is zero at low brightness although
    no factor is. *)
Lemma dwell_zero_at_low_brightness :
  dwell 1 1 1 = 0 /\ dwell 3 5 8 = 0 /\ BusyLoop.dwell 1 1 1 = 0.
Proof. repeat apply conj; vm_compute; reflexivity. Qed.

(** ** Holds *)

(** From the idle state, each of the three combinations ("+" and "-" read
    128, "+" and "Z" read 64, "Z" alone reads 96) fires nothing in two
    seconds and once in three. *)
Lemma hold_two_then_three :
  fst (hold 128 2 idle_state) = 0%nat /\ fst (hold 128 3 idle_state) = 1%nat /\
  fst (hold 64 2 idle_state) = 0%nat /\ fst (hold 64 3 idle_state) = 1%nat /\
  fst (hold 96 2 idle_state) = 0%nat /\ fst (hold 96 3 idle_state) = 1%nat.
Proof. repeat apply conj; vm_compute; reflexivity. Qed.

(** The transition arms the overrides of the buttons of the combination. *)
Lemma hold_arms_overrides :
  (let s := snd (hold 128 3 idle_state) in
   (s MomentaryOverridePlus, s MomentaryOverrideMinus, s MomentaryOverrideZ)
   = (1, 1, 0) /\ s AlignMode = 1) /\
  (let s := snd (hold 64 3 idle_state) in
   (s MomentaryOverridePlus, s MomentaryOverrideMinus, s MomentaryOverrideZ)
   = (1, 0, 1) /\ s OptionMode = 1) /\
  (let s := snd (hold 96 3 idle_state) in
   (s MomentaryOverridePlus, s MomentaryOverrideMinus, s MomentaryOverrideZ)
   = (0, 0, 1) /\ s SettingTime = 1).
Proof. repeat apply conj; vm_compute; reflexivity. Qed.

(** C6.  A hold fires more than once.  The counters are bytes that
    [CheckHeld] increments without a ceiling and resets only when no
    button is down: with "+" and "-" held from the idle state the
    transition of the third second fires again in the 259th, when
    [HoldAlign] is 3 again; and it fires again in the fourth second when
    "+" is let go and "-" stays down, a reading that leaves [HoldAlign] at
    3.  Either way the alignment mode entered in the third second is
    left. *)
Theorem hold_fires_again :
  hold_report (hold 128 2 idle_state) = (0%nat, 2, 0) /\
  hold_report (hold 128 3 idle_state) = (1%nat, 3, 1) /\
  hold_report (hold 128 258 idle_state) = (1%nat, 2, 1) /\
  hold_report (hold 128 259 idle_state) = (2%nat, 3, 0) /\
  hold_report (hold 160 1 (snd (hold 128 3 idle_state))) = (1%nat, 3, 0).
Proof. repeat apply conj; vm_compute; reflexivity. Qed.

(** ** The elapsed milliseconds *)


(** ** The log of lookups *)

(** Only [NormalFades] reads [FadeConv]: everything else leaves the log of
    lookups as it is. *)

Lemma upd_log L x v s : lookups_are L s -> lookups_are L (s <| x := v |>).
Proof. exact (fun H => H). Qed.

Lemma EEUpdate_log_kept L loc val s :
  lookups_are L s -> lookups_are L (EEUpdate loc val s).
Proof. unfold EEUpdate. destruct (negb _); exact (fun H => H). Qed.

Lemma RTCsetTime_log L t s : lookups_are L s -> lookups_are L (RTCsetTime t s).
Proof. exact (fun H => H). Qed.

Ltac log_call := idtac; fail.

Ltac log_leaf :=
  repeat lazymatch goal with
  | |- lookups_are _ (upd _ _ _) => apply upd_log
  | |- lookups_are _ (EEUpdate _ _ _) => apply EEUpdate_log_kept
  | |- lookups_are _ (RTCsetTime _ _) => apply RTCsetTime_log
  | |- lookups_are _ _ => first [ assumption | log_call ]
  end.

Ltac log F :=
  let K := fresh "K" in
  intros K; cbv beta delta [F]; hoare log_leaf.

Lemma IncrAlignVal_log L s : lookups_are L s -> lookups_are L (IncrAlignVal s).
Proof. log IncrAlignVal. Qed.

Lemma DecrAlignVal_log L s : lookups_are L s -> lookups_are L (DecrAlignVal s).
Proof. log DecrAlignVal. Qed.

Lemma NormalTimeDisplay_log L s :
  lookups_are L s -> lookups_are L (NormalTimeDisplay s).
Proof. log NormalTimeDisplay. Qed.

Lemma ApplyDefaults_log L s : lookups_are L s -> lookups_are L (ApplyDefaults s).
Proof. log ApplyDefaults. Qed.

Lemma Blink_log L s : lookups_are L s -> lookups_are L (Blink s).
Proof. log Blink. Qed.

Ltac log_call ::=
  idtac;
  lazymatch goal with
  | |- lookups_are _ (IncrAlignVal _) => apply IncrAlignVal_log
  | |- lookups_are _ (DecrAlignVal _) => apply DecrAlignVal_log
  | |- lookups_are _ (NormalTimeDisplay _) => apply NormalTimeDisplay_log
  | |- lookups_are _ (ApplyDefaults _) => apply ApplyDefaults_log
  | |- lookups_are _ (Blink _) => apply Blink_log
  end.

Lemma EESaveSettings_log L s :
  lookups_are L s -> lookups_are L (EESaveSettings s).
Proof. log EESaveSettings. Qed.

Lemma AlignDisplay_log L s : lookups_are L s -> lookups_are L (AlignDisplay s).
Proof. log AlignDisplay. Qed.

Lemma OptionDisplay_log L s : lookups_are L s -> lookups_are L (OptionDisplay s).
Proof. log OptionDisplay. Qed.

Lemma PlusReleased_log L s : lookups_are L s -> lookups_are L (PlusReleased s).
Proof. log PlusReleased. Qed.

Lemma MinusReleased_log L s : lookups_are L s -> lookups_are L (MinusReleased s).
Proof. log MinusReleased. Qed.

Lemma ZReleased_log L s : lookups_are L s -> lookups_are L (ZReleased s).
Proof. log ZReleased. Qed.

Ltac log_call ::=
  idtac;
  lazymatch goal with
  | |- lookups_are _ (IncrAlignVal _) => apply IncrAlignVal_log
  | |- lookups_are _ (DecrAlignVal _) => apply DecrAlignVal_log
  | |- lookups_are _ (NormalTimeDisplay _) => apply NormalTimeDisplay_log
  | |- lookups_are _ (ApplyDefaults _) => apply ApplyDefaults_log
  | |- lookups_are _ (Blink _) => apply Blink_log
  | |- lookups_are _ (EESaveSettings _) => apply EESaveSettings_log
  | |- lookups_are _ (AlignDisplay _) => apply AlignDisplay_log
  | |- lookups_are _ (OptionDisplay _) => apply OptionDisplay_log
  | |- lookups_are _ (PlusReleased _) => apply PlusReleased_log
  | |- lookups_are _ (MinusReleased _) => apply MinusReleased_log
  | |- lookups_are _ (ZReleased _) => apply ZReleased_log
  end.











(** ** Table lookups in the reachable states *)









(** * Further properties of the firmware *)

(** ** Saving and loading *)

Lemma EEUpdate_read loc val loc' s :
  0 <= val < 256 ->
  EEPROM_read loc' (EEUpdate loc val s) =
  if loc' =? loc then val else EEPROM_read loc' s.
Proof.
  intros Hv. unfold EEUpdate. cbv zeta.
  destruct (EEPROM_read loc s =? val) eqn:E; cbn [negb].
  - destruct (loc' =? loc) eqn:L; [|reflexivity].
    apply Z.eqb_eq in L, E. subst loc'. exact E.
  - unfold EEPROM_read, EEPROM_write. cbn [eeprom].
    destruct (loc' =? loc); [|reflexivity].
    unfold byte. rewrite Z.mod_mod by lia. apply Z.mod_small. exact Hv.
Qed.

Lemma EEUpdate_cell loc val a s :
  a <> loc -> eeprom (EEUpdate loc val s) a = eeprom s a.
Proof.
  intros N. unfold EEUpdate. cbv zeta.
  destruct (negb _); [|reflexivity].
  unfold EEPROM_write. cbn [eeprom].
  destruct (a =? loc) eqn:E; [apply Z.eqb_eq in E; contradiction | reflexivity].
Qed.

Lemma Blink_store s :
  eeprom (Blink s) = eeprom s /\ eewrites (Blink s) = eewrites s.
Proof. split; reflexivity. Qed.

(** After a save the six cells hold the six settings. *)
Lemma EESaveSettings_stored s :
  settings_bytes s -> stored (EESaveSettings s) = settings s.
Proof.
  unfold settings_bytes, settings. intros F.
  repeat match goal with
  | H : Forall _ (_ :: _) |- _ => inversion_clear H
  end.
  unfold stored, EESaveSettings. cbv zeta.
  unfold Blink. cbv zeta.
  change (EEPROM_read ?a (upd _ _ (upd _ _ (upd _ _ ?x)))) with (EEPROM_read a x).
  repeat rewrite EEUpdate_read by (rewrite ?EEUpdate_vars; assumption).
  cbn [Z.eqb Pos.eqb]. rewrite !EEUpdate_vars. reflexivity.
Qed.

Lemma EESaveSettings_settings s : settings (EESaveSettings s) = settings s.
Proof.
  unfold settings.
  rewrite !(EESaveSettings_frame s) by reflexivity. reflexivity.
Qed.

(** X1.  Saving and loading again gives back the settings that were saved, as
    long as they are ones that [EEReadSettings] accepts. *)
Theorem save_then_load (s : State) :
  settings_ok s ->
  settings (EEReadSettings (EESaveSettings s)) = settings s.
Proof.
  intros (M & H & N & S & C & F).
  assert (B : settings_bytes s).
  { unfold settings_bytes, settings. repeat constructor; lia. }
  pose proof (EESaveSettings_stored s B) as E.
  destruct (EEReadSettings_settings (EESaveSettings s)) as [_ A].
  rewrite A.
  - rewrite E. unfold settings in *. cbn [tl].
    assert (E0 : EEPROM_read 0 (EESaveSettings s) = s MainBright).
    { unfold stored, settings in E. injection E. auto. }
    rewrite E0. destruct (s MainBright =? 0) eqn:Z; [b2p; lia | reflexivity].
  - rewrite E. unfold rejected, settings. lia.
Qed.

Lemma save_then_load_witness :
  settings (EEReadSettings (EESaveSettings idle_state)) = settings idle_state.
Proof.
  apply save_then_load. unfold settings_ok. vm_compute.
  repeat split; discriminate.
Defined.

(** X2.  A second save writes nothing. *)
Theorem save_twice_silent (s : State) :
  settings_bytes s ->
  eewrites (EESaveSettings (EESaveSettings s)) = eewrites (EESaveSettings s).
Proof.
  intros B. apply EESaveSettings_silent.
  rewrite EESaveSettings_settings. apply EESaveSettings_stored. exact B.
Qed.

Lemma save_twice_silent_witness :
  eewrites (EESaveSettings (EESaveSettings (power_on erased)))
  = eewrites (EESaveSettings (power_on erased)).
Proof.
  apply save_twice_silent. unfold settings_bytes. vm_compute.
  repeat constructor; discriminate.
Defined.

Lemma EEUpdate_log loc val s :
  exists new, eewrites (EEUpdate loc val s) = new ++ eewrites s /\
              (length new <= 1)%nat /\ Forall (fun w => fst w = loc) new.
Proof.
  rewrite EEUpdate_writes. destruct (EEPROM_read loc s =? val).
  - exists []. repeat split; [cbn; lia | constructor].
  - exists [(loc, byte val)]. repeat split; [cbn; lia | repeat constructor].
Qed.

(** X3.  A save writes at most six bytes, all of them to the cells 0 to 5, and
    leaves every other cell as it is. *)
Theorem EESaveSettings_cells (s : State) :
  (exists new, eewrites (EESaveSettings s) = new ++ eewrites s /\
               (length new <= 6)%nat /\
               Forall (fun w => 0 <= fst w <= 5) new) /\
  (forall a, ~ 0 <= a <= 5 -> eeprom (EESaveSettings s) a = eeprom s a).
Proof.
  unfold EESaveSettings. cbv zeta. unfold Blink. cbv zeta. cbn [eewrites eeprom upd].
  split.
  - repeat match goal with
    | |- context [eewrites (EEUpdate ?l ?v ?x)] =>
        let n := fresh "new" in let E := fresh "E" in
        let L := fresh "L" in let F := fresh "F" in
        destruct (EEUpdate_log l v x) as (n & E & L & F);
        rewrite E; clear E
    end.
    eexists. split; [ rewrite !app_assoc; reflexivity | ].
    split.
    + rewrite !length_app. lia.
    + rewrite !Forall_app. repeat split;
        (eapply Forall_impl; [ | eassumption ]);
        cbv beta; intros w Hw; rewrite Hw; lia.
  - intros a Ha. rewrite !EEUpdate_cell by lia. reflexivity.
Qed.

(** ** The real-time clock: what is written is what is read *)

Lemma forall_upto (P : Z -> bool) (n : Z) :
  forallb P (map Z.of_nat (seq 0 (Z.to_nat n))) = true ->
  forall m, 0 <= m < n -> P m = true.
Proof. intros H m Hm. apply (forall_below P (Z.to_nat n) H). lia. Qed.

(** Each register is decoded to the number it was encoded from. *)
Lemma bcd_seconds x :
  0 <= x < 60 ->
  bcd 240 (byte (byte (Z.shiftl (byte (byte x ÷ 10)) 4
                       + byte (Z.rem (byte x) 10)))) = x.
Proof.
  intros H. apply Z.eqb_eq.
  apply (forall_upto
    (fun x => bcd 240 (byte (byte (Z.shiftl (byte (byte x ÷ 10)) 4
                                   + byte (Z.rem (byte x) 10)))) =? x) 60);
    [ vm_compute; reflexivity | exact H ].
Qed.

Lemma bcd_minutes x :
  0 <= x < 60 ->
  bcd 240 (byte (byte (Z.lor (Z.shiftl (byte (byte x ÷ 10)) 4)
                             (byte (Z.rem (byte x) 10))))) = x.
Proof.
  intros H. apply Z.eqb_eq.
  apply (forall_upto
    (fun x => bcd 240 (byte (byte (Z.lor (Z.shiftl (byte (byte x ÷ 10)) 4)
                                         (byte (Z.rem (byte x) 10))))) =? x) 60);
    [ vm_compute; reflexivity | exact H ].
Qed.

Lemma bcd_hours x :
  0 <= x < 40 ->
  bcd 48 (byte (byte (Z.lor (Z.shiftl (byte (byte x ÷ 10)) 4)
                            (byte (Z.rem (byte x) 10))))) = x.
Proof.
  intros H. apply Z.eqb_eq.
  apply (forall_upto
    (fun x => bcd 48 (byte (byte (Z.lor (Z.shiftl (byte (byte x ÷ 10)) 4)
                                        (byte (Z.rem (byte x) 10))))) =? x) 40);
    [ vm_compute; reflexivity | exact H ].
Qed.

(** The decoded time of the registers that [RTCsetTime] sends. *)
Lemma RTCsetTime_decoded t (s : State) :
  0 <= t <= 43200 ->
  exists ss sm sh,
    sent_registers (RTCsetTime t s) = Some (ss, sm, sh) /\
    timeRTC_of ss sm sh = t.
Proof.
  intros Ht. unfold sent_registers, RTCsetTime. cbv zeta.
  cbn [wire Wire_write]. rewrite (uint32_small t) by lia.
  do 3 eexists. split; [reflexivity|].
  unfold timeRTC_of. cbv zeta.
  assert (Hs : 0 <= Z.rem t 60 < 60).
  { rewrite Z.rem_mod_nonneg by lia. apply Z.mod_pos_bound. lia. }
  assert (Hm : 0 <= Z.rem (t ÷ 60) 60 < 60).
  { rewrite Z.quot_div_nonneg by lia.
    rewrite Z.rem_mod_nonneg by (try apply Z.div_pos; lia).
    apply Z.mod_pos_bound. lia. }
  assert (Hh : 0 <= t ÷ 3600 < 40).
  { rewrite Z.quot_div_nonneg by lia. dlia. }
  rewrite (bcd_seconds _ Hs), (bcd_minutes _ Hm), (bcd_hours _ Hh).
  assert (E : 3600 * (t ÷ 3600) + 60 * Z.rem (t ÷ 60) 60 + Z.rem t 60 = t).
  { rewrite !Z.quot_div_nonneg by lia.
    rewrite !Z.rem_mod_nonneg by (try apply Z.div_pos; lia). dlia. }
  revert E. generalize (t ÷ 3600) (Z.rem (t ÷ 60) 60) (Z.rem t 60).
  intros h m c E.
  assert (W : uint16 (int16 (int16 (int16 (3600 * h) + int16 (60 * m)) + c)) = t).
  { unfold uint16, int16. dlia. }
  rewrite W. destruct (43200 <? t) eqn:C; b2p; [lia | reflexivity].
Qed.

(** X4.  The registers that [RTCsetTime] sends for a time of day are decoded by
    [RTCgetTime] to the same time: on the first read after power-on
    [timeNow] becomes the time that was written. *)
Theorem RTC_write_then_read (t : Z) (s s' : State) :
  0 <= t <= 43200 -> s' UpdateRTC <> 0 ->
  snd (RTCgetTime (sent_registers (RTCsetTime t s)) s') timeNow = t.
Proof.
  intros Ht U.
  destruct (RTCsetTime_decoded t s Ht) as (ss & sm & sh & -> & E).
  unfold RTCgetTime. cbv zeta. unfold truthy.
  apply Z.eqb_neq in U. cbn [vars Wire_write]. rewrite U.
  cbn [Z.eqb negb snd vars upd Var_beq]. exact E.
Qed.

Lemma RTC_write_then_read_witness :
  snd (RTCgetTime (sent_registers (RTCsetTime 43199 idle_state)) cold_start)
    timeNow = 43199.
Proof.
  apply RTC_write_then_read; [lia | vm_compute; discriminate].
Defined.

(** ** The tick, composed *)

Lemma ticks_app n m (s : State) : ticks (n + m) s = ticks m (ticks n s).
Proof.
  revert s. induction n as [|n IH]; intros s; [reflexivity|].
  cbn [Nat.add ticks]. apply IH.
Qed.

Lemma ticks_SettingTime n (s : State) : ticks n s SettingTime = s SettingTime.
Proof.
  revert s. induction n as [|n IH]; intros s; [reflexivity|].
  cbn [ticks]. rewrite IH. apply tick_frame_SettingTime.
Qed.

(** X5.  The clock time runs through a cycle of 43200 seconds: from any time in
    1 .. 43200, 43200 ticks lead back to it.  (The cycle is 1 .. 43200; the
    value 0 is left after power-on and not entered again by a tick.) *)
Theorem ticks_period (s : State) :
  s SettingTime < 4 -> 1 <= s timeNow <= 43200 ->
  ticks (Z.to_nat 43200) s timeNow = s timeNow.
Proof.
  intros S T.
  replace (Z.to_nat 43200)
    with (Z.to_nat (43200 - s timeNow) + (1 + Z.to_nat (s timeNow - 1)))%nat
    by lia.
  rewrite ticks_app.
  assert (A : ticks (Z.to_nat (43200 - s timeNow)) s timeNow = 43200).
  { rewrite ticks_count; lia. }
  rewrite ticks_app. cbn [ticks Nat.add].
  assert (B : snd (tick (ticks (Z.to_nat (43200 - s timeNow)) s)) timeNow = 1).
  { apply tick_wraps_late; [rewrite ticks_SettingTime; exact S | exact A]. }
  rewrite ticks_count.
  - rewrite B. lia.
  - rewrite tick_frame_SettingTime, ticks_SettingTime. exact S.
  - rewrite B. lia.
  - rewrite B. lia.
Qed.

Lemma ticks_period_witness :
  ticks (Z.to_nat 43200) before_noon timeNow = before_noon timeNow.
Proof.
  apply ticks_period; vm_compute; [reflexivity | split; discriminate].
Defined.

(** ** Adjusting the time *)

(** The step of the "+" and "-" buttons in the hour and minute sub-states
    of time setting. *)
Lemma PlusReleased_adjusts (s : State) :
  s MomentaryOverridePlus = 0 -> s SleepMode = 0 -> s AlignMode = 0 ->
  s OptionMode = 0 -> s SettingTime = 1 \/ s SettingTime = 2 ->
  0 <= s timeNow <= 43200 ->
  PlusReleased s timeNow =
    (let t := s timeNow + (if s SettingTime =? 1 then 3600 else 60) in
     if 43200 <? t then t - 43200 else t) /\
  forall y, Var_beq timeNow y = false -> PlusReleased s y = s y.
Proof.
  intros P Z A O S T. unfold PlusReleased, truthy.
  rewrite P, Z, A, O. cbn [Z.eqb negb]. cbv zeta.
  destruct S as [S | S]; rewrite S; cbn [Z.eqb Z.ltb Z.compare Pos.eqb Pos.compare
    Pos.compare_cont negb]; norm; rewrite ?S;
    cbn [Z.eqb Z.ltb Z.compare Pos.eqb Pos.compare Pos.compare_cont negb]; norm;
    rewrite (int32_small (s timeNow + _)) by lia;
    (destruct (43200 <? s timeNow + _) eqn:C; b2p; norm;
     [ rewrite int32_small by lia | ];
     (split; [ reflexivity | intros y Hy; cbn [vars upd]; rewrite ?Hy; reflexivity ])).
Qed.

(** One [let] of the goal [P (let x := a in ...)] is named. *)
Ltac step_let x E :=
  lazymatch goal with
  | |- ?P (let y := ?a in @?f y) =>
      apply (hoare_let P a f); intros x E; cbv beta
  end.

Lemma MinusReleased_adjusts (s : State) :
  s MomentaryOverrideMinus = 0 -> s SleepMode = 0 -> s AlignMode = 0 ->
  s OptionMode = 0 -> s SettingTime = 1 \/ s SettingTime = 2 ->
  0 <= s timeNow <= 43200 ->
  MinusReleased s timeNow =
    (let t := s timeNow - (if s SettingTime =? 1 then 3600 else 60) in
     if t <? 0 then t + 43200 else t) /\
  MinusReleased s SettingTime = s SettingTime.
Proof.
  intros M Z A O S T.
  set (P := fun st : State =>
    st timeNow =
      (let t := s timeNow - (if s SettingTime =? 1 then 3600 else 60) in
       if t <? 0 then t + 43200 else t) /\
    st SettingTime = s SettingTime).
  change (P (MinusReleased s)). cbv beta delta [MinusReleased].
  step_let s1 E1. step_let s2 E2.
  assert (M2 : s2 MomentaryOverrideMinus = 0) by (subst; exact M).
  assert (Z2 : s2 SleepMode = 0) by (subst; exact Z).
  assert (A2 : s2 AlignMode = 0) by (subst; exact A).
  assert (O2 : s2 OptionMode = 0) by (subst; exact O).
  assert (S2 : s2 SettingTime = s SettingTime) by (subst; reflexivity).
  assert (T2 : s2 timeNow = s timeNow) by (subst; reflexivity).
  clear E1 E2 s1. subst P. cbv beta.
  unfold truthy. rewrite M2, Z2, A2, O2. cbn [Z.eqb negb]. cbv zeta.
  rewrite <- T2 in *. rewrite <- S2 in *. clear M Z A O.
  destruct S as [S | S]; rewrite S; cbn [Z.eqb Z.ltb Z.compare Pos.eqb Pos.compare
    Pos.compare_cont negb]; norm; rewrite ?S;
    cbn [Z.eqb Z.ltb Z.compare Pos.eqb Pos.compare Pos.compare_cont negb]; norm;
    rewrite (int32_small (s2 timeNow - _)) by lia;
    (destruct (s2 timeNow - _ <? 0) eqn:C; b2p; norm;
     [ rewrite int32_small by lia | ];
     (split; [ reflexivity | first [ exact S | reflexivity ] ])).
Qed.

(** X6.  In the hour and minute sub-states of time setting, "+" followed by "-"
    leaves the time where it was. *)
Theorem plus_then_minus (s : State) :
  s MomentaryOverridePlus = 0 -> s MomentaryOverrideMinus = 0 ->
  s SleepMode = 0 -> s AlignMode = 0 -> s OptionMode = 0 ->
  s SettingTime = 1 \/ s SettingTime = 2 ->
  0 <= s timeNow < 43200 ->
  MinusReleased (PlusReleased s) timeNow = s timeNow /\
  MinusReleased (PlusReleased s) SettingTime = s SettingTime.
Proof.
  intros P M Z A O S T.
  destruct (PlusReleased_adjusts s P Z A O S ltac:(lia)) as [E K].
  cbv zeta in E.
  assert (T' : 0 <= PlusReleased s timeNow <= 43200).
  { rewrite E. clear E.
    destruct S as [S | S]; rewrite S; cbn [Z.eqb Pos.eqb];
      match goal with
      | |- context [if ?c then _ else _] => destruct c eqn:C
      end; b2p; lia. }
  destruct (MinusReleased_adjusts (PlusReleased s)) as [E' S'];
    rewrite ?(K MomentaryOverrideMinus), ?(K SleepMode), ?(K AlignMode),
      ?(K OptionMode), ?(K SettingTime) by reflexivity; try assumption.
  cbv zeta in E'. rewrite (K SettingTime) in E', S' by reflexivity.
  split; [ | exact S' ].
  rewrite E', E.
  destruct S as [S | S]; rewrite S; cbn [Z.eqb Pos.eqb];
    repeat match goal with
    | |- context [if ?c then _ else _] => destruct c eqn:?
    end; b2p; lia.
Qed.

Lemma plus_then_minus_witness :
  MinusReleased (PlusReleased (snd (hold 96 3 idle_state))) timeNow
  = snd (hold 96 3 idle_state) timeNow /\
  MinusReleased (PlusReleased (snd (hold 96 3 idle_state))) SettingTime
  = snd (hold 96 3 idle_state) SettingTime.
Proof.
  apply plus_then_minus; vm_compute;
    first [ reflexivity | left; reflexivity
          | split; [ discriminate | reflexivity ] ].
Defined.

(** ** The clock face *)

Lemma shadow30_eq x :
  0 <= x < 60 ->
  (if 29 <? byte (Z.quot x 2 + 15) then byte (byte (Z.quot x 2 + 15) - 30)
   else byte (Z.quot x 2 + 15)) = shadow30 x.
Proof.
  intros Hx. unfold shadow30. rewrite (byte_small (Z.quot x 2 + 15)) by dlia.
  destruct (29 <? _) eqn:C; b2p; dwraps; dlia.
Qed.

Lemma next30_eq d :
  0 <= d < 30 ->
  (if 29 <? byte (d + 1) then 0 else byte (d + 1)) = (d + 1) mod 30.
Proof.
  intros Hd. rewrite (byte_small (d + 1)) by lia.
  destruct (29 <? _) eqn:C; b2p; dlia.
Qed.

Lemma next12_eq d :
  0 <= d < 12 ->
  (if 11 <? byte (d + 1) then 0 else byte (d + 1)) = (d + 1) mod 12.
Proof.
  intros Hd. rewrite (byte_small (d + 1)) by lia.
  destruct (11 <? _) eqn:C; b2p; dlia.
Qed.

Lemma shadow30_range x : 0 <= shadow30 x < 30.
Proof. unfold shadow30. apply Z.mod_pos_bound. lia. Qed.

Lemma face_ring_ok (st s : State) : positions st = face s -> ring_ok st.
Proof.
  unfold positions, face. cbv zeta. intros E.
  injection E as E1 E2 E3 E4 E5 E6. unfold ring_ok.
  rewrite E1, E2, E3, E4, E5, E6.
  repeat split; try apply Z.mod_pos_bound; try apply shadow30_range; lia.
Qed.

Lemma NormalTimeDisplay_positions (s : State) :
  0 <= s timeNow <= 43200 -> positions (NormalTimeDisplay s) = face s.
Proof.
  intros Ht.
  assert (Hm : 0 <= (s timeNow / 60) mod 60 < 60)
    by (apply Z.mod_pos_bound; lia).
  assert (Hs : 0 <= s timeNow mod 60 < 60) by (apply Z.mod_pos_bound; lia).
  assert (Hh : 0 <= s timeNow / 3600 <= 12) by dlia.
  assert (Ha : 0 <= hour_advance s <= 1)
    by (unfold hour_advance; destruct (_ && _); lia).
  assert (Ha' : s timeNow / 3600 + hour_advance s <= 12).
  { unfold hour_advance.
    destruct (s FadeMode =? 2); destruct (s SettingTime =? 0);
      destruct (30 <? _) eqn:C; cbn [andb]; b2p; dlia. }
  { set (P := fun st : State => positions st = face s).
    change (P (NormalTimeDisplay s)).
    cbv beta delta [NormalTimeDisplay]. intro_lets P.
    subst P. cbv beta. unfold positions, face. cbv zeta. norm. back_subst.
    rewrite (HrNow_of_eq s Ht), (MinNow_of_eq s Ht), (SecNow_of_eq s Ht).
    rewrite !(shadow30_eq _ Hm), !(shadow30_eq _ Hs).
    rewrite (next30_eq _ (shadow30_range _)), (next30_eq _ (shadow30_range _)).
    assert (EH :
      (if 11 <?
          (if s FadeMode =? 2
           then if (s SettingTime =? 0) && (30 <? (s timeNow / 60) mod 60)
                then byte (byte (s timeNow / 3600 + 6) + 1)
                else byte (s timeNow / 3600 + 6)
           else byte (s timeNow / 3600 + 6))
       then byte ((if s FadeMode =? 2
                   then if (s SettingTime =? 0) && (30 <? (s timeNow / 60) mod 60)
                        then byte (byte (s timeNow / 3600 + 6) + 1)
                        else byte (s timeNow / 3600 + 6)
                   else byte (s timeNow / 3600 + 6)) - 12)
       else (if s FadeMode =? 2
             then if (s SettingTime =? 0) && (30 <? (s timeNow / 60) mod 60)
                  then byte (byte (s timeNow / 3600 + 6) + 1)
                  else byte (s timeNow / 3600 + 6)
             else byte (s timeNow / 3600 + 6)))
      = (s timeNow / 3600 + 6 + hour_advance s) mod 12).
    { revert Ha Ha'. unfold hour_advance.
      destruct (s FadeMode =? 2); destruct (s SettingTime =? 0);
        destruct (30 <? (s timeNow / 60) mod 60); cbn [andb]; intros Ha Ha';
        rewrite ?(byte_small (s timeNow / 3600 + 6)) by lia;
        rewrite ?(byte_small (s timeNow / 3600 + 6 + 1)) by lia;
        (destruct (11 <? _) eqn:C; b2p; [ rewrite byte_small by lia | ]; dlia). }
    rewrite !EH.
    rewrite (next12_eq _ (Z.mod_pos_bound _ 12 ltac:(lia))).
    reflexivity. }
Qed.

Lemma NormalTimeDisplay_ring_ok (s : State) :
  0 <= s timeNow <= 43200 -> ring_ok (NormalTimeDisplay s).
Proof.
  intros Ht. exact (face_ring_ok _ _ (NormalTimeDisplay_positions s Ht)).
Qed.

(** X7.  [NormalTimeDisplay] in closed form: the second and minute hands fall
    half a turn from half their value, the hour hand six hours from the
    hour (one more in the second half of the hour with [FadeMode] 2), and
    the second LED of each ring is the next one round the ring; all six
    positions are on their rings. *)
Theorem NormalTimeDisplay_face (s : State) :
  0 <= s timeNow <= 43200 ->
  positions (NormalTimeDisplay s) = face s /\ ring_ok (NormalTimeDisplay s).
Proof.
  intros Ht. split.
  - apply NormalTimeDisplay_positions, Ht.
  - apply NormalTimeDisplay_ring_ok, Ht.
Qed.

Lemma NormalTimeDisplay_face_witness :
  positions (NormalTimeDisplay before_noon) = (5, 6, 14, 15, 14, 15) /\
  ring_ok (NormalTimeDisplay before_noon).
Proof.
  destruct (NormalTimeDisplay_face before_noon) as [E R].
  - vm_compute. split; discriminate.
  - split; [ rewrite E; vm_compute; reflexivity | exact R ].
Defined.

(** ** Fading *)

Lemma FadeConv_values i : 0 <= nth i FadeConv 0 <= 63.
Proof.
  destruct (Nat.lt_ge_cases i (length FadeConv)) as [L | L].
  - assert (F : forallb (fun v => (0 <=? v) && (v <=? 63)) FadeConv = true)
      by (vm_compute; reflexivity).
    rewrite forallb_forall in F.
    specialize (F _ (nth_In FadeConv 0 L)). b2p. lia.
  - rewrite nth_overflow by exact L. lia.
Qed.

(** X8.  [NormalFades] splits the full weight of a ring between its two LEDs:
    in every fade mode the weight of the second LED is within 0 .. 63 and
    the first LED gets the rest. *)
Theorem NormalFades_complementary (s : State) :
  0 <= s timeNow <= 43200 -> msNow_of s < 1000 -> fades_ok s ->
  fades_ok (NormalFades s) /\ fades_complementary (NormalFades s).
Proof.
  intros Ht Hms (F1 & F2 & F3).
  pose proof (msNow_of_range s Hms) as Hms0.
  pose proof (minute_range (s timeNow)) as HM.
  pose proof (second_range (s timeNow)) as HS.
  set (G := fun st : State => fades_ok st /\ fades_complementary st).
  change (G (NormalFades s)).
  cbv beta delta [NormalFades table_read]. intro_lets G.
  subst G. cbv beta. unfold fades_ok, fades_complementary.
  rewrite (MinNow_of_eq s Ht), (SecNow_of_eq s Ht) in *.
  subst.
  repeat (first [ progress cbn [orb andb negb] | split_if ]; norm);
  repeat match goal with
  | |- context [nth ?i FadeConv 0] =>
      let v := fresh "v" in
      pose proof (FadeConv_values i); generalize dependent (nth i FadeConv 0);
      intros v ?
  end;
  dwraps; dlia.
Qed.

Lemma NormalFades_complementary_witness :
  fades_ok (NormalFades late_fade) /\ fades_complementary (NormalFades late_fade).
Proof.
  apply NormalFades_complementary.
  - vm_compute. split; discriminate.
  - vm_compute. reflexivity.
  - vm_compute. repeat split; discriminate.
Defined.

(** ** The line tables *)

Lemma valid_pairb_spec h l : valid_pairb h l = true -> valid_pair h l.
Proof. unfold valid_pairb, valid_pair. intros H. b2p. lia. Qed.

(** Within a ring, both tables have an entry, and the two lines differ. *)
Lemma ring_lines (Hi Lo : list Z) (n : Z) :
  forallb (fun i => match line_read Hi i, line_read Lo i with
                    | Some h, Some l => valid_pairb h l
                    | _, _ => false
                    end) (map Z.of_nat (seq 0 (Z.to_nat n))) = true ->
  forall i, 0 <= i < n ->
  exists h l, line_read Hi i = Some h /\ line_read Lo i = Some l /\
              valid_pair h l.
Proof.
  intros F i Hi'.
  pose proof (forall_upto _ n F i Hi') as K. cbv beta in K.
  destruct (line_read Hi i) as [h|]; [|discriminate K].
  destruct (line_read Lo i) as [l|]; [|discriminate K].
  exists h, l. auto using valid_pairb_spec.
Qed.

Lemma mirror_range n p :
  0 <= p < n -> n <= 256 ->
  0 <= (if truthy p then byte (n - p) else p) < n.
Proof.
  intros Hp Hn. unfold truthy. destruct (p =? 0) eqn:C; b2p; cbn [negb].
  - lia.
  - rewrite byte_small; lia.
Qed.

(** The LEDs that [loop] selects lie on their rings, clockwise or
    counterclockwise. *)
Lemma loop_leds_range (s : State) :
  ring_ok s ->
  (0 <= LH1 (loop_leds s) < 12 /\ 0 <= LH2 (loop_leds s) < 12) /\
  (0 <= LM1 (loop_leds s) < 30 /\ 0 <= LM2 (loop_leds s) < 30) /\
  (0 <= LS1 (loop_leds s) < 30 /\ 0 <= LS2 (loop_leds s) < 30).
Proof.
  intros (H1 & H2 & M1 & M2 & S1 & S2).
  unfold loop_leds. cbv zeta.
  destruct (truthy (s CCW)); cbn [LH1 LH2 LM1 LM2 LS1 LS2].
  - repeat split; apply mirror_range; lia.
  - repeat split; lia.
Qed.

(** X9.  With the positions on their rings, all twelve table reads of [loop]
    are inside the tables, and every slot gets two different lines out of
    the ten: the display then lights real LEDs, in both directions of
    rotation. *)
Theorem loop_lines_valid (s : State) :
  ring_ok s ->
  exists r, Mpx.loop_lines (loop_leds s) = Some r /\ lines_ok r.
Proof.
  intros R.
  destruct (loop_leds_range s R) as ((H1 & H2) & (M1 & M2) & (S1 & S2)).
  destruct (ring_lines HrHi HrLo 12 ltac:(vm_compute; reflexivity) _ H1)
    as (h0 & l0 & Eh0 & El0 & V0).
  destruct (ring_lines HrHi HrLo 12 ltac:(vm_compute; reflexivity) _ H2)
    as (h1 & l1 & Eh1 & El1 & V1).
  destruct (ring_lines MinHi MinLo 30 ltac:(vm_compute; reflexivity) _ M1)
    as (h2 & l2 & Eh2 & El2 & V2).
  destruct (ring_lines MinHi MinLo 30 ltac:(vm_compute; reflexivity) _ M2)
    as (h3 & l3 & Eh3 & El3 & V3).
  destruct (ring_lines SecHi SecLo 30 ltac:(vm_compute; reflexivity) _ S1)
    as (h4 & l4 & Eh4 & El4 & V4).
  destruct (ring_lines SecHi SecLo 30 ltac:(vm_compute; reflexivity) _ S2)
    as (h5 & l5 & Eh5 & El5 & V5).
  unfold Mpx.loop_lines.
  rewrite Eh0, El0, Eh1, El1, Eh2, El2, Eh3, El3, Eh4, El4, Eh5, El5.
  eexists. split; [reflexivity|].
  unfold lines_ok. cbn [Mpx.H0 Mpx.H1 Mpx.H2 Mpx.H3 Mpx.H4 Mpx.H5
                        Mpx.L0 Mpx.L1 Mpx.L2 Mpx.L3 Mpx.L4 Mpx.L5].
  auto 10.
Qed.

Lemma loop_lines_valid_witness :
  exists r, Mpx.loop_lines (loop_leds (NormalTimeDisplay before_noon)) = Some r
            /\ lines_ok r.
Proof.
  apply loop_lines_valid.
  apply NormalTimeDisplay_ring_ok. vm_compute. split; discriminate.
Defined.

(** X10.  In the alignment of the seconds and minutes rings [AlignDisplay] moves
    the hour position along with the others, by [AlignValue + 6] less one
    turn of twelve: from [AlignValue] 18 on, the position is past the end
    of the twelve-entry hour tables, and [loop] reads them there. *)
Theorem AlignDisplay_hour_index (s : State) :
  s AlignMode = 2 \/ s AlignMode = 4 ->
  18 <= s AlignValue <= 29 -> s CCW = 0 ->
  LH1 (loop_leds (AlignDisplay s)) = s AlignValue - 6 /\
  Mpx.loop_lines (loop_leds (AlignDisplay s)) = None.
Proof.
  intros A V C.
  assert (E : AlignDisplay s HrDisp = s AlignValue - 6
              /\ AlignDisplay s CCW = 0).
  { assert (Z : Z.land (s AlignMode) 1 = 0) by (destruct A as [A | A]; rewrite A; reflexivity).
    unfold AlignDisplay, truthy. rewrite Z. cbn [Z.eqb negb]. cbv zeta. norm.
    rewrite (byte_small (s AlignValue + 6)) by lia.
    destruct (11 <? s AlignValue + 6) eqn:K; b2p; [|lia]. norm.
    rewrite byte_small by lia. split; [lia | exact C]. }
  destruct E as [E C'].
  assert (L : LH1 (loop_leds (AlignDisplay s)) = s AlignValue - 6).
  { unfold loop_leds. cbv zeta. unfold truthy at 1. rewrite C'.
    cbn [Z.eqb negb LH1]. exact E. }
  split; [exact L|].
  unfold Mpx.loop_lines. rewrite L.
  assert (N : line_read HrLo (s AlignValue - 6) = None).
  { unfold line_read. destruct (_ <? 0) eqn:K; [reflexivity|].
    apply nth_error_None. cbn [length HrLo]. lia. }
  rewrite N. reflexivity.
Qed.

Lemma AlignDisplay_hour_index_witness :
  LH1 (loop_leds (AlignDisplay aligning)) = 12 /\
  Mpx.loop_lines (loop_leds (AlignDisplay aligning)) = None.
Proof.
  destruct (AlignDisplay_hour_index aligning) as [E N].
  - left. vm_compute. reflexivity.
  - vm_compute. split; discriminate.
  - vm_compute. reflexivity.
  - split; [ rewrite E; vm_compute; reflexivity | exact N ].
Defined.

(** ** Invariants of the reachable states *)

(** The state that a chain of assignments starts from. *)
Ltac base_of e :=
  lazymatch e with
  | upd _ _ ?s => base_of s
  | _ => e
  end.

(** Of the assertions [Q] in the context only the one about the state
    being updated is of use. *)
Ltac latest Q :=
  lazymatch goal with
  | |- Q ?e =>
      let st := base_of e in
      repeat match goal with
      | H : Q ?x |- _ => tryif constr_eq x st then fail else clear H
      end
  end.

(** *** What the display side of [loop] writes *)

Ltac split_mem ::=
  fun H =>
  cbv beta iota delta
    [mem display_vars settings_vars held_vars button_vars inv_vars
     position_vars fade_vars dwell_vars] in H;
  repeat match type of H with
  | (_ || _) = false =>
      let H1 := fresh "N" in
      apply orb_false_iff in H; destruct H as [H1 H]
  end.

Ltac mem_side ::=
  cbv beta iota delta
    [mem display_vars settings_vars held_vars button_vars inv_vars
     position_vars fade_vars dwell_vars];
  repeat match goal with
  | H : Var_beq ?x ?y = false |- context [Var_beq ?x ?y] => rewrite H
  end;
  reflexivity.

Lemma NormalTimeDisplay_writes y r s :
  mem y position_vars = false -> keeps y r s -> keeps y r (NormalTimeDisplay s).
Proof. frame NormalTimeDisplay. Qed.

Lemma NormalFades_writes y r s :
  mem y fade_vars = false -> keeps y r s -> keeps y r (NormalFades s).
Proof.
  intros Hy K; split_mem Hy; cbv beta delta [NormalFades table_read].
  hoare keeps_leaf.
Qed.

Lemma loop_dwells_writes y r s :
  mem y dwell_vars = false -> keeps y r s -> keeps y r (loop_dwells s).
Proof. frame loop_dwells. Qed.

Lemma loop_fades_writes y r s :
  mem y fade_vars = false -> keeps y r s -> keeps y r (loop_fades s).
Proof.
  intros Hy K; split_mem Hy; cbv beta delta [loop_fades].
  hoare ltac:(idtac; repeat lazymatch goal with
    | |- keeps _ _ (upd _ _ _) => apply keeps_upd; [ assumption | ]
    | |- keeps _ _ (NormalFades _) => apply NormalFades_writes; [ mem_side | ]
    | |- keeps _ _ _ => assumption
    end).
Qed.

Lemma RTCgetTime_frame answer (s : State) y :
  mem y [timeNow; UpdateRTC] = false -> snd (RTCgetTime answer s) y = s y.
Proof.
  intros Hy. split_mem Hy. unfold RTCgetTime. cbv zeta.
  destruct answer as [[[a b] c]|]; cbn [snd]; [|reflexivity].
  repeat match goal with
  | |- context [if ?c then _ else _] => destruct c
  end; cbn [snd vars upd Wire_write]; rewrite ?N, ?N0; reflexivity.
Qed.

(** *** A property kept by the parts of [loop] is kept by [loop] *)

Section LoopInvariant.

Variable Q : State -> Prop.
Variable L : list Var.
Hypothesis Q_reads : reads_only L Q.
Hypothesis L_apart : forallb (fun y => negb (mem y loop_vars)) L = true.
Hypothesis Q_buttons : forall p s, Inv s -> Q s -> Q (CheckButtons p s).
Hypothesis Q_held :
  forall p0 p1 p2 p3 s, Inv s -> Q s -> Q (CheckHeld p0 p1 p2 p3 s).
Hypothesis Q_refresh : forall R s, Inv s -> Q s -> Q (loop_refresh R s).

Lemma Q_upd x v (s : State) : mem x loop_vars = true -> Q s -> Q (s <| x := v |>).
Proof.
  intros Hx. apply Q_reads. intros y Hy. cbn [vars upd].
  destruct (Var_beq x y) eqn:E; [|reflexivity].
  apply internal_Var_dec_bl in E. subst y.
  pose proof (disjoint_mem L loop_vars x L_apart Hy) as N.
  rewrite N in Hx. discriminate Hx.
Qed.

Lemma Q_frame (f : State -> State) (l : list Var) :
  (forall y r s, mem y l = false -> keeps y r s -> keeps y r (f s)) ->
  forallb (fun y => mem y loop_vars) l = true ->
  forall s, Q s -> Q (f s).
Proof.
  intros K Sub s. apply Q_reads. intros y Hy.
  apply (frame_eq f l K).
  pose proof (disjoint_mem L loop_vars y L_apart Hy) as N.
  destruct (mem y l) eqn:M; [|reflexivity].
  exfalso. clear - Sub M N.
  induction l as [|x l IH]; [discriminate M|].
  cbn [forallb] in Sub. apply andb_true_iff in Sub. destruct Sub as [Sx Sub].
  cbn [mem] in M. apply orb_true_iff in M. destruct M as [M | M].
  - apply internal_Var_dec_bl in M. subst y. congruence.
  - auto.
Qed.

Lemma loop_second_keeps i R s :
  Inv s -> Q s ->
  Inv (snd (loop_second i R s)) /\ Q (snd (loop_second i R s)).
Proof.
  intros I H. split; [apply loop_second_Inv; exact I|].
  unfold loop_second. destruct (1000 <=? _); [|exact H].
  destruct (in_held i) as [[[p0 p1] p2] p3]. cbv zeta.
  match goal with |- context [tick ?x] =>
    assert (T : Q (snd (tick x))); [ | destruct (tick x); exact T ]
  end.
  apply (Q_frame (fun x => snd (tick x)) [timeNow]);
    [ intros; apply tick_keeps; assumption | reflexivity | ].
  apply Q_held.
  - revert I. apply Inv_reads_only.
    intros y Hy. destruct y; try discriminate Hy; reflexivity.
  - apply Q_upd; [reflexivity | exact H].
Qed.

Lemma loop_keeps i s : Inv s -> Q s -> Q (loop i s).
Proof.
  intros I H. unfold loop. cbv zeta.
  match goal with |- context [loop_second ?i ?R ?x] =>
    destruct (loop_second_keeps i R x) as [I' H'];
    [ | | destruct (loop_second i R x) as [R' s'] ]
  end.
  - apply CheckButtons_Inv. revert I. apply Inv_reads_only.
    intros y Hy. destruct y; try discriminate Hy; reflexivity.
  - apply Q_buttons.
    + revert I. apply Inv_reads_only.
      intros y Hy. destruct y; try discriminate Hy; reflexivity.
    + apply Q_upd; [reflexivity | exact H].
  - cbn [snd] in I', H'.
    apply (Q_frame (loop_sync (in_serial i)) [timeNow; prevtime]);
      [ intros; apply loop_sync_keeps; assumption | reflexivity | ].
    apply (Q_frame _ _ loop_dwells_writes); [reflexivity|].
    apply (Q_frame _ _ loop_fades_writes); [reflexivity|].
    apply Q_refresh; assumption.
Qed.

End LoopInvariant.

(** *** The settings stay in range *)

Lemma settings_ok_reads : reads_only settings_vars settings_ok.
Proof.
  intros s s' H. unfold settings_ok.
  rewrite (H MainBright), (H HourBright), (H MinBright), (H SecBright),
    (H CCW), (H FadeMode) by reflexivity.
  auto.
Qed.

Lemma ApplyDefaults_settings_ok s : settings_ok (ApplyDefaults s).
Proof. unfold settings_ok, ApplyDefaults. cbv zeta. norm. cbv. intuition discriminate. Qed.

(** Whatever the EEPROM holds, the settings that [EEReadSettings] loads
    are in range. *)
Lemma EEReadSettings_settings_ok s : settings_ok (EEReadSettings s).
Proof.
  destruct (EEReadSettings_settings s) as [A B].
  assert (R : forall a, 0 <= EEPROM_read a s < 256)
    by (intros; apply byte_range).
  pose proof (R 0); pose proof (R 1); pose proof (R 2); pose proof (R 3);
    pose proof (R 4); pose proof (R 5).
  assert (D : rejected (stored s) \/ ~ rejected (stored s)).
  { unfold rejected, stored. lia. }
  destruct D as [D | D].
  - specialize (A D). unfold settings in A.
    injection A as E0 E1 E2 E3 E4 E5. unfold settings_ok.
    rewrite E0, E1, E2, E3, E4, E5. cbv. intuition discriminate.
  - specialize (B D). unfold settings, stored in B. cbn [tl] in B.
    injection B as E0 E1 E2 E3 E4 E5. unfold settings_ok.
    rewrite E0, E1, E2, E3, E4, E5.
    unfold rejected, stored in D.
    destruct (EEPROM_read 0 s =? 0) eqn:Z; b2p; lia.
Qed.

Ltac ok_arith :=
  latest settings_ok;
  unfold settings_ok, FadeModes in *; norm;
  cbn [vars upd Var_beq] in *; b2p; wraps; lia.

Ltac ok_leaf :=
  idtac;
  lazymatch goal with
  | |- settings_ok (IncrAlignVal _) =>
      apply (reads_only_keeps _ _ _ _ settings_ok_reads IncrAlignVal_keeps);
      [ reflexivity | ok_leaf ]
  | |- settings_ok (DecrAlignVal _) =>
      apply (reads_only_keeps _ _ _ _ settings_ok_reads DecrAlignVal_keeps);
      [ reflexivity | ok_leaf ]
  | |- settings_ok (EESaveSettings _) =>
      apply (reads_only_keeps _ _ _ _ settings_ok_reads EESaveSettings_keeps);
      [ reflexivity | ok_leaf ]
  | |- settings_ok (Blink _) =>
      apply (reads_only_keeps _ _ _ _ settings_ok_reads Blink_keeps);
      [ reflexivity | ok_leaf ]
  | |- settings_ok (RTCsetTime _ _) =>
      change (settings_ok (RTCsetTime ?t ?x)) with (settings_ok x); ok_leaf
  | |- settings_ok (ApplyDefaults _) => apply ApplyDefaults_settings_ok
  | |- settings_ok (upd _ _ _) => ok_arith
  | |- settings_ok _ => assumption
  end.

Lemma PlusReleased_settings_ok s : settings_ok s -> settings_ok (PlusReleased s).
Proof. intros I. cbv beta delta [PlusReleased]. hoare ok_leaf. Qed.

Lemma MinusReleased_settings_ok s :
  settings_ok s -> settings_ok (MinusReleased s).
Proof. intros I. cbv beta delta [MinusReleased]. hoare ok_leaf. Qed.

Lemma ZReleased_settings_ok s : settings_ok s -> settings_ok (ZReleased s).
Proof. intros I. cbv beta delta [ZReleased]. hoare ok_leaf. Qed.

Lemma CheckButtons_settings_ok p s :
  settings_ok s -> settings_ok (CheckButtons p s).
Proof.
  intros I. cbv beta delta [CheckButtons].
  hoare ltac:(idtac; lazymatch goal with
    | |- settings_ok (PlusReleased _) => apply PlusReleased_settings_ok; ok_leaf
    | |- settings_ok (MinusReleased _) => apply MinusReleased_settings_ok; ok_leaf
    | |- settings_ok (ZReleased _) => apply ZReleased_settings_ok; ok_leaf
    | |- _ => ok_leaf
    end).
Qed.

Lemma CheckHeld_settings_ok p0 p1 p2 p3 s :
  settings_ok s -> settings_ok (CheckHeld p0 p1 p2 p3 s).
Proof. intros I. cbv beta delta [CheckHeld]. hoare ok_leaf. Qed.

Lemma loop_settings_ok i s : Inv s -> settings_ok s -> settings_ok (loop i s).
Proof.
  apply (loop_keeps settings_ok settings_vars settings_ok_reads eq_refl).
  - intros. apply CheckButtons_settings_ok. assumption.
  - intros. apply CheckHeld_settings_ok. assumption.
  - intros R x _. apply (reads_only_keeps _ _ _ display_vars settings_ok_reads).
    + intros. apply loop_refresh_keeps; assumption.
    + reflexivity.
Qed.

Lemma setup_settings_ok millis PIND answer s :
  settings_ok (setup millis PIND answer s).
Proof.
  unfold setup. cbv zeta.
  match goal with |- context [RTCgetTime ?a ?x] =>
    assert (T : settings_ok (snd (RTCgetTime a x)));
    [ | destruct (RTCgetTime a x) as [st s'] ]
  end.
  - match goal with |- settings_ok (snd (RTCgetTime ?a ?x)) =>
      apply (settings_ok_reads x)
    end.
    + intros y Hy. apply RTCgetTime_frame.
      destruct y; try discriminate Hy; reflexivity.
    + repeat match goal with
      | |- settings_ok (upd ?x ?v ?st) =>
          apply (settings_ok_reads st);
          [ intros y Hy; cbn [vars upd];
            destruct y; try discriminate Hy; reflexivity | ]
      end.
      apply EEReadSettings_settings_ok.
  - cbn [snd] in T.
    destruct (truthy _);
      repeat match goal with
      | |- settings_ok (upd ?x ?v ?st) =>
          apply (settings_ok_reads st);
          [ intros y Hy; cbn [vars upd];
            destruct y; try discriminate Hy; reflexivity | ]
      end; exact T.
Qed.

(** X11.  In every reachable state the settings are in range: the main
    brightness within 1 .. 8, the three ring brightnesses within 0 .. 63,
    the rotation flag 0 or 1, and the fade mode a byte other than 255. *)
Theorem reachable_settings_ok (s : State) : reachable s -> settings_ok s.
Proof.
  induction 1 as [cells millis PIND answer | i s R IH].
  - apply setup_settings_ok.
  - apply loop_settings_ok; [ apply reachable_Inv; exact R | exact IH ].
Qed.

Lemma reachable_settings_ok_witness : settings_ok idle_state.
Proof.
  apply reachable_settings_ok.
  unfold idle_state. apply reachable_loop, reachable_setup.
Defined.

(** *** Reachability of the scenarios *)

Lemma hold_snd p n s :
  snd (hold p (S n) s) = snd (hold p n (loop (second_with p s) s)).
Proof.
  change (hold p (S n) s) with
    (let s1 := loop (second_with p s) s in
     let '(c, s') := hold p n s1 in ((if fired s1 then S c else c), s')).
  cbv zeta. destruct (hold p n (loop (second_with p s) s)) as [c s'].
  reflexivity.
Qed.

Lemma reachable_hold p n s : reachable s -> reachable (snd (hold p n s)).
Proof.
  revert s. induction n as [|n IH]; intros s R; [exact R|].
  rewrite hold_snd. apply IH, reachable_loop, R.
Qed.

Lemma reachable_click p s : reachable s -> reachable (click p s).
Proof.
  intros R. unfold click.
  exact (reachable_loop _ _ (reachable_loop _ _ R)).
Qed.

Lemma clicks_S n p s : clicks (S n) p s = click p (clicks n p s).
Proof. reflexivity. Qed.

Lemma reachable_clicks n p s : reachable s -> reachable (clicks n p s).
Proof.
  intros R. induction n as [|n IH].
  - exact R.
  - rewrite clicks_S. apply reachable_click. exact IH.
Qed.

Lemma reachable_idle_state : reachable idle_state.
Proof. unfold idle_state. apply reachable_loop, reachable_setup. Qed.

Lemma reachable_align_released : reachable align_released.
Proof.
  unfold align_released. apply reachable_loop.
  unfold align_entered. apply reachable_hold, reachable_idle_state.
Qed.

Lemma reachable_aligning : reachable aligning.
Proof.
  unfold aligning.
  apply reachable_clicks, reachable_click, reachable_align_released.
Qed.

(** *** The display state stays on the rings *)


Lemma display_inv_reads : reads_only (AlignMode :: AlignValue :: position_vars) display_inv.
Proof.
  intros s s' H. unfold display_inv, align_ok, align_ring, positions_ok.
  rewrite (H AlignMode), (H AlignValue), (H SecDisp), (H SecNext),
    (H MinDisp), (H MinNext), (H HrNext), (H HrDisp) by reflexivity.
  auto.
Qed.

Ltac split_tests :=
  repeat match goal with
  | |- context [if ?c then _ else _] => destruct c eqn:?
  | H : context [if ?c then _ else _] |- _ => destruct c eqn:?
  end.

Ltac disp_arith :=
  latest display_inv;
  unfold display_inv, align_ok, align_ring, positions_ok in *; norm;
  cbn [vars upd Var_beq] in *; split_tests; b2p; wraps; lia.

Lemma IncrAlignVal_display_inv s : display_inv s -> display_inv (IncrAlignVal s).
Proof. intros I. cbv beta delta [IncrAlignVal]. paths disp_arith. Qed.

Lemma DecrAlignVal_display_inv s : display_inv s -> display_inv (DecrAlignVal s).
Proof. intros I. cbv beta delta [DecrAlignVal]. paths disp_arith. Qed.

Ltac disp_leaf :=
  idtac;
  lazymatch goal with
  | |- display_inv (IncrAlignVal _) => apply IncrAlignVal_display_inv; disp_leaf
  | |- display_inv (DecrAlignVal _) => apply DecrAlignVal_display_inv; disp_leaf
  | |- display_inv (EESaveSettings _) =>
      apply (reads_only_keeps _ _ _ _ display_inv_reads EESaveSettings_keeps);
      [ reflexivity | disp_leaf ]
  | |- display_inv (ApplyDefaults _) =>
      apply (reads_only_keeps _ _ _ _ display_inv_reads ApplyDefaults_keeps);
      [ reflexivity | disp_leaf ]
  | |- display_inv (Blink _) =>
      apply (reads_only_keeps _ _ _ _ display_inv_reads Blink_keeps);
      [ reflexivity | disp_leaf ]
  | |- display_inv (RTCsetTime _ _) =>
      change (display_inv (RTCsetTime ?t ?x)) with (display_inv x); disp_leaf
  | |- display_inv (upd _ _ _) => disp_arith
  | |- display_inv _ => assumption
  end.

Lemma PlusReleased_display_inv s : display_inv s -> display_inv (PlusReleased s).
Proof. intros I. cbv beta delta [PlusReleased]. hoare disp_leaf. Qed.

Lemma MinusReleased_display_inv s :
  display_inv s -> display_inv (MinusReleased s).
Proof. intros I. cbv beta delta [MinusReleased]. hoare disp_leaf. Qed.

Lemma ZReleased_display_inv s : display_inv s -> display_inv (ZReleased s).
Proof. intros I. cbv beta delta [ZReleased]. hoare disp_leaf. Qed.

Lemma CheckButtons_display_inv p s :
  display_inv s -> display_inv (CheckButtons p s).
Proof.
  intros I. cbv beta delta [CheckButtons].
  hoare ltac:(idtac; lazymatch goal with
    | |- display_inv (PlusReleased _) => apply PlusReleased_display_inv; disp_leaf
    | |- display_inv (MinusReleased _) => apply MinusReleased_display_inv; disp_leaf
    | |- display_inv (ZReleased _) => apply ZReleased_display_inv; disp_leaf
    | |- _ => disp_leaf
    end).
Qed.

Lemma CheckHeld_display_inv p0 p1 p2 p3 s :
  display_inv s -> display_inv (CheckHeld p0 p1 p2 p3 s).
Proof. intros I. cbv beta delta [CheckHeld]. hoare disp_leaf. Qed.

Lemma AlignDisplay_display_inv s : display_inv s -> display_inv (AlignDisplay s).
Proof. intros I. cbv beta delta [AlignDisplay]. hoare disp_leaf. Qed.

(** Whatever [timeNow] holds, the positions that [NormalTimeDisplay]
    leaves are within the bounds: the decoding in [unsigned int] gives
    minutes and seconds below 60 and hours below 19. *)
Lemma NormalTimeDisplay_HrDisp (s : State) :
  0 <= NormalTimeDisplay s HrDisp < 14.
Proof.
  pose proof (HrNow_of_range s) as Hh.
  set (P := fun st : State => 0 <= st HrDisp < 14).
  change (P (NormalTimeDisplay s)).
  cbv beta delta [NormalTimeDisplay]. revert Hh.
  generalize (HrNow_of s) (MinNow_of s) (SecNow_of s). intros h m c Hh.
  intro_lets P. subst P. cbv beta. norm. back_subst.
  rewrite (byte_small (h + 6)) by lia.
  split_tests; b2p; wraps; lia.
Qed.

Lemma NormalTimeDisplay_display_inv (s : State) :
  display_inv s -> display_inv (NormalTimeDisplay s).
Proof.
  intros [A P]. split.
  - unfold align_ok, align_ring in *.
    rewrite !(frame_eq _ _ NormalTimeDisplay_writes) by reflexivity. exact A.
  - pose proof (NormalTimeDisplay_HrDisp s) as HH.
    set (Q := fun st : State =>
      0 <= st SecDisp < 30 /\ 0 <= st SecNext < 30 /\
      0 <= st MinDisp < 30 /\ 0 <= st MinNext < 30 /\
      0 <= st HrNext < 12).
    enough (K : Q (NormalTimeDisplay s))
      by (unfold positions_ok; unfold Q in K; lia).
    assert (I : Q s) by (unfold positions_ok in P; unfold Q; lia).
    clear A P HH.
    pose proof (MinNow_of_range s) as Hm.
    pose proof (SecNow_of_range s) as Hc.
    cbv beta delta [NormalTimeDisplay]. revert Hm Hc.
    generalize (HrNow_of s) (MinNow_of s) (SecNow_of s). intros h m c Hm Hc.
    hoare ltac:(idtac; lazymatch goal with
      | |- Q (upd _ _ _) =>
          latest Q; subst Q; subst; cbv beta in *; norm;
          cbn [vars upd Var_beq] in *; split_tests; b2p;
          repeat match goal with
          | |- context [byte ?x] => rewrite (byte_small x) in * by dlia
          | H : context [byte ?x] |- _ => rewrite (byte_small x) in * by dlia
          end;
          repeat match goal with
          | |- context [byte ?x] =>
              pose proof (byte_range x); generalize dependent (byte x); intros
          end;
          dlia
      | |- Q _ => assumption
      end).
Qed.

Lemma OptionDisplay_display_inv (s : State) :
  display_inv s -> display_inv (OptionDisplay s).
Proof.
  intros I. cbv beta delta [OptionDisplay].
  hoare ltac:(idtac; lazymatch goal with
    | |- display_inv (NormalTimeDisplay _) =>
        apply NormalTimeDisplay_display_inv; assumption
    | |- display_inv (upd _ _ _) =>
        latest display_inv;
        unfold display_inv, align_ok, align_ring, positions_ok,
          StartOptTimeLimit in *; norm;
        cbn [vars upd Var_beq] in *; split_tests; b2p; wraps; lia
    | |- display_inv _ => assumption
    end).
Qed.

Lemma loop_refresh_display_inv R s :
  display_inv s -> display_inv (loop_refresh R s).
Proof.
  intros H. unfold loop_refresh.
  destruct (truthy R); [|exact H].
  destruct (truthy (s AlignMode)); [apply AlignDisplay_display_inv; exact H|].
  destruct (truthy (s OptionMode)).
  - apply OptionDisplay_display_inv; assumption.
  - apply NormalTimeDisplay_display_inv; assumption.
Qed.

Lemma loop_display_inv i s : Inv s -> display_inv s -> display_inv (loop i s).
Proof.
  apply (loop_keeps display_inv _ display_inv_reads eq_refl).
  - intros. apply CheckButtons_display_inv. assumption.
  - intros. apply CheckHeld_display_inv. assumption.
  - intros. apply loop_refresh_display_inv. assumption.
Qed.

Lemma setup_display_inv millis PIND answer cells :
  display_inv (setup millis PIND answer (power_on cells)).
Proof.
  set (s0 := power_on cells).
  assert (Z : forall y, mem y (AlignMode :: AlignValue :: position_vars) = true ->
                        setup millis PIND answer s0 y = 0).
  { intros y Hy. unfold setup. cbv zeta.
    match goal with |- context [RTCgetTime ?a ?x] =>
      pose proof (RTCgetTime_frame a x y) as T;
      destruct (RTCgetTime a x) as [st s']
    end.
    cbn [snd] in T.
    assert (E : s' y = 0).
    { rewrite T by (destruct y; try discriminate Hy; reflexivity).
      destruct y; try discriminate Hy; norm; reflexivity. }
    destruct (truthy _); norm;
      destruct y; try discriminate Hy; cbn [Var_beq]; exact E. }
  unfold display_inv, align_ok, align_ring, positions_ok.
  rewrite (Z AlignMode), (Z AlignValue), (Z SecDisp), (Z SecNext),
    (Z MinDisp), (Z MinNext), (Z HrNext), (Z HrDisp) by reflexivity.
  cbn. lia.
Qed.

(** X12.  In every reachable state the positions of the seconds and minutes
    rings lie on their rings of 30 LEDs, the second hour position lies on
    the ring of 12, and the alignment value lies on the ring that is being
    aligned.  (The first hour position can leave its ring, in the
    alignment of the other two.) *)
Theorem reachable_display_inv (s : State) : reachable s -> display_inv s.
Proof.
  induction 1 as [cells millis PIND answer | i s R IH].
  - apply setup_display_inv.
  - apply loop_display_inv; [ apply reachable_Inv; exact R | exact IH ].
Qed.

Lemma reachable_display_inv_witness : display_inv idle_state.
Proof. apply reachable_display_inv, reachable_idle_state. Defined.

(** The alignment scenario is reachable, and in its last pass [loop] has
    read the hour tables at index 12. *)
Lemma aligning_reads_outside :
  reachable aligning /\ LH1 (loop_leds aligning) = 12 /\
  Mpx.loop_lines (loop_leds aligning) = None.
Proof.
  split; [ apply reachable_aligning | ].
  split; vm_compute; reflexivity.
Qed.

(** ** Sleep and blinking *)

Lemma dwell_dark b f : dwell b f 0 = 0.
Proof. unfold dwell. rewrite Z.mul_0_r. reflexivity. Qed.

Lemma tempbright_of_blanked s : blanked s -> tempbright_of s = 0.
Proof.
  unfold blanked, tempbright_of, truthy. cbv zeta. intros [S | [V T]].
  - apply Z.eqb_neq in S. rewrite S. cbn [negb].
    destruct (negb _); [ destruct (negb _) | ]; reflexivity.
  - apply Z.eqb_neq in V, T. rewrite V, T. reflexivity.
Qed.

(** A pass through [loop] that reads no sync message makes no difference
    after the dwell values are computed. *)
Lemma loop_sync_none b s : fst (getPCtime b) = None -> loop_sync b s = s.
Proof. intros N. unfold loop_sync. rewrite N. reflexivity. Qed.

(** X13.  While the clock sleeps, and in the odd seconds while it blinks because
    the time is not set, a pass through [loop] leaves all six dwell values
    at zero, whatever the brightness settings and fades.  The pass is one
    that reads no sync message: a sync changes [timeNow] after the dwell
    values have been computed. *)
Theorem loop_blanked (i : Input) (s : State) :
  fst (getPCtime (in_serial i)) = None ->
  blanked (loop i s) ->
  loop i s D0 = 0 /\ loop i s D1 = 0 /\ loop i s D2 = 0 /\
  loop i s D3 = 0 /\ loop i s D4 = 0 /\ loop i s D5 = 0.
Proof.
  intros N. unfold loop. cbv zeta.
  destruct (loop_second i _ _) as [R' s'].
  rewrite (loop_sync_none _ _ N).
  generalize (loop_fades (loop_refresh R' s')). intros x B.
  assert (B' : blanked x).
  { unfold blanked in *.
    rewrite !(frame_eq _ _ loop_dwells_writes) in B by reflexivity. exact B. }
  apply tempbright_of_blanked in B'.
  unfold loop_dwells. cbv zeta. rewrite B'. norm.
  rewrite !dwell_dark. repeat split.
Qed.

Lemma loop_blanked_witness :
  loop (second_with 224 cold_start) cold_start D0 = 0 /\
  loop (second_with 224 cold_start) cold_start D1 = 0 /\
  loop (second_with 224 cold_start) cold_start D2 = 0 /\
  loop (second_with 224 cold_start) cold_start D3 = 0 /\
  loop (second_with 224 cold_start) cold_start D4 = 0 /\
  loop (second_with 224 cold_start) cold_start D5 = 0.
Proof.
  apply loop_blanked; [ reflexivity | ].
  right. vm_compute. split; discriminate.
Defined.

(** ** The alignment value *)

(** X14.  Stepping the alignment value up and down again, or down and up again,
    leaves it where it was, on either ring. *)
Theorem align_step_inverse (s : State) :
  align_ok s ->
  DecrAlignVal (IncrAlignVal s) AlignValue = s AlignValue /\
  IncrAlignVal (DecrAlignVal s) AlignValue = s AlignValue.
Proof.
  unfold align_ok, align_ring. intros A.
  unfold DecrAlignVal, IncrAlignVal. cbv zeta. norm.
  split; repeat (split_if; norm); split_tests; b2p; wraps; lia.
Qed.

Lemma align_step_inverse_witness :
  DecrAlignVal (IncrAlignVal aligning) AlignValue = 18 /\
  IncrAlignVal (DecrAlignVal aligning) AlignValue = 18.
Proof.
  destruct (align_step_inverse aligning) as [A B].
  - vm_compute. split; [discriminate | reflexivity].
  - rewrite A, B. split; vm_compute; reflexivity.
Defined.

(** ** Presses and releases *)

(** X15.  [CheckButtons] acts on releases only.  When no button goes up, it
    does no more than end the blinking, restart the idle timer and
    remember the port. *)
Theorem CheckButtons_no_release (PIND : Z) (s : State) (y : Var) :
  no_release PIND s ->
  mem y [VCRmode; TimeSinceButton; PINDLast] = false ->
  CheckButtons PIND s y = s y.
Proof.
  intros (R1 & R2 & R3) Hy. split_mem Hy.
  unfold CheckButtons. cbv zeta. norm.
  rewrite (released_reads 32 _ s) by reflexivity. rewrite R1.
  rewrite (released_reads 64 _ s) by reflexivity. rewrite R2.
  rewrite (released_reads 128 _ s) by reflexivity. rewrite R3.
  norm. destruct (negb _); cbn [vars upd];
    destruct y; try discriminate; reflexivity.
Qed.

Lemma CheckButtons_no_release_witness :
  CheckButtons 192 idle_state MainBright = idle_state MainBright.
Proof.
  apply CheckButtons_no_release; [ | reflexivity ].
  repeat split; vm_compute; reflexivity.
Defined.

(** ** Holds and the settings *)

Section FactoryReset.

Variable s0 : State.

Lemma kept_reads :
  reads_only (FactoryResetDisable :: settings_vars) (settings_kept s0).
Proof.
  intros s s' H. unfold settings_kept, settings.
  rewrite (H FactoryResetDisable), (H MainBright), (H HourBright),
    (H MinBright), (H SecBright), (H CCW), (H FadeMode) by reflexivity.
  auto.
Qed.

Ltac kept_arith :=
  latest (settings_kept s0);
  unfold settings_kept, settings in *; norm; cbn [vars upd Var_beq] in *; b2p;
  repeat match goal with
  | H : _ /\ _ |- _ => destruct H
  end;
  first [ contradiction
        | split; [ first [ assumption | discriminate ] | assumption ] ].

(** The factory reset itself is guarded by a test that the assertion
    excludes. *)
Ltac kept_absurd :=
  unfold settings_kept in *; cbn [vars upd Var_beq] in *; b2p;
  repeat match goal with
  | H : _ /\ _ |- _ => destruct H
  end;
  first [ contradiction | discriminate | congruence ].

Ltac kept_leaf :=
  idtac;
  lazymatch goal with
  | |- settings_kept s0 (EESaveSettings (ApplyDefaults _)) =>
      exfalso; kept_absurd
  | |- settings_kept s0 (EESaveSettings _) =>
      apply (reads_only_keeps _ _ _ _ kept_reads EESaveSettings_keeps);
      [ reflexivity | kept_leaf ]
  | |- settings_kept s0 (Blink _) =>
      apply (reads_only_keeps _ _ _ _ kept_reads Blink_keeps);
      [ reflexivity | kept_leaf ]
  | |- settings_kept s0 (RTCsetTime _ _) =>
      change (settings_kept s0 (RTCsetTime ?t ?x)) with (settings_kept s0 x);
      kept_leaf
  | |- settings_kept s0 (upd _ _ _) => kept_arith
  | |- settings_kept s0 _ => assumption
  end.

Lemma CheckHeld_kept p0 p1 p2 p3 s :
  settings_kept s0 s -> settings_kept s0 (CheckHeld p0 p1 p2 p3 s).
Proof. intros I. cbv beta delta [CheckHeld]. hoare kept_leaf. Qed.

End FactoryReset.

(** X16.  Once the factory reset is disabled, which [CheckHeld] does in the
    first second that finds all buttons up, no hold changes the settings:
    [CheckHeld] leaves all six as they are, and the reset disabled. *)
Theorem CheckHeld_keeps_settings (p0 p1 p2 p3 : Z) (s : State) :
  s FactoryResetDisable <> 0 ->
  settings (CheckHeld p0 p1 p2 p3 s) = settings s /\
  CheckHeld p0 p1 p2 p3 s FactoryResetDisable <> 0.
Proof.
  intros F.
  destruct (CheckHeld_kept s p0 p1 p2 p3 s) as [A B]; [ split; auto | ].
  split; assumption.
Qed.

Lemma CheckHeld_keeps_settings_witness :
  settings (CheckHeld 128 128 128 128 (snd (hold 128 2 idle_state)))
  = settings (snd (hold 128 2 idle_state)) /\
  CheckHeld 128 128 128 128 (snd (hold 128 2 idle_state)) FactoryResetDisable <> 0.
Proof.
  apply CheckHeld_keeps_settings. vm_compute. discriminate.
Defined.

(** X17.  The factory reset.  With the reset not disabled, the third second of
    "+" and "-" held together replaces the six settings by the factory
    defaults and stores them. *)
Theorem CheckHeld_factory_reset (p0 p1 p2 p3 : Z) (s : State) :
  s FactoryResetDisable = 0 -> s HoldAlign = 2 ->
  Z.land p0 buttonmask <> buttonmask ->
  Z.land p1 buttonmask = 128 -> Z.land p2 buttonmask <> 64 ->
  Z.land p3 buttonmask <> 96 ->
  settings (CheckHeld p0 p1 p2 p3 s) = factory_defaults /\
  stored (CheckHeld p0 p1 p2 p3 s) = factory_defaults.
Proof.
  intros F A C0 C1 C2 C3.
  apply Z.eqb_neq in C0, C2, C3. apply Z.eqb_eq in C1.
  set (P := fun st : State =>
    settings st = factory_defaults /\ stored st = factory_defaults).
  change (P (CheckHeld p0 p1 p2 p3 s)). cbv beta delta [CheckHeld].
  (* the counters *)
  step_let s1 E1. rewrite C0, C1, C2, C3 in E1. cbv zeta iota beta in E1.
  assert (A1 : s1 HoldAlign = 3) by (rewrite E1; norm; rewrite A; reflexivity).
  assert (O1 : s1 HoldOption = 0) by (rewrite E1; reflexivity).
  assert (T1 : s1 HoldTimeSet = 0) by (rewrite E1; reflexivity).
  assert (F1 : s1 FactoryResetDisable = 0) by (rewrite E1; exact F).
  clear E1.
  (* the hold of "+" and "-" *)
  step_let s2 E2. rewrite A1 in E2. change (3 =? 3) with true in E2.
  cbv zeta iota beta in E2. cbn [vars upd Var_beq] in E2.
  rewrite F1 in E2. change (0 =? 0) with true in E2. cbv iota in E2.
  assert (O2 : s2 HoldOption = 0) by (rewrite E2; norm; exact O1).
  assert (T2 : s2 HoldTimeSet = 0) by (rewrite E2; norm; exact T1).
  assert (D2 : P s2).
  { rewrite E2. subst P. cbv beta.
    match goal with |- context [EESaveSettings ?st] =>
      assert (D : settings st = factory_defaults) by reflexivity;
      generalize dependent st; intros x _ D
    end.
    assert (B : settings_bytes x).
    { unfold settings_bytes. rewrite D. cbv. repeat constructor; discriminate. }
    rewrite EESaveSettings_settings, (EESaveSettings_stored x B). auto. }
  clear E2.
  (* the other two holds *)
  step_let s3 E3. rewrite O2 in E3. change (0 =? 3) with false in E3.
  cbv iota in E3. subst s3.
  rewrite T2. change (0 =? 3) with false. cbv iota. exact D2.
Qed.

Lemma CheckHeld_factory_reset_witness :
  settings (CheckHeld 128 128 128 128
              (snd (hold 128 2 (cold_start <| MainBright := 3 |>))))
  = factory_defaults /\
  stored (CheckHeld 128 128 128 128
            (snd (hold 128 2 (cold_start <| MainBright := 3 |>))))
  = factory_defaults.
Proof.
  apply CheckHeld_factory_reset; vm_compute; try reflexivity; discriminate.
Defined.

(** X18.  The idle save.  In the tenth second without a button down, a main
    brightness that differs from the one last saved makes [CheckHeld] store
    the six settings; it then counts as saved. *)
Theorem CheckHeld_idle_save (p0 p1 p2 p3 : Z) (s : State) :
  Z.land p0 buttonmask = buttonmask -> s TimeSinceButton = 9 ->
  s LastSavedBrightness <> s MainBright -> settings_bytes s ->
  stored (CheckHeld p0 p1 p2 p3 s) = settings s /\
  settings (CheckHeld p0 p1 p2 p3 s) = settings s /\
  CheckHeld p0 p1 p2 p3 s LastSavedBrightness = s MainBright.
Proof.
  intros C0 T N B.
  apply Z.eqb_eq in C0. apply Z.eqb_neq in N.
  set (P := fun st : State =>
    stored st = settings s /\ settings st = settings s /\
    st LastSavedBrightness = s MainBright).
  change (P (CheckHeld p0 p1 p2 p3 s)). cbv beta delta [CheckHeld].
  (* all buttons up: the counters are reset and the idle timer counts *)
  step_let s1 E1. rewrite C0 in E1. cbv zeta iota beta in E1.
  cbn [vars upd Var_beq] in E1. rewrite T in E1.
  change (9 <? 250) with true in E1. cbv iota in E1.
  cbn [vars upd Var_beq] in E1.
  change (byte (9 + 1) =? 10) with true in E1. cbv iota in E1.
  rewrite N in E1. cbn [negb] in E1.
  assert (A1 : s1 HoldAlign = 0) by (rewrite E1; norm; reflexivity).
  assert (O1 : s1 HoldOption = 0) by (rewrite E1; norm; reflexivity).
  assert (T1 : s1 HoldTimeSet = 0) by (rewrite E1; norm; reflexivity).
  assert (D1 : P s1).
  { rewrite E1. subst P. cbv beta.
    match goal with |- context [EESaveSettings ?st] =>
      assert (D : settings st = settings s) by reflexivity;
      assert (M : st MainBright = s MainBright) by reflexivity;
      generalize dependent st; intros x _ D M
    end.
    assert (B' : settings_bytes x)
      by (unfold settings_bytes; rewrite D; exact B).
    rewrite EESaveSettings_settings, (EESaveSettings_stored x B'), D.
    repeat split.
    unfold EESaveSettings, Blink. cbv zeta. norm.
    rewrite ?EEUpdate_vars. exact M. }
  clear E1.
  (* no hold fires *)
  step_let s2 E2. rewrite A1 in E2. change (0 =? 3) with false in E2.
  cbv iota in E2. subst s2.
  step_let s3 E3. rewrite O1 in E3. change (0 =? 3) with false in E3.
  cbv iota in E3. subst s3.
  rewrite T1. change (0 =? 3) with false. cbv iota. exact D1.
Qed.

Lemma CheckHeld_idle_save_witness :
  stored (CheckHeld 224 224 224 224
            (snd (hold 224 8 (idle_state <| MainBright := 5 |>))))
  = [5; 63; 63; 63; 0; 1].
Proof.
  destruct (CheckHeld_idle_save 224 224 224 224
              (snd (hold 224 8 (idle_state <| MainBright := 5 |>)))) as [E _].
  - reflexivity.
  - vm_compute. reflexivity.
  - vm_compute. discriminate.
  - unfold settings_bytes. vm_compute. repeat constructor; discriminate.
  - rewrite E. vm_compute. reflexivity.
Defined.

(** ** The multiplexer and the ports *)

Lemma land_lor_mask x a m : Z.land a m = 0 -> Z.land (Z.lor x a) m = Z.land x m.
Proof. intros H. rewrite Z.land_lor_distr_l, H. apply Z.lor_0_r. Qed.

Lemma land_land_mask x a m : Z.land a m = m -> Z.land (Z.land x a) m = Z.land x m.
Proof. intros H. rewrite <- Z.land_assoc, H. reflexivity. Qed.

Ltac masks :=
  unfold Mpx.other_bits, Mpx.LEDsBInv, Mpx.LEDsCInv, Mpx.LEDsDInv,
    Mpx.with_B, Mpx.with_C, Mpx.with_D;
  cbn [Mpx.DDRB Mpx.PORTB Mpx.DDRC Mpx.PORTC Mpx.DDRD Mpx.PORTD];
  rewrite ?land_lor_mask by reflexivity;
  rewrite ?land_land_mask by reflexivity;
  reflexivity.

Lemma TakeHigh_other_bits line p :
  Mpx.other_bits (Mpx.TakeHigh line p) = Mpx.other_bits p.
Proof.
  unfold Mpx.TakeHigh.
  repeat match goal with
  | |- context [if ?c then _ else _] => destruct c; [ masks | ]
  end. reflexivity.
Qed.

Lemma TakeLow_other_bits line p :
  Mpx.other_bits (Mpx.TakeLow line p) = Mpx.other_bits p.
Proof.
  unfold Mpx.TakeLow.
  repeat match goal with
  | |- context [if ?c then _ else _] => destruct c; [ masks | ]
  end. reflexivity.
Qed.

Lemma AllLEDsOff_other_bits p :
  Mpx.other_bits (Mpx.AllLEDsOff p) = Mpx.other_bits p.
Proof. unfold Mpx.AllLEDsOff. cbv zeta. masks. Qed.

Lemma NextLED_other_bits r m :
  Mpx.other_bits (Mpx.ports (Mpx.NextLED r m)) = Mpx.other_bits (Mpx.ports m).
Proof.
  unfold Mpx.NextLED. cbv zeta. cbn [Mpx.ports].
  repeat match goal with
  | |- context [if ?c then _ else _] => destruct c
  end;
  rewrite ?TakeLow_other_bits, ?TakeHigh_other_bits;
  apply AllLEDsOff_other_bits.
Qed.

Lemma TIMER1_COMPA_vect_other_bits (s : State) (r : Mpx.LineRegs) (m : Mpx.Mux) :
  Mpx.other_bits (Mpx.ports (Mpx.TIMER1_COMPA_vect s r m))
  = Mpx.other_bits (Mpx.ports m).
Proof.
  unfold Mpx.TIMER1_COMPA_vect, Mpx.DisplayMPX. cbv zeta.
  cbn [Mpx.ports Mpx.mpx_count Mpx.mpx_select].
  repeat match goal with
  | |- context [if ?c then _ else _] => destruct c
  end; rewrite ?NextLED_other_bits; reflexivity.
Qed.

(** X19.  The interrupt handler changes LED lines only: however many times it
    runs, and whatever the line registers hold, every other bit of the six
    port registers, among them the pull-ups of the buttons and the serial
    pins, is left as it is. *)
Theorem interrupt_other_bits (n : nat) (s : State) (r : Mpx.LineRegs)
    (m : Mpx.Mux) :
  Mpx.other_bits (Mpx.ports (Mpx.interrupts n s r m))
  = Mpx.other_bits (Mpx.ports m).
Proof.
  revert m. induction n as [|n IH]; intros m; [reflexivity|].
  change (Mpx.interrupts (S n) s r m)
    with (Mpx.interrupts n s r (Mpx.TIMER1_COMPA_vect s r m)).
  rewrite IH. apply TIMER1_COMPA_vect_other_bits.
Qed.

(** *** Lighting one LED *)

(** The bits of the constants that the port operations use. *)
Ltac const_bits :=
  repeat match goal with
  | |- context [Z.testbit (Zpos ?p) ?k] =>
      let v := eval vm_compute in (Z.testbit (Zpos p) k) in
      change (Z.testbit (Zpos p) k) with v
  end.

Ltac bits :=
  unfold Mpx.level, Mpx.pin, Mpx.TakeHigh, Mpx.TakeLow, Mpx.AllLEDsOff,
    Mpx.LEDsBInv, Mpx.LEDsCInv, Mpx.LEDsDInv,
    Mpx.with_B, Mpx.with_C, Mpx.with_D;
  cbv zeta;
  cbn [Z.eqb Pos.eqb Mpx.ddr Mpx.port
       Mpx.DDRB Mpx.PORTB Mpx.DDRC Mpx.PORTC Mpx.DDRD Mpx.PORTD];
  rewrite ?Z.lor_spec, ?Z.land_spec; const_bits;
  rewrite ?orb_true_r, ?orb_false_r, ?andb_true_r, ?andb_false_r;
  try reflexivity.

Ltac line_cases n H :=
  let K := fresh "K" in
  assert (K : n = 1 \/ n = 2 \/ n = 3 \/ n = 4 \/ n = 5 \/
              n = 6 \/ n = 7 \/ n = 8 \/ n = 9 \/ n = 10) by lia;
  clear H;
  destruct K as [K | [K | [K | [K | [K | [K | [K | [K | [K | K]]]]]]]]];
  subst n.

Lemma AllLEDsOff_level n p :
  1 <= n <= 10 -> Mpx.level (Mpx.AllLEDsOff p) n = Some Mpx.Floating.
Proof. intros H. line_cases n H; bits. Qed.

Lemma TakeHigh_level h p :
  1 <= h <= 10 -> Mpx.level (Mpx.TakeHigh h p) h = Some Mpx.High.
Proof. intros H. line_cases h H; bits. Qed.

Lemma TakeLow_level l p :
  1 <= l <= 10 -> Mpx.level (Mpx.TakeLow l p) l = Some Mpx.Low.
Proof. intros H. line_cases l H; bits. Qed.

Lemma TakeHigh_level_other h n p :
  1 <= h <= 10 -> 1 <= n <= 10 -> n <> h ->
  Mpx.level (Mpx.TakeHigh h p) n = Mpx.level p n.
Proof.
  intros H N D. line_cases h H; line_cases n N; try contradiction; bits.
Qed.

Lemma TakeLow_level_other l n p :
  1 <= l <= 10 -> 1 <= n <= 10 -> n <> l ->
  Mpx.level (Mpx.TakeLow l p) n = Mpx.level p n.
Proof.
  intros H N D. line_cases l H; line_cases n N; try contradiction; bits.
Qed.

(** X20.  Lighting an LED as [NextLED] does it, all lines off and then one line
    taken high and another taken low, drives exactly these two lines: the
    first is high, the second is low, and each of the other eight LED
    lines is an input. *)
Theorem one_LED_lit (h l : Z) (p : Mpx.Ports) :
  valid_pair h l ->
  Mpx.level (Mpx.TakeLow l (Mpx.TakeHigh h (Mpx.AllLEDsOff p))) h
    = Some Mpx.High /\
  Mpx.level (Mpx.TakeLow l (Mpx.TakeHigh h (Mpx.AllLEDsOff p))) l
    = Some Mpx.Low /\
  forall n, 1 <= n <= 10 -> n <> h -> n <> l ->
    Mpx.level (Mpx.TakeLow l (Mpx.TakeHigh h (Mpx.AllLEDsOff p))) n
      = Some Mpx.Floating.
Proof.
  intros (H & L & D). repeat split.
  - rewrite TakeLow_level_other by assumption. apply TakeHigh_level, H.
  - apply TakeLow_level, L.
  - intros n N Nh Nl.
    rewrite TakeLow_level_other, TakeHigh_level_other by assumption.
    apply AllLEDsOff_level, N.
Qed.

Lemma one_LED_lit_witness :
  Mpx.level (Mpx.TakeLow 1 (Mpx.TakeHigh 10
               (Mpx.AllLEDsOff (Mpx.mkPorts 2 0 0 0 0 224)))) 10
    = Some Mpx.High.
Proof.
  apply (one_LED_lit 10 1). unfold valid_pair. lia.
Defined.

(** *** The time of a slot *)

Ltac slot_cases k H :=
  let K := fresh "K" in
  assert (K : k = 0 \/ k = 1 \/ k = 2 \/ k = 3 \/ k = 4 \/
              k = 5 \/ k = 6 \/ k = 7 \/ k = 8) by lia;
  clear H;
  destruct K as [K | [K | [K | [K | [K | [K | [K | [K | K]]]]]]]].

(** Below the dwell value the interrupt only counts. *)
Lemma interrupt_counts (s : State) r m k c :
  s DisplayOn <> 0 -> in_slot k c m -> 0 <= k <= 8 ->
  0 <= c -> c + 1 <= Mpx.slot_dwell s k -> c + 1 < 256 ->
  in_slot k (c + 1) (Mpx.TIMER1_COMPA_vect s r m) /\
  Mpx.ports (Mpx.TIMER1_COMPA_vect s r m) = Mpx.ports m.
Proof.
  intros On [Hk Hc] K C D B.
  unfold Mpx.TIMER1_COMPA_vect, truthy. apply Z.eqb_neq in On. rewrite On.
  cbn [negb]. unfold Mpx.DisplayMPX, in_slot. cbv zeta.
  cbn [Mpx.ports Mpx.mpx_count Mpx.mpx_select]. rewrite Hk, Hc.
  clear Hk Hc. rewrite (byte_small (c + 1)) by lia.
  slot_cases k K; subst k; unfold Mpx.slot_dwell in D;
    cbn [Z.eqb Pos.eqb] in *;
    match goal with
    | |- context [if ?d <? c + 1 then _ else _] =>
        destruct (d <? c + 1) eqn:T; b2p; [ lia | ]
    end; cbn [Mpx.ports Mpx.mpx_count Mpx.mpx_select]; auto.
Qed.

(** Past the dwell value the interrupt moves on to the next slot. *)
Lemma interrupt_moves_on (s : State) r m k c :
  s DisplayOn <> 0 -> in_slot k c m -> 0 <= k <= 8 ->
  0 <= c -> c = Mpx.slot_dwell s k -> c + 1 < 256 ->
  in_slot ((k + 1) mod 9) 0 (Mpx.TIMER1_COMPA_vect s r m).
Proof.
  intros On [Hk Hc] K C D B.
  unfold Mpx.TIMER1_COMPA_vect, truthy. apply Z.eqb_neq in On. rewrite On.
  cbn [negb]. unfold Mpx.DisplayMPX, in_slot. cbv zeta.
  cbn [Mpx.ports Mpx.mpx_count Mpx.mpx_select]. rewrite Hk, Hc.
  clear Hk Hc. rewrite (byte_small (c + 1)) by lia.
  slot_cases k K; subst k; unfold Mpx.slot_dwell in D;
    cbn [Z.eqb Pos.eqb] in *;
    match goal with
    | |- context [if ?d <? c + 1 then _ else _] =>
        destruct (d <? c + 1) eqn:T; b2p; [ | lia ]
    end; unfold Mpx.NextLED; cbv zeta;
    cbn [Mpx.ports Mpx.mpx_count Mpx.mpx_select]; split; reflexivity.
Qed.

Lemma interrupts_S n s r m :
  Mpx.interrupts (S n) s r m
  = Mpx.TIMER1_COMPA_vect s r (Mpx.interrupts n s r m).
Proof.
  revert m. induction n as [|n IH]; intros m; [reflexivity|].
  change (Mpx.interrupts (S (S n)) s r m)
    with (Mpx.interrupts (S n) s r (Mpx.TIMER1_COMPA_vect s r m)).
  rewrite IH. reflexivity.
Qed.

Lemma interrupts_count (s : State) r m k n :
  s DisplayOn <> 0 -> in_slot k 0 m -> 0 <= k <= 8 ->
  Z.of_nat n <= Mpx.slot_dwell s k -> Mpx.slot_dwell s k < 255 ->
  in_slot k (Z.of_nat n) (Mpx.interrupts n s r m) /\
  Mpx.ports (Mpx.interrupts n s r m) = Mpx.ports m.
Proof.
  intros On S0 K. induction n as [|n IH]; intros D B.
  - split; [exact S0 | reflexivity].
  - destruct IH as [I P]; [lia | exact B |].
    rewrite interrupts_S.
    destruct (interrupt_counts s r (Mpx.interrupts n s r m) k (Z.of_nat n))
      as [I' P']; try assumption; try lia.
    split.
    + replace (Z.of_nat (S n)) with (Z.of_nat n + 1) by lia. exact I'.
    + rewrite P'. exact P.
Qed.

(** X21.  A slot lasts one interrupt more than its dwell value.  From the start
    of slot [k], with the dwell value [d] of the slot below 255, the
    multiplexer stays in the slot with the ports unchanged for [d]
    interrupts, and the next interrupt starts the following slot (slot 0
    after slot 8). *)
Theorem slot_lasts (s : State) (r : Mpx.LineRegs) (m : Mpx.Mux) (k : Z) :
  s DisplayOn <> 0 -> in_slot k 0 m -> 0 <= k <= 8 ->
  0 <= Mpx.slot_dwell s k < 255 ->
  (forall n, (n < slot_time s k)%nat ->
     in_slot k (Z.of_nat n) (Mpx.interrupts n s r m) /\
     Mpx.ports (Mpx.interrupts n s r m) = Mpx.ports m) /\
  in_slot ((k + 1) mod 9) 0 (Mpx.interrupts (slot_time s k) s r m).
Proof.
  intros On S0 K D. unfold slot_time. split.
  - intros n Hn. apply interrupts_count; try assumption; lia.
  - replace (Z.to_nat (Mpx.slot_dwell s k + 1))
      with (S (Z.to_nat (Mpx.slot_dwell s k))) by lia.
    rewrite interrupts_S.
    destruct (interrupts_count s r m k (Z.to_nat (Mpx.slot_dwell s k)))
      as [I _]; try assumption; try lia.
    apply (interrupt_moves_on s r _ k (Mpx.slot_dwell s k));
      try assumption; try lia.
    rewrite Z2Nat.id in I by lia. exact I.
Qed.

Lemma slot_lasts_witness :
  in_slot 1 0
    (Mpx.interrupts (slot_time first_pass 0) first_pass
       (Mpx.mkLineRegs 10 1 1 7 2 3 1 10 7 1 1 1)
       (Mpx.mkMux (Mpx.mkPorts 0 0 0 0 2 224) 0 0)).
Proof.
  apply (slot_lasts first_pass _ _ 0).
  - vm_compute. discriminate.
  - split; reflexivity.
  - lia.
  - vm_compute. split; [discriminate | reflexivity].
Defined.

(** ** Serial time sync *)

(** X22.  With fewer than eleven bytes received [getPCtime] reports no message
    and takes nothing out of the buffer. *)
Theorem getPCtime_short (buf : list Z) :
  (length buf < 11)%nat -> getPCtime buf = (None, buf).
Proof.
  intros H. destruct buf as [|b rest]; [reflexivity|].
  cbn [getPCtime]. unfold TIME_MSG_LEN.
  destruct (11 <=? Z.of_nat (length (b :: rest))) eqn:C; [b2p; lia | reflexivity].
Qed.

Lemma getPCtime_short_witness :
  getPCtime [255; 49; 50; 51] = (None, [255; 49; 50; 51]).
Proof. apply getPCtime_short. cbn. lia. Defined.

Lemma length_decimal k n : length (decimal k n) = k.
Proof.
  revert n. induction k as [|k IH]; intros n; [reflexivity|].
  cbn [decimal]. rewrite length_app, IH. cbn. lia.
Qed.

Lemma read_digit d pctime rest m :
  0 <= d < 10 -> 0 <= pctime -> 10 * pctime + d < 4294967296 ->
  read_digits (S m) pctime ((48 + d) :: rest)
  = read_digits m (10 * pctime + d) rest.
Proof.
  intros D P B. cbn [read_digits Serial_read].
  rewrite (byte_small (48 + d)), (char_small (48 + d)) by lia.
  destruct (48 <=? 48 + d) eqn:C1; [|b2p; lia].
  destruct (48 + d <=? 57) eqn:C2; [|b2p; lia].
  cbn [andb]. replace (48 + d - 48) with d by lia.
  rewrite uint32_small by lia. reflexivity.
Qed.

(** Reading the digits that were printed gives the number back. *)
Lemma read_digits_decimal j :
  forall m acc x rest,
    0 <= x < 10 ^ Z.of_nat j -> 0 <= acc ->
    acc * 10 ^ Z.of_nat j + x < 4294967296 ->
    read_digits (j + m) acc (decimal j x ++ rest)
    = read_digits m (acc * 10 ^ Z.of_nat j + x) rest.
Proof.
  induction j as [|j IH]; intros m acc x rest X A B.
  - cbn [decimal app Nat.add]. change (10 ^ Z.of_nat 0) with 1 in *.
    f_equal. lia.
  - assert (E : 10 ^ Z.of_nat (S j) = 10 * 10 ^ Z.of_nat j).
    { rewrite Nat2Z.inj_succ, Z.pow_succ_r by lia. reflexivity. }
    rewrite E in *.
    assert (P : 0 < 10 ^ Z.of_nat j) by (apply Z.pow_pos_nonneg; lia).
    cbn [decimal]. rewrite <- app_assoc. cbn [app].
    replace (S j + m)%nat with (j + S m)%nat by lia.
    assert (Q : 0 <= x / 10 < 10 ^ Z.of_nat j) by dlia.
    rewrite IH by (try assumption; dlia).
    rewrite read_digit by (try apply Z.mod_pos_bound; dlia).
    f_equal. dlia.
Qed.

(** X23.  The message of [sync.sh] is read back as the time it carries: after
    any bytes that are not the header, [getPCtime] finds the message,
    hands its time to [setTime], and leaves in the buffer what follows the
    message.  The time must have ten decimal digits and fit 32 bits. *)
Theorem getPCtime_sync (t : Z) (junk rest : list Z) :
  1000000000 <= t < 4294967296 ->
  Forall (fun b => byte b <> 255) junk ->
  getPCtime (junk ++ sync_message t ++ rest) = (Some t, rest).
Proof.
  intros T J. induction J as [|b junk Hb J IH].
  - cbn [app]. unfold sync_message. cbn [app getPCtime length].
    rewrite length_app, length_decimal. unfold TIME_MSG_LEN, TIME_HEADER.
    destruct (11 <=? _) eqn:C; [|b2p; lia].
    change (byte 255 =? 255) with true. cbv iota.
    pose proof (read_digits_decimal 10 0 0 t rest) as R.
    change (10 ^ Z.of_nat 10) with 10000000000 in R.
    change (10 + 0)%nat with 10%nat in R.
    rewrite R by lia. cbn [read_digits]. f_equal.
  - cbn [app getPCtime length]. unfold TIME_MSG_LEN, TIME_HEADER, sync_message.
    rewrite ?length_app. cbn [length]. rewrite ?length_app, length_decimal.
    destruct (11 <=? _) eqn:C; [|b2p; lia].
    apply Z.eqb_neq in Hb. rewrite Hb. exact IH.
Qed.

Lemma getPCtime_sync_witness :
  getPCtime ([10; 13] ++ sync_message 1793664000 ++ [7])
  = (Some 1793664000, [7]).
Proof.
  apply getPCtime_sync; [ lia | repeat constructor; discriminate ].
Defined.

(** ** The time that a sync leaves *)

Lemma time_of_day t :
  hour t * 3600 + minute t * 60 + second t = t mod 86400.
Proof. unfold hour, minute, second. dlia. Qed.

(** The sum of the sync, with the wrap-around of each operation. *)
Lemma sync_sum t :
  int16 (int16 (int16 (hour t * 3600) + int16 (minute t * 60)) + second t)
  = int16 (t mod 86400).
Proof.
  rewrite <- time_of_day. generalize (hour t * 3600) (minute t * 60) (second t).
  intros a b c. unfold int16. dlia.
Qed.

(** X24.  The serial sync computes the time of day in [int]: whatever was in
    [timeNow], it is left at the seconds since midnight wrapped to 16 bits.
    This is the time of day up to 09:06:07; from 09:06:08 on the sum has
    overflowed.  The result never exceeds 32767, so the fold to twelve
    hours that follows in the source never applies. *)
Theorem loop_sync_time (b : list Z) (t : Z) (s : State) :
  fst (getPCtime b) = Some t ->
  loop_sync b s timeNow = int16 (t mod 86400) /\
  (t mod 86400 < 32768 -> loop_sync b s timeNow = t mod 86400).
Proof.
  intros H.
  assert (E : loop_sync b s timeNow = int16 (t mod 86400)).
  { unfold loop_sync. rewrite H. cbv zeta. rewrite sync_sum.
    pose proof (int16_range (t mod 86400)) as R.
    generalize dependent (int16 (t mod 86400)). intros x R. norm.
    destruct (43200 <? x) eqn:C; [ b2p; lia | ].
    norm.
    repeat match goal with
    | |- context [if ?c then _ else _] => destruct c
    end; norm; reflexivity. }
  split; [ exact E | ].
  intros M. rewrite E. apply int16_small.
  pose proof (Z.mod_pos_bound t 86400). lia.
Qed.

Lemma loop_sync_time_witness :
  (* a sync at 10:00:00 leaves a negative time *)
  loop_sync (sync_message 1793700000) idle_state timeNow = -29536.
Proof.
  destruct (loop_sync_time (sync_message 1793700000) 1793700000 idle_state)
    as [E _]; [ vm_compute; reflexivity | ].
  rewrite E. vm_compute. reflexivity.
Defined.
